(** * Attendance reports: the parser, the monthly rollups and the charts

    A shallow embedding of [attendance_parser_final.py] (the line scanner
    [parse_attendance_data], the record extractor [parse_branch_line], the
    summary [analyze_attendance_data] and [main]), of
    [attendance_analysis_python.py] (the opening summary, the cleaning
    step, the branch and constituency rollups and the top/low performer
    tables of [calculate_monthly_attendance_averages], each as a function
    of the sheet, and the function as a whole) and of
    [attendance_charts_generator.py] (the grids of subplots of
    [create_constituency_charts] and [create_branch_charts], and the name
    of the file [create_attendance_charts] saves).

    Conventions.
    - A Python [str] is a list of Unicode code points; the character
      classes and the limit of [int] are those of CPython 3.11.
    - A Python [float] and a NumPy [float64] are IEEE-754 binary64 values,
      computed with the Standard Library's executable specification
      [SpecFloat] at precision 53 and maximal exponent 1024.
    - An exception of the parser is a value of [exn], and code that can
      raise one returns [result]; the code around it returns [outcome],
      whose [failure] adds the exceptions met there.
    - A sheet cell that holds a number holds an integer (attendances and
      targets are head counts); a blank cell is [None].  Sums and maxima of
      such columns are taken in [Z]; they agree with pandas' float64 kernels
      as long as the magnitudes stay below 2^53, and with its int64 kernels
      below 2^63.
    - pandas' [groupby] sorts its groups by key and leaves out the rows
      whose key has a blank; [nlargest] and [nsmallest] keep the first of
      equal rows, as documented for [keep='first']; [unique] keeps the
      blank cell as one value.
    - Files, printing and drawing are left out: a sheet that is read is an
      argument, and a function that writes returns what it hands to the
      writer. *)

From Stdlib Require Import ZArith NArith List Bool Lia Permutation Sorted.
From Stdlib Require Ascii String.
Import String.StringSyntax.
From Stdlib Require Import Floats.SpecFloat.
Import ListNotations.

Local Open Scope Z_scope.

(* ================================================================== *)
(** ** Binary64 arithmetic *)

Module F64.

Definition prec : Z := 53.
Definition emax : Z := 1024.

Definition float64 : Type := spec_float.

Definition nan : float64 := S754_nan.
Definition pos_inf : float64 := S754_infinity false.

Definition fmul : float64 -> float64 -> float64 := SFmul prec emax.
Definition fdiv : float64 -> float64 -> float64 := SFdiv prec emax.
Definition fltb : float64 -> float64 -> bool := SFltb.
Definition feqb : float64 -> float64 -> bool := SFeqb.

(** Conversion of an integer, rounding to nearest, ties to even. *)
Definition of_Z (z : Z) : float64 := binary_normalize prec emax z 0 false.

Definition is_nan (x : float64) : bool :=
  match x with S754_nan => true | _ => false end.

Definition is_inf (x : float64) : bool :=
  match x with S754_infinity _ => true | _ => false end.

(** The integer nearest to [n / d], ties to the even one ([0 < d]). *)
Definition div_half_even (n d : Z) : Z :=
  let q := n / d in
  let r := n mod d in
  match 2 * r ?= d with
  | Lt => q
  | Gt => q + 1
  | Eq => if Z.even q then q else q + 1
  end.

(** The integer nearest to [m * 2^e], ties to even. *)
Definition nearest_int (m e : Z) : Z :=
  if 0 <=? e then m * 2 ^ e else div_half_even m (2 ^ (- e)).

(** C's [rint] in the default rounding mode. *)
Definition rint (x : float64) : float64 :=
  match x with
  | S754_finite s m e =>
      if 0 <=? e then x
      else match nearest_int (Zpos m) e with
           | Zpos n => binary_round prec emax s n 0
           | _ => S754_zero s
           end
  | _ => x
  end.

(** [numpy.ndarray.round(decimals)] on a float64 array, for the two
    values of [decimals] the program uses: scale by the power of ten,
    [rint], scale back; with no decimals it is [rint] alone. *)
Definition np_round2 (x : float64) : float64 :=
  fdiv (rint (fmul x (of_Z 100))) (of_Z 100).

Definition np_round0 (x : float64) : float64 := rint x.

(** Python's built-in [round(x, 2)] on a float: the exact value of [x] is
    rounded half-even to two decimals, and the decimal is converted back to
    the nearest float.  Infinities and NaN round to themselves. *)
Definition py_round2 (x : float64) : float64 :=
  match x with
  | S754_finite s m e =>
      match nearest_int (100 * Zpos m) e with
      | Zpos n => fdiv (S754_finite s n 0) (S754_finite false 100 0)
      | _ => S754_zero s
      end
  | _ => x
  end.

End F64.

Import F64.

(* ================================================================== *)
(** ** Exceptions *)

Inductive exn : Type :=
| ZeroDivisionError
| OverflowError
| ValueError.

Inductive result (A : Type) : Type :=
| Ok (a : A)
| Raise (e : exn).

Arguments Ok {A} a.
Arguments Raise {A} e.

Definition bind {A B : Type} (r : result A) (f : A -> result B) : result B :=
  match r with
  | Ok a => f a
  | Raise e => Raise e
  end.

Notation "x <- c1 ;; c2" := (bind c1 (fun x => c2))
  (at level 61, c1 at next level, right associativity).

(** Python's [a / b] on two [int]s: the correctly rounded quotient. *)
Definition py_truediv (a b : Z) : result float64 :=
  match b with
  | Z0 => Raise ZeroDivisionError
  | _ =>
      match a with
      | Z0 => Ok (S754_zero (b <? 0))
      | _ =>
          let q := fdiv (S754_finite (a <? 0) (Z.to_pos (Z.abs a)) 0)
                        (S754_finite (b <? 0) (Z.to_pos (Z.abs b)) 0) in
          if is_inf q then Raise OverflowError else Ok q
      end
  end.

(* ================================================================== *)
(** ** Strings *)

Definition char : Type := N.
Definition str : Type := list char.

Local Open Scope N_scope.

Definition newline : char := 10.
Definition asterisk : char := 42.
Definition hyphen : char := 45.
Definition slash : char := 47.
Definition vbar : char := 124.

(** The record marker: U+1F449 (pointing hand) followed by U+1F3FE (skin
    tone modifier). *)
Definition marker : str := [128073; 127998].

(** The code points for which [str.isspace] holds; [str.strip()] and the
    pattern class [\s] use the same set. *)
Definition whitespace : list char :=
  [9; 10; 11; 12; 13; 28; 29; 30; 31; 32; 133; 160; 5760;
   8192; 8193; 8194; 8195; 8196; 8197; 8198; 8199; 8200; 8201; 8202;
   8232; 8233; 8239; 8287; 12288].

Definition is_space (c : char) : bool := existsb (N.eqb c) whitespace.

(** The zero digit of every decimal-digit block of the Unicode database
    (category Nd, version 14); each block is ten consecutive code points
    in increasing digit value.  The pattern class [\d] and [int()] use it. *)
Definition decimal_zeros : list char :=
  [48; 1632; 1776; 1984; 2406; 2534; 2662; 2790; 2918; 3046; 3174; 3302;
   3430; 3558; 3664; 3792; 3872; 4160; 4240; 6112; 6160; 6470; 6608; 6784;
   6800; 6992; 7088; 7232; 7248; 42528; 43216; 43264; 43472; 43504; 43600;
   44016; 65296; 66720; 68912; 69734; 69872; 69942; 70096; 70384; 70736;
   70864; 71248; 71360; 71472; 71904; 72016; 72784; 73040; 73120; 92768;
   92864; 93008; 120782; 120792; 120802; 120812; 120822; 123200; 123632;
   125264; 130032].

Definition digit_value (c : char) : option Z :=
  match find (fun z => (z <=? c) && (c <? z + 10)) decimal_zeros with
  | Some z => Some (Z.of_N (c - z))
  | None => None
  end.

Definition is_digit (c : char) : bool :=
  match digit_value c with Some _ => true | None => false end.

(** The value of a run of decimal digits. *)
Definition int_of_digits (s : str) : Z :=
  fold_left (fun v c => match digit_value c with
                        | Some d => (10 * v + d)%Z
                        | None => v
                        end) s 0%Z.

(** The interpreter's default limit on the digits of a string that [int]
    converts ([sys.get_int_max_str_digits()]). *)
Definition int_max_str_digits : N := 4300.

(** [int(s)] on a non-empty run of decimal digits: a run longer than the
    limit raises [ValueError]. *)
Definition py_int (s : str) : result Z :=
  if int_max_str_digits <? N.of_nat (length s) then Raise ValueError
  else Ok (int_of_digits s).

Fixpoint lstrip (p : char -> bool) (s : str) : str :=
  match s with
  | c :: s' => if p c then lstrip p s' else s
  | [] => []
  end.

Definition rstrip (p : char -> bool) (s : str) : str :=
  rev (lstrip p (rev s)).

(** [s.strip()] is [strip is_space s]; [s.strip('*')] is
    [strip (N.eqb asterisk) s]. *)
Definition strip (p : char -> bool) (s : str) : str :=
  rstrip p (lstrip p s).

Fixpoint startswith (prefix s : str) : bool :=
  match prefix, s with
  | [], _ => true
  | a :: prefix', c :: s' => (a =? c) && startswith prefix' s'
  | _ :: _, [] => false
  end.

Definition endswith (suffix s : str) : bool :=
  startswith (rev suffix) (rev s).

(** [data.split('\n')]. *)
Fixpoint split_lines (s : str) : list str :=
  match s with
  | [] => [[]]
  | c :: s' =>
      if c =? newline then [] :: split_lines s'
      else match split_lines s' with
           | l :: ls => (c :: l) :: ls
           | [] => [[c]]
           end
  end.

(** [line.replace(marker, '')]: every occurrence, left to right. *)
Fixpoint remove_marker (s : str) : str :=
  match s with
  | a :: t =>
      match t with
      | b :: s' =>
          if (a =? 128073) && (b =? 127998) then remove_marker s'
          else a :: remove_marker t
      | [] => s
      end
  | [] => []
  end.

(** [c in s]. *)
Definition contains (c : char) (s : str) : bool := existsb (N.eqb c) s.

(** Truth value of a string, and of [None] or a string. *)
Definition nonempty (s : str) : bool :=
  match s with [] => false | _ :: _ => true end.

Definition truthy (o : option str) : bool :=
  match o with Some s => nonempty s | None => false end.

(* ================================================================== *)
(** ** The record pattern

    [^(.+?)\s*-\s*(\d+)\s*[/|]\s*(\d+)$], matched the way a backtracking
    engine does: every quantifier hands what it consumed and the rest of the
    input to its continuation, and tries its next choice when the
    continuation fails. *)

Section Matcher.
Context {R : Type}.

(** Greedy [p*]: longest run first. *)
Fixpoint star_greedy (p : char -> bool) (s acc : str)
         (k : str -> str -> option R) : option R :=
  match s with
  | c :: s' =>
      if p c then
        match star_greedy p s' (acc ++ [c]) k with
        | Some r => Some r
        | None => k acc s
        end
      else k acc s
  | [] => k acc []
  end.

(** Greedy [p+]. *)
Definition plus_greedy (p : char -> bool) (s : str)
           (k : str -> str -> option R) : option R :=
  match s with
  | c :: s' => if p c then star_greedy p s' [c] k else None
  | [] => None
  end.

(** Lazy [p*?]: shortest run first. *)
Fixpoint star_lazy (p : char -> bool) (s acc : str)
         (k : str -> str -> option R) : option R :=
  match k acc s with
  | Some r => Some r
  | None =>
      match s with
      | c :: s' => if p c then star_lazy p s' (acc ++ [c]) k else None
      | [] => None
      end
  end.

(** Lazy [p+?]. *)
Definition plus_lazy (p : char -> bool) (s : str)
           (k : str -> str -> option R) : option R :=
  match s with
  | c :: s' => if p c then star_lazy p s' [c] k else None
  | [] => None
  end.

(** One character of a class. *)
Definition one (p : char -> bool) (s : str) (k : str -> option R)
  : option R :=
  match s with
  | c :: s' => if p c then k s' else None
  | [] => None
  end.

(** [$]: the end of the input, or just before a final newline. *)
Definition at_end (s : str) (r : R) : option R :=
  match s with
  | [] => Some r
  | [c] => if c =? newline then Some r else None
  | _ => None
  end.
End Matcher.

(** [.] matches everything but a newline. *)
Definition dot (c : char) : bool := negb (c =? newline).

Definition separator (c : char) : bool := (c =? slash) || (c =? vbar).

(** [re.search(pattern, line)]: the three groups, or [None].  The pattern is
    anchored by [^], so only a match at the first position exists. *)
Definition search_pattern (line : str) : option (str * str * str) :=
  plus_lazy dot line (fun g1 r1 =>
  star_greedy is_space r1 [] (fun _ r2 =>
  one (N.eqb hyphen) r2 (fun r3 =>
  star_greedy is_space r3 [] (fun _ r4 =>
  plus_greedy is_digit r4 (fun g2 r5 =>
  star_greedy is_space r5 [] (fun _ r6 =>
  one separator r6 (fun r7 =>
  star_greedy is_space r7 [] (fun _ r8 =>
  plus_greedy is_digit r8 (fun g3 r9 =>
  at_end r9 (g1, g2, g3)))))))))).

Local Close Scope N_scope.

(* ================================================================== *)
(** ** The parser *)

(** One dictionary of [parsed_data]. *)
Record AttendanceRecord : Type := mkRecord {
  Constituency : str;
  Branch : str;
  Pastor : str;
  Attendance : Z;
  Target : Z;
  Attendance_rate : float64;
  Month : str;
  Week : str;
  Year : str
}.

(** [round((attendance / expected_attendance) * 100, 2)]. *)
Definition attendance_rate (attendance expected_attendance : Z)
  : result float64 :=
  q <- py_truediv attendance expected_attendance ;;
  Ok (py_round2 (fmul q (of_Z 100))).

Definition parse_branch_line (line constituency pastor month week year : str)
  : result (option AttendanceRecord) :=
  let line := strip is_space (remove_marker line) in
  match search_pattern line with
  | Some (g1, g2, g3) =>
      let branch_name := strip is_space g1 in
      attendance <- py_int g2 ;;
      expected_attendance <- py_int g3 ;;
      rate <- attendance_rate attendance expected_attendance ;;
      Ok (Some (mkRecord constituency branch_name pastor attendance
                         expected_attendance rate month week year))
  | None => Ok None
  end.

(** The lines the loop visits: split at newlines, stripped, blanks removed. *)
Definition clean_lines (data : str) : list str :=
  filter nonempty (map (strip is_space) (split_lines data)).

Definition is_header (line : str) : bool :=
  startswith [asterisk] line && endswith [asterisk] line.

(** The state the [for] loop carries: [current_constituency] and
    [parsed_data]. *)
Definition scan_state : Type := (option str * list AttendanceRecord)%type.

(** One iteration of the loop of [parse_attendance_data]. *)
Definition step (pastor month week year : str) (st : scan_state)
           (line : str) : result scan_state :=
  let '(current_constituency, parsed_data) := st in
  if is_header line then
    Ok (Some (strip (N.eqb asterisk) line), parsed_data)
  else if startswith marker line && truthy current_constituency then
    match current_constituency with
    | Some constituency =>
        branch_data <- parse_branch_line line constituency pastor
                                         month week year ;;
        match branch_data with
        | Some r => Ok (current_constituency, parsed_data ++ [r])
        | None => Ok st
        end
    | None => Ok st
    end
  else Ok st.

(** The loop: the lines in order, stopping at the first exception. *)
Fixpoint scan (pastor month week year : str) (lines : list str)
         (st : scan_state) : result scan_state :=
  match lines with
  | [] => Ok st
  | line :: rest =>
      st' <- step pastor month week year st line ;;
      scan pastor month week year rest st'
  end.

Definition parse_attendance_data (data pastor month week year : str)
  : result (list AttendanceRecord) :=
  st <- scan pastor month week year (clean_lines data) (None, []) ;;
  Ok (snd st).

(* ================================================================== *)
(** ** Ordering and equality of strings *)

Fixpoint str_eqb (a b : str) : bool :=
  match a, b with
  | [], [] => true
  | x :: a', y :: b' => N.eqb x y && str_eqb a' b'
  | _, _ => false
  end.

(** Python compares strings code point by code point. *)
Fixpoint str_ltb (a b : str) : bool :=
  match a, b with
  | _, [] => false
  | [], _ :: _ => true
  | x :: a', y :: b' => N.ltb x y || (N.eqb x y && str_ltb a' b')
  end.

(* ================================================================== *)
(** ** Sorting and grouping *)

Section StableSort.
Context {A : Type}.

(** [before y x] holds when [y] has to come strictly before [x]. *)
Variable before : A -> A -> bool.

Fixpoint insert_sorted (x : A) (l : list A) : list A :=
  match l with
  | [] => [x]
  | y :: l' => if before y x then y :: insert_sorted x l' else x :: l
  end.

(** A stable sort: elements neither of which comes before the other keep
    their incoming order. *)
Definition stable_sort (l : list A) : list A :=
  fold_right insert_sorted [] l.

(** [a] may stand before [b]: [b] does not have to come first. *)
Definition may_precede (a b : A) : Prop := before b a = false.
End StableSort.

Section GroupBy.
Context {K A : Type}.
Variable key_eqb : K -> K -> bool.
Variable key_ltb : K -> K -> bool.

Fixpoint add_to_group (k : K) (a : A) (gs : list (K * list A))
  : list (K * list A) :=
  match gs with
  | [] => [(k, [a])]
  | (k', g) :: gs' =>
      if key_eqb k k' then (k', g ++ [a]) :: gs'
      else (k', g) :: add_to_group k a gs'
  end.

(** Groups in order of first appearance, each with its rows in table
    order; a row whose key has a missing component belongs to no group. *)
Definition collect (key : A -> option K) (rows : list A)
  : list (K * list A) :=
  fold_left (fun gs r => match key r with
                         | Some k => add_to_group k r gs
                         | None => gs
                         end) rows [].

(** [DataFrame.groupby(keys)]: the groups, sorted by key. *)
Definition groupby (key : A -> option K) (rows : list A)
  : list (K * list A) :=
  stable_sort (fun g h => key_ltb (fst g) (fst h)) (collect key rows).
End GroupBy.

(** Distinct values in order of first appearance. *)
Fixpoint unique (l : list str) : list str :=
  match l with
  | [] => []
  | x :: l' => x :: filter (fun y => negb (str_eqb x y)) (unique l')
  end.

(** [Series.nunique()] over the cells that are not blank. *)
Definition nunique (l : list str) : nat := length (unique l).

Fixpoint present {A : Type} (l : list (option A)) : list A :=
  match l with
  | [] => []
  | Some a :: l' => a :: present l'
  | None :: l' => present l'
  end.

Definition sum_Z (l : list Z) : Z := fold_left Z.add l 0.

(** The maximum of the cells that are not blank; blank when all are. *)
Definition max_Z (l : list Z) : option Z :=
  match l with
  | [] => None
  | x :: l' => Some (fold_left Z.max l' x)
  end.

(** A numeric cell as a float64: a blank cell is NaN. *)
Definition cell (o : option Z) : float64 :=
  match o with
  | Some z => of_Z z
  | None => nan
  end.

(* ================================================================== *)
(** ** The analysis: [calculate_monthly_attendance_averages] *)

(** A row of the input sheet; [None] is a blank cell. *)
Record Row : Type := mkRow {
  row_Year : option str;
  row_Month : option str;
  row_Constituency : option str;
  row_Branch : option str;
  row_Attendance : option Z;
  row_Target : option Z;
  row_Week : option str
}.

Definition isna {A : Type} (o : option A) : bool :=
  match o with Some _ => false | None => true end.

(** [df.dropna(subset=...)]: the rows with no blank cell in the columns of
    [subset], in table order. *)
Definition dropna (subset : list (Row -> bool)) (df : list Row) : list Row :=
  filter (fun r => forallb (fun blank => negb (blank r)) subset) df.

(** The cleaning step at line 28, as a function of the sheet.  The
    function runs its opening summary before it: see
    [calculate_monthly_attendance_averages]. *)
Definition df_clean (df : list Row) : list Row :=
  dropna [ (fun r => isna (row_Constituency r));
           (fun r => isna (row_Branch r));
           (fun r => isna (row_Attendance r)) ] df.

(** *** Monthly averages by branch *)

Definition branch_key_t : Type := (str * str * str * str)%type.

Definition branch_key (r : Row) : option branch_key_t :=
  match row_Year r, row_Month r, row_Constituency r, row_Branch r with
  | Some y, Some m, Some c, Some b => Some (y, m, c, b)
  | _, _, _, _ => None
  end.

Definition branch_key_eqb (a b : branch_key_t) : bool :=
  let '(y1, m1, c1, b1) := a in
  let '(y2, m2, c2, b2) := b in
  str_eqb y1 y2 && str_eqb m1 m2 && str_eqb c1 c2 && str_eqb b1 b2.

Definition lex (lt1 : bool) (eq1 : bool) (rest : bool) : bool :=
  lt1 || (eq1 && rest).

Definition branch_key_ltb (a b : branch_key_t) : bool :=
  let '(y1, m1, c1, b1) := a in
  let '(y2, m2, c2, b2) := b in
  lex (str_ltb y1 y2) (str_eqb y1 y2)
    (lex (str_ltb m1 m2) (str_eqb m1 m2)
       (lex (str_ltb c1 c2) (str_eqb c1 c2) (str_ltb b1 b2))).

(** ['mean'] of a column of a group. *)
Definition mean (l : list Z) : float64 :=
  fdiv (of_Z (sum_Z l)) (of_Z (Z.of_nat (length l))).

(** [avg / target * 100], rounded to two decimals. *)
Definition rate_of (avg target : float64) : float64 :=
  np_round2 (fmul (fdiv avg target) (of_Z 100)).

(** A row of [branch_monthly]. *)
Record BranchMonthly : Type := mkBranchMonthly {
  bm_Year : str;
  bm_Month : str;
  bm_Constituency : str;
  bm_Branch : str;
  bm_Monthly_Attendance_Avg : float64;
  bm_Target : option Z;
  bm_Attendance_Rate : float64
}.

(** The aggregation of one group: ['mean'] of the attendances and ['max']
    of the targets, then [.round(2)], which changes the mean only (the
    target is an integer), then the rate. *)
Definition branch_row (kg : branch_key_t * list Row) : BranchMonthly :=
  let '((y, m, c, b), g) := kg in
  let avg := np_round2 (mean (present (map row_Attendance g))) in
  let target := max_Z (present (map row_Target g)) in
  mkBranchMonthly y m c b avg target (rate_of avg (cell target)).

(** The branch rollup as a function of the sheet: what the function
    computes once the opening summary has passed. *)
Definition branch_monthly (df : list Row) : list BranchMonthly :=
  map branch_row
      (groupby branch_key_eqb branch_key_ltb branch_key (df_clean df)).

(** *** Monthly averages by constituency *)

Definition constituency_key_t : Type := (str * str * str)%type.

Definition constituency_key (r : Row) : option constituency_key_t :=
  match row_Year r, row_Month r, row_Constituency r with
  | Some y, Some m, Some c => Some (y, m, c)
  | _, _, _ => None
  end.

Definition constituency_key_eqb (a b : constituency_key_t) : bool :=
  let '(y1, m1, c1) := a in
  let '(y2, m2, c2) := b in
  str_eqb y1 y2 && str_eqb m1 m2 && str_eqb c1 c2.

Definition constituency_key_ltb (a b : constituency_key_t) : bool :=
  let '(y1, m1, c1) := a in
  let '(y2, m2, c2) := b in
  lex (str_ltb y1 y2) (str_eqb y1 y2)
    (lex (str_ltb m1 m2) (str_eqb m1 m2) (str_ltb c1 c2)).

(** The aggregated columns of a group, before the derived ones are added:
    ['nunique'] of the weeks, ['sum'] of the attendances, ['nunique'] of the
    branches, ['sum'] of the targets.  All four are integers, which
    [.round(2)] leaves as they are. *)
Record ConstituencyAgg : Type := mkConstituencyAgg {
  Reports_Count : nat;
  Total_Attendance : Z;
  Unique_Branches : nat;
  Total_Target : Z
}.

Definition constituency_agg (g : list Row) : ConstituencyAgg :=
  mkConstituencyAgg
    (nunique (present (map row_Week g)))
    (sum_Z (present (map row_Attendance g)))
    (nunique (present (map row_Branch g)))
    (sum_Z (present (map row_Target g))).

(** A row of [constituency_monthly], after the three helper columns are
    dropped. *)
Record ConstituencyMonthly : Type := mkConstituencyMonthly {
  cm_Year : str;
  cm_Month : str;
  cm_Constituency : str;
  cm_Unique_Branches : nat;
  cm_Monthly_Attendance_Avg : float64;
  cm_Target : float64;
  cm_Attendance_Rate : float64
}.

Definition constituency_avg (a : ConstituencyAgg) : float64 :=
  np_round2 (fdiv (of_Z (Total_Attendance a))
                  (of_Z (Z.of_nat (Reports_Count a)))).

Definition constituency_target (a : ConstituencyAgg) : float64 :=
  np_round0 (fdiv (of_Z (Total_Target a))
                  (of_Z (Z.of_nat (Reports_Count a)))).

Definition constituency_row (kg : constituency_key_t * list Row)
  : ConstituencyMonthly :=
  let '((y, m, c), g) := kg in
  let a := constituency_agg g in
  let avg := constituency_avg a in
  let target := constituency_target a in
  mkConstituencyMonthly y m c (Unique_Branches a) avg target
                        (rate_of avg target).

(** The constituency rollup as a function of the sheet: what the
    function computes once the opening summary has passed. *)
Definition constituency_monthly (df : list Row) : list ConstituencyMonthly :=
  map constituency_row
      (groupby constituency_key_eqb constituency_key_ltb constituency_key
               (df_clean df)).

(** *** Top and low performers *)

Definition avg_isnan (r : BranchMonthly) : bool :=
  is_nan (bm_Monthly_Attendance_Avg r).

(** [r] ranks strictly above [q] when its average is strictly larger. *)
Definition above (r q : BranchMonthly) : bool :=
  fltb (bm_Monthly_Attendance_Avg q) (bm_Monthly_Attendance_Avg r).

Definition below (r q : BranchMonthly) : bool :=
  fltb (bm_Monthly_Attendance_Avg r) (bm_Monthly_Attendance_Avg q).

(** The rows by descending average: equal averages stay in table order,
    rows without an average (NaN) go last.  This is the order of
    [sort_values(ascending=False)] with a stable sort. *)
Definition by_avg_descending (rows : list BranchMonthly)
  : list BranchMonthly :=
  stable_sort above (filter (fun r => negb (avg_isnan r)) rows)
  ++ filter avg_isnan rows.

Definition by_avg_ascending (rows : list BranchMonthly)
  : list BranchMonthly :=
  stable_sort below (filter (fun r => negb (avg_isnan r)) rows)
  ++ filter avg_isnan rows.

(** [DataFrame.nlargest(n, 'Monthly_Attendance_Avg')] with the default
    [keep='first']: the first [n] rows by descending average. *)
Definition nlargest (n : nat) (rows : list BranchMonthly)
  : list BranchMonthly := firstn n (by_avg_descending rows).

(** [DataFrame.nsmallest(n, 'Monthly_Attendance_Avg')]. *)
Definition nsmallest (n : nat) (rows : list BranchMonthly)
  : list BranchMonthly := firstn n (by_avg_ascending rows).

(** The columns kept in the two performer tables. *)
Record Performer : Type := mkPerformer {
  pf_Year : str;
  pf_Month : str;
  pf_Constituency : str;
  pf_Branch : str;
  pf_Monthly_Attendance_Avg : float64;
  pf_Attendance_Rate : float64
}.

Definition performer (r : BranchMonthly) : Performer :=
  mkPerformer (bm_Year r) (bm_Month r) (bm_Constituency r) (bm_Branch r)
              (bm_Monthly_Attendance_Avg r) (bm_Attendance_Rate r).

(** [bm.groupby('Month').apply(select).reset_index(drop=True)[columns]]:
    the selection of every month, months in sorted order. *)
Definition per_month (select : list BranchMonthly -> list BranchMonthly)
           (bm : list BranchMonthly) : list Performer :=
  map performer
      (flat_map (fun kg => select (snd kg))
                (groupby str_eqb str_ltb (fun r => Some (bm_Month r)) bm)).

Definition top_performers (n : nat) (bm : list BranchMonthly)
  : list Performer := per_month (nlargest n) bm.

Definition low_performers (n : nat) (bm : list BranchMonthly)
  : list Performer := per_month (nsmallest n) bm.

(** The program selects five rows a month. *)
Definition top_performing_branches (bm : list BranchMonthly)
  : list Performer := top_performers 5 bm.

Definition low_performing_branches (bm : list BranchMonthly)
  : list Performer := low_performers 5 bm.

(** The rows of a performer table that belong to one month. *)
Definition month_block (m : str) (t : list Performer) : list Performer :=
  filter (fun p => str_eqb (pf_Month p) m) t.

(* ================================================================== *)
(** ** Predicates of the statements *)

(** The rows of a table that belong to the group of key [k]. *)
Definition in_group {K A : Type} (key_eqb : K -> K -> bool)
           (key : A -> option K) (k : K) (r : A) : bool :=
  match key r with
  | Some k' => key_eqb k' k
  | None => false
  end.

Definition bm_key (row : BranchMonthly) : branch_key_t :=
  (bm_Year row, bm_Month row, bm_Constituency row, bm_Branch row).

Definition cm_key (row : ConstituencyMonthly) : constituency_key_t :=
  (cm_Year row, cm_Month row, cm_Constituency row).

(** The rows of a month. *)
Definition of_month (m : str) (r : BranchMonthly) : bool :=
  str_eqb (bm_Month r) m.

(** The average a row is ranked by. *)
Definition avg (r : BranchMonthly) : float64 := bm_Monthly_Attendance_Avg r.

(** Rows whose averages are equal as numbers. *)
Definition tied (v : float64) (r : BranchMonthly) : bool := feqb (avg r) v.

(** No two rows have equal or incomparable averages. *)
Fixpoint distinct_avgs (l : list BranchMonthly) : bool :=
  match l with
  | [] => true
  | a :: l' => forallb (fun b => above a b || below a b) l'
               && distinct_avgs l'
  end.

(** IEEE-754 division of [x] by a zero of sign [s]. *)
Definition quotient_by_zero (x : float64) (s : bool) : float64 :=
  match x with
  | S754_zero _ | S754_nan => nan
  | S754_infinity sx | S754_finite sx _ _ => S754_infinity (xorb sx s)
  end.

(** The position of a float that is not NaN in the order of the reals:
    class (negative infinity, negative, zero, positive, positive infinity),
    then exponent, then mantissa. *)
Definition order_key (x : float64) : Z * Z * Z :=
  match x with
  | S754_nan => (0, 0, 0)
  | S754_zero _ => (0, 0, 0)
  | S754_infinity true => (-2, 0, 0)
  | S754_infinity false => (2, 0, 0)
  | S754_finite true m e => (-1, - e, - Zpos m)
  | S754_finite false m e => (1, e, Zpos m)
  end.

(** The lexicographic order of the keys. *)
Definition key_lt (a b : Z * Z * Z) : Prop :=
  let '(a1, a2, a3) := a in
  let '(b1, b2, b3) := b in
  a1 < b1 \/ (a1 = b1 /\ (a2 < b2 \/ (a2 = b2 /\ a3 < b3))).

(** A record carries the rate of its own counts, and its target is
    positive. *)
Definition rate_ok (r : AttendanceRecord) : Prop :=
  0 < Target r /\
  exists q, py_truediv (Attendance r) (Target r) = Ok q /\
            Attendance_rate r = py_round2 (fmul q (of_Z 100)).

(** [r] is what is left of [s] after some prefix. *)
Definition suffix (r s : str) : Prop := exists pre, s = pre ++ r.

(** A record line the pattern cannot match: it has no separator, or no
    hyphen, or the pattern fails on it for another reason (a field that is
    not a number, text after the target). *)
Definition malformed (line : str) : Prop :=
  forallb (fun c => negb (separator c)) line = true \/
  forallb (fun c => negb (N.eqb hyphen c)) line = true \/
  search_pattern (strip is_space (remove_marker (strip is_space line)))
  = None.

(* ================================================================== *)
(** ** Literals *)

(** The code points of an ASCII string literal. *)
Definition of_string (s : String.string) : str :=
  map Ascii.N_of_ascii (String.list_ascii_of_string s).

Arguments of_string s%_string_scope.

(* ================================================================== *)
(** ** Sample inputs *)

Definition nl : str := [newline].

(** The rows of the example of the branch rollup: one branch, three weeks. *)
Definition three_weeks : list Row :=
  [ mkRow (Some (of_string "2025")) (Some (of_string "July"))
          (Some (of_string "North")) (Some (of_string "B1"))
          (Some 4) (Some 10) (Some (of_string "1"));
    mkRow (Some (of_string "2025")) (Some (of_string "July"))
          (Some (of_string "North")) (Some (of_string "B1"))
          (Some 6) (Some 10) (Some (of_string "2"));
    mkRow (Some (of_string "2025")) (Some (of_string "July"))
          (Some (of_string "North")) (Some (of_string "B1"))
          (Some 8) (Some 12) (Some (of_string "3")) ].

(** Two branches of one constituency, one report each, in the weeks given. *)
Definition two_branches (week1 week2 : str) : list Row :=
  [ mkRow (Some (of_string "2025")) (Some (of_string "July"))
          (Some (of_string "North")) (Some (of_string "B1"))
          (Some 4) (Some 10) (Some week1);
    mkRow (Some (of_string "2025")) (Some (of_string "July"))
          (Some (of_string "North")) (Some (of_string "B2"))
          (Some 6) (Some 12) (Some week2) ].

(** One report of a branch of constituency North in July 2025, week 1. *)
Definition report (branch : str) (attendance target : Z) : Row :=
  mkRow (Some (of_string "2025")) (Some (of_string "July"))
        (Some (of_string "North")) (Some branch)
        (Some attendance) (Some target) (Some (of_string "1")).

(** Six branches with the attendances given, each with a target of 10. *)
Definition six_branches (a1 a2 a3 a4 a5 a6 : Z) : list Row :=
  [ report (of_string "B1") a1 10; report (of_string "B2") a2 10;
    report (of_string "B3") a3 10; report (of_string "B4") a4 10;
    report (of_string "B5") a5 10; report (of_string "B6") a6 10 ].

(** The branch rollup of six branches with the same attendance, and of six
    with different ones. *)
Definition six_tied : list BranchMonthly :=
  branch_monthly (six_branches 5 5 5 5 5 5).

Definition six_distinct : list BranchMonthly :=
  branch_monthly (six_branches 3 1 6 2 5 4).

(** Two branches reporting in the same week, and in two weeks. *)
Definition same_week : list Row :=
  two_branches (of_string "1") (of_string "1").

Definition two_weeks : list Row :=
  two_branches (of_string "1") (of_string "2").

(** One report of 5 with a target of 0. *)
Definition zero_target : list Row := [report (of_string "B1") 5 0].


(* ================================================================== *)
(** ** Predicates of the further statements *)

(** *** The parser *)

(** [line] reads [g1 w1 - w2 g2 w3 sep w4 g3], with an optional final
    newline: a name, two runs of digits, white space around the hyphen and
    the separator. *)
Definition record_shape (line g1 g2 g3 : str) : Prop :=
  exists w1 w2 w3 w4 c tail,
    line = g1 ++ w1 ++ [hyphen] ++ w2 ++ g2 ++ w3 ++ [c] ++ w4 ++ g3 ++ tail /\
    g1 <> [] /\ Forall (fun x => dot x = true) g1 /\
    Forall (fun x => is_space x = true) w1 /\
    Forall (fun x => is_space x = true) w2 /\
    g2 <> [] /\ Forall (fun x => is_digit x = true) g2 /\
    Forall (fun x => is_space x = true) w3 /\
    separator c = true /\
    Forall (fun x => is_space x = true) w4 /\
    g3 <> [] /\ Forall (fun x => is_digit x = true) g3 /\
    (tail = [] \/ tail = [newline]).

(** The names of the header lines of a text. *)
Definition header_names (data : str) : list str :=
  map (strip (N.eqb asterisk)) (filter is_header (clean_lines data)).

(** What every record of a parse satisfies. *)
Definition well_formed_record (pastor month week year : str)
           (names : list str) (r : AttendanceRecord) : Prop :=
  Pastor r = pastor /\ Month r = month /\ Week r = week /\ Year r = year /\
  In (Constituency r) names /\ Constituency r <> [] /\
  Branch r <> [] /\ strip is_space (Branch r) = Branch r /\
  0 <= Attendance r.

(** The lines that start with the marker. *)
Definition record_lines (data : str) : list str :=
  filter (startswith marker) (clean_lines data).

(** What the loop keeps: the current constituency is one of the names, and
    the records so far are well formed. *)
Definition fields_inv (pastor month week year : str) (names : list str)
           (st : scan_state) : Prop :=
  (forall c, fst st = Some c -> In c names) /\
  Forall (well_formed_record pastor month week year names) (snd st).

(** The first line of a text, when it has one, is a header. *)
Definition starts_with_header (data : str) : bool :=
  match clean_lines data with
  | l :: _ => is_header l
  | [] => true
  end.

(** *** The rollups *)

(** The row has a year and a month. *)
Definition has_period (r : Row) : bool :=
  negb (isna (row_Year r)) && negb (isna (row_Month r)).

(** The row has a key. *)
Definition has_key {K A : Type} (key : A -> option K) (r : A) : bool :=
  match key r with Some _ => true | None => false end.

(** The key of the constituency rollup a branch row falls under. *)
Definition bm_constituency_key (b : BranchMonthly) : constituency_key_t :=
  (bm_Year b, bm_Month b, bm_Constituency b).

(** The rows of the branch rollup under a row of the constituency rollup. *)
Definition branches_under (c : ConstituencyMonthly) (bm : list BranchMonthly)
  : list BranchMonthly :=
  filter (fun b => constituency_key_eqb (bm_constituency_key b) (cm_key c)) bm.

(** ** Outcomes of the code around the parser and the rollups *)

(** What such code can raise: the exceptions of the parser, and four more
    of the interpreter and its libraries. *)
Inductive failure : Type :=
| KeyError
| TypeError
| IndexError
| AttributeError
| Raised (e : exn).

Inductive outcome (A : Type) : Type :=
| Returns (a : A)
| Fails (e : failure).

Arguments Returns {A} a.

Arguments Fails {A} e.

Definition and_then {A B : Type} (c : outcome A) (f : A -> outcome B)
  : outcome B :=
  match c with
  | Returns a => f a
  | Fails e => Fails e
  end.

Notation "x <~ c1 ;; c2" := (and_then c1 (fun x => c2))
  (at level 61, c1 at next level, right associativity).

(** A loop whose body can raise: the results in order, or the first
    exception. *)
Fixpoint each {A B : Type} (body : A -> outcome B) (l : list A)
  : outcome (list B) :=
  match l with
  | [] => Returns []
  | x :: l' =>
      y <~ body x ;;
      ys <~ each body l' ;;
      Returns (y :: ys)
  end.

(** ** The listings of the opening summary *)

(** Equality of the cells of a text column. *)
Definition cell_eqb (a b : option str) : bool :=
  match a, b with
  | Some x, Some y => str_eqb x y
  | None, None => true
  | _, _ => false
  end.

(** [Series.unique()]: the distinct cells in order of first appearance; the
    blank cells count as one value, NaN, which is kept. *)
Fixpoint unique_cells (l : list (option str)) : list (option str) :=
  match l with
  | [] => []
  | x :: l' => x :: filter (fun y => negb (cell_eqb x y)) (unique_cells l')
  end.

(** [a < b] on the values of a text column: between two texts the order of
    strings, between NaN and NaN false.  Between a text and NaN the
    interpreter raises; [py_sorted] never asks for it. *)
Definition cell_ltb (a b : option str) : bool :=
  match a, b with
  | Some x, Some y => str_ltb x y
  | _, _ => false
  end.

(** The list holds a NaN and a text. *)
Definition mixed (l : list (option str)) : bool :=
  existsb isna l && existsb (fun c => negb (isna c)) l.

(** [sorted(l)] on texts and NaN: sorting has to compare every element with
    another one, and [str < float] raises TypeError. *)
Definition py_sorted (l : list (option str)) : outcome (list (option str)) :=
  if mixed l then Fails TypeError else Returns (stable_sort cell_ltb l).

(** [sorted(df[col].unique())]. *)
Definition listing (col : Row -> option str) (df : list Row)
  : outcome (list (option str)) :=
  py_sorted (unique_cells (map col df)).

Definition months_listing : list Row -> outcome (list (option str)) :=
  listing row_Month.

Definition constituencies_listing
  : list Row -> outcome (list (option str)) :=
  listing row_Constituency.

(** A sheet with a report whose month is blank. *)
Definition blank_month : list Row :=
  [ report (of_string "B1") 4 10;
    mkRow (Some (of_string "2025")) None (Some (of_string "North"))
          (Some (of_string "B2")) (Some 6) (Some 12)
          (Some (of_string "1")) ].

(** ** The whole analysis: [calculate_monthly_attendance_averages] *)

(** The first of the texts in the order given; blank for no text. *)
Definition extreme (before : str -> str -> bool) (l : list str)
  : option str :=
  match l with
  | [] => None
  | x :: l' => Some (fold_left (fun m y => if before y m then y else m) l' x)
  end.

(** [df['Year'].min()] and [df['Year'].max()]: pandas skips the blank
    cells by putting an infinity in their place, and in a column of texts
    the comparison of a text with it raises TypeError. *)
Definition date_range (df : list Row) : outcome (option str * option str) :=
  let years := map row_Year df in
  if mixed years then Fails TypeError
  else Returns (extreme str_ltb (present years),
                extreme (fun a b => str_ltb b a) (present years)).

(** What the function hands to the writer, sheet by sheet. *)
Record Results : Type := mkResults {
  Constituency_Monthly : list ConstituencyMonthly;
  Branch_Monthly : list BranchMonthly;
  Top_Performers : list Performer;
  Low_Performers : list Performer;
  Original_Data : list Row
}.

(** The function on the sheet it has read: the opening summary (the range
    of the years, the listings of the months and of the constituencies,
    the count of the branches), then the cleaning, the two rollups and the
    two performer tables. *)
Definition calculate_monthly_attendance_averages (df : list Row)
  : outcome Results :=
  years <~ date_range df ;;
  months <~ months_listing df ;;
  constituencies <~ constituencies_listing df ;;
  let total_branches := nunique (present (map row_Branch df)) in
  let bm := branch_monthly df in
  Returns (mkResults (constituency_monthly df) bm
                     (top_performing_branches bm)
                     (low_performing_branches bm)
                     (df_clean df)).

(** The column has a blank cell and a cell with a text. *)
Definition blank_beside_text (col : Row -> option str) (df : list Row)
  : Prop :=
  In None (map col df) /\ exists s, In (Some s) (map col df).

(** A sheet of two reports, the second without a constituency. *)
Definition blank_constituency : list Row :=
  [ report (of_string "B1") 4 10;
    mkRow (Some (of_string "2025")) (Some (of_string "July")) None
          (Some (of_string "B2")) (Some 6) (Some 12)
          (Some (of_string "1")) ].


(** ** The summary of one report: [analyze_attendance_data] and [main] *)

Module Summary.

(** A row of ['constituency_summary']. *)
Record ConstituencySummary : Type := mkConstituencySummary {
  cs_Constituency : str;
  cs_Attendance : Z;
  cs_Target : Z;
  cs_Branch_count : nat
}.

(** A row of the two tables of branches. *)
Record RankedBranch : Type := mkRankedBranch {
  rb_Branch : str;
  rb_Constituency : str;
  rb_Attendance_rate : float64
}.

(** An entry of ['constituency_rates']. *)
Record ConstituencyRate : Type := mkConstituencyRate {
  cr_Constituency : str;
  cr_Attendance_rate : float64
}.

(** The dictionary [analysis] with its eight keys. *)
Record Analysis : Type := mkAnalysis {
  total_branches : nat;
  total_attendance : Z;
  total_expected : Z;
  overall_attendance_rate : float64;
  constituency_summary : list ConstituencySummary;
  top_performing_branches : list RankedBranch;
  lowest_performing_branches : list RankedBranch;
  constituency_rates : list ConstituencyRate
}.

(** [round((attendance / target) * 100, 2)] on two sums of a column: the
    sums are NumPy integers, their quotient is a float64 and dividing by
    zero raises nothing; [round] is the scalar's own, NumPy's. *)
Definition percentage (attendance target : Z) : float64 :=
  rate_of (of_Z attendance) (of_Z target).

(** [df.groupby('Constituency').agg({'Attendance': 'sum', 'Target': 'sum',
    'Branch': 'count'})]: every record has a constituency and a branch. *)
Definition summary_row (kg : str * list AttendanceRecord)
  : ConstituencySummary :=
  let '(c, g) := kg in
  mkConstituencySummary c (sum_Z (map Attendance g)) (sum_Z (map Target g))
                        (length g).

Definition summarize (df : list AttendanceRecord)
  : list ConstituencySummary :=
  map summary_row
      (groupby str_eqb str_ltb (fun r => Some (Constituency r)) df).

Definition rate_isnan (r : AttendanceRecord) : bool :=
  is_nan (Attendance_rate r).

(** The records by descending and by ascending rate, as [nlargest] and
    [nsmallest] order them: equal rates in table order, NaN last. *)
Definition by_rate_descending (df : list AttendanceRecord)
  : list AttendanceRecord :=
  stable_sort (fun r q => fltb (Attendance_rate q) (Attendance_rate r))
              (filter (fun r => negb (rate_isnan r)) df)
  ++ filter rate_isnan df.

Definition by_rate_ascending (df : list AttendanceRecord)
  : list AttendanceRecord :=
  stable_sort (fun r q => fltb (Attendance_rate r) (Attendance_rate q))
              (filter (fun r => negb (rate_isnan r)) df)
  ++ filter rate_isnan df.

Definition ranked (r : AttendanceRecord) : RankedBranch :=
  mkRankedBranch (Branch r) (Constituency r) (Attendance_rate r).

(** The body of the loop over [df['Constituency'].unique()]. *)
Definition rate_entry (df : list AttendanceRecord) (constituency : str)
  : ConstituencyRate :=
  let constituency_data :=
    filter (fun r => str_eqb (Constituency r) constituency) df in
  mkConstituencyRate constituency
    (percentage (sum_Z (map Attendance constituency_data))
                (sum_Z (map Target constituency_data))).

(** [e] has to come before [f]: its rate is strictly larger. *)
Definition higher (e f : ConstituencyRate) : bool :=
  fltb (cr_Attendance_rate f) (cr_Attendance_rate e).

(** [sorted(constituency_rates, key=..., reverse=True)]: Python's sort is
    stable, also in reverse; on rates none of which is NaN there is one
    such order. *)
Definition sorted_by_rate (l : list ConstituencyRate)
  : list ConstituencyRate := stable_sort higher l.

(** [None] is the empty dictionary returned for no record. *)
Definition analyze_attendance_data (parsed_data : list AttendanceRecord)
  : option Analysis :=
  match parsed_data with
  | [] => None
  | _ :: _ =>
      let df := parsed_data in
      Some (mkAnalysis
              (length df)
              (sum_Z (map Attendance df))
              (sum_Z (map Target df))
              (percentage (sum_Z (map Attendance df))
                          (sum_Z (map Target df)))
              (summarize df)
              (map ranked (firstn 5 (by_rate_descending df)))
              (map ranked (firstn 5 (by_rate_ascending df)))
              (sorted_by_rate
                 (map (rate_entry df) (unique (map Constituency df)))))
  end.

(** [main] up to the call of [to_excel]: the result is the rows it hands
    over for the sheet.  [analysis['total_branches']] on the empty
    dictionary raises KeyError. *)
Definition main (raw_data pastor month week year : str)
  : outcome (list AttendanceRecord) :=
  match parse_attendance_data raw_data pastor month week year with
  | Raise e => Fails (Raised e)
  | Ok parsed_data =>
      match analyze_attendance_data parsed_data with
      | None => Fails KeyError
      | Some _ => Returns parsed_data
      end
  end.

End Summary.

(** Two constituencies, three branches. *)
Definition two_constituencies : str :=
  of_string "*North*" ++ nl ++ marker ++ of_string "B1 - 5/10" ++ nl
  ++ marker ++ of_string "B2 - 9/10" ++ nl
  ++ of_string "*South*" ++ nl ++ marker ++ of_string "B3 - 8/10".

(** Record lines under no header. *)
Definition no_header : str :=
  marker ++ of_string "B1 - 5/10" ++ nl ++ marker ++ of_string "B2 - 9/10".

(** ** The layout of the charts: [attendance_charts_generator.py] *)

Module Charts.

(** What [plt.subplots] hands back: one Axes object, or an array of them
    of the shape given. *)
Inductive axes : Type :=
| One
| Array (shape : list nat).

Definition size (shape : list nat) : nat := fold_right Nat.mul 1%nat shape.

(** [plt.subplots(n_rows, n_cols)]: a grid needs a row and a column; with
    the default [squeeze=True] the dimensions of length one are dropped. *)
Definition subplots (n_rows n_cols : nat) : outcome axes :=
  match n_rows, n_cols with
  | O, _ => Fails (Raised ValueError)
  | _, O => Fails (Raised ValueError)
  | 1%nat, 1%nat => Returns One
  | 1%nat, _ => Returns (Array [n_cols])
  | _, 1%nat => Returns (Array [n_rows])
  | _, _ => Returns (Array [n_rows; n_cols])
  end.

(** [axes.reshape(1, -1)] and [axes.reshape(-1, 1)]. *)
Definition reshape_row (a : axes) : outcome axes :=
  match a with
  | One => Fails AttributeError
  | Array shape => Returns (Array [1%nat; size shape])
  end.

Definition reshape_column (a : axes) : outcome axes :=
  match a with
  | One => Fails AttributeError
  | Array shape => Returns (Array [size shape; 1%nat])
  end.

(** [np.array([[axes]])]. *)
Definition nested (a : axes) : axes :=
  match a with
  | One => Array [1%nat; 1%nat]
  | Array shape => Array (1%nat :: 1%nat :: shape)
  end.

(** [axes[row, col]]: the position of the subplot. *)
Definition item (a : axes) (row col : nat) : outcome (nat * nat) :=
  match a with
  | One => Fails TypeError
  | Array [r; c] =>
      if (row <? r)%nat && (col <? c)%nat then Returns (row, col)
      else Fails IndexError
  | Array _ => Fails IndexError
  end.

(** [a // b] on two counts. *)
Definition floordiv (a b : nat) : outcome nat :=
  match b with
  | O => Fails (Raised ZeroDivisionError)
  | S _ => Returns (a / b)%nat
  end.

(** [row = idx // n_cols] and [col = idx % n_cols]. *)
Definition cell_at (n_cols idx : nat) : nat * nat :=
  ((idx / n_cols)%nat, (idx mod n_cols)%nat).

Definition place (a : axes) (n_cols idx : nat) : outcome (nat * nat) :=
  item a (fst (cell_at n_cols idx)) (snd (cell_at n_cols idx)).

Definition enumerate {A : Type} (l : list A) : list (nat * A) :=
  combine (seq 0 (length l)) l.

(** A picture put on a sheet: the row of its anchor cell in column A, the
    array of subplots, the subplots drawn with the name each is drawn for,
    and the subplots hidden. *)
Record Figure : Type := mkFigure {
  anchor : nat;
  grid : axes;
  plots : list (option str * (nat * nat));
  hidden : list (nat * nat)
}.

(** The two loops over the subplots: one bar chart for each name, then
    the subplots left over are hidden.  What is drawn in a subplot is not
    part of the layout. *)
Definition plot_and_hide (a : axes) (n_rows n_cols : nat)
           (names : list (option str)) (row_position : nat)
  : outcome Figure :=
  drawn <~ each (fun ic => ax <~ place a n_cols (fst ic) ;;
                           Returns (snd ic, ax))
                (enumerate names) ;;
  unused <~ each (place a n_cols)
                 (seq (length names) (n_rows * n_cols - length names)) ;;
  Returns (mkFigure row_position a drawn unused).

(** [create_constituency_charts] on the column [df['Constituency']]. *)
Definition create_constituency_charts (Constituency : list (option str))
  : outcome Figure :=
  let constituencies := unique_cells Constituency in
  let n_constituencies := length constituencies in
  let n_cols := 2%nat in
  n_rows <~ floordiv (n_constituencies + n_cols - 1) n_cols ;;
  a <~ subplots n_rows n_cols ;;
  a <~ (if (n_rows =? 1)%nat then reshape_row a else Returns a) ;;
  plot_and_hide a n_rows n_cols constituencies 1.

(** The columns of the sheet [Branch_Monthly] the layout depends on. *)
Record ChartRow : Type := mkChartRow {
  ch_Constituency : option str;
  ch_Branch : option str
}.

(** [df['Constituency'] == constituency]: NaN equals nothing. *)
Definition same_text (a b : option str) : bool :=
  match a, b with
  | Some x, Some y => str_eqb x y
  | _, _ => false
  end.

(** The branches charted for a constituency. *)
Definition branches_of (df : list ChartRow) (constituency : option str)
  : list (option str) :=
  let const_branches :=
    filter (fun r => same_text (ch_Constituency r) constituency) df in
  unique_cells (map ch_Branch const_branches).

(** The body of the loop of [create_branch_charts]. *)
Definition branch_figure (df : list ChartRow) (row_position : nat)
           (constituency : option str) : outcome Figure :=
  let branches := branches_of df constituency in
  let n_branches := length branches in
  let n_cols := Nat.min 3 n_branches in
  n_rows <~ floordiv (n_branches + n_cols - 1) n_cols ;;
  a <~ subplots n_rows n_cols ;;
  a <~ (if (n_branches =? 1)%nat then Returns (nested a)
        else if (n_rows =? 1)%nat then reshape_row a
        else if (n_cols =? 1)%nat then reshape_column a
        else Returns a) ;;
  plot_and_hide a n_rows n_cols branches row_position.

(** The loop, which moves [row_position] by 40 after every picture. *)
Fixpoint branch_loop (df : list ChartRow)
         (constituencies : list (option str)) (row_position : nat)
  : outcome (list (option str * Figure)) :=
  match constituencies with
  | [] => Returns []
  | constituency :: rest =>
      f <~ branch_figure df row_position constituency ;;
      fs <~ branch_loop df rest (row_position + 40) ;;
      Returns ((constituency, f) :: fs)
  end.

Definition create_branch_charts (df : list ChartRow)
  : outcome (list (option str * Figure)) :=
  branch_loop df (unique_cells (map ch_Constituency df)) 1.

(** The cells tile a grid of the size given: each position once. *)
Definition tiles (n_rows n_cols : nat) (cells : list (nat * nat)) : Prop :=
  NoDup cells /\
  forall r c, In (r, c) cells <-> (r < n_rows)%nat /\ (c < n_cols)%nat.

(** The picture shows the names, in order, row by row on a grid of
    [n_cols] columns, every subplot is drawn on or hidden, and less than
    a row of subplots is hidden. *)
Definition laid_out (names : list (option str)) (n_cols : nat)
           (f : Figure) : Prop :=
  exists n_rows,
    grid f = Array [n_rows; n_cols] /\
    map fst (plots f) = names /\
    map snd (plots f) = map (cell_at n_cols) (seq 0 (length names)) /\
    tiles n_rows n_cols (map snd (plots f) ++ hidden f) /\
    (length (hidden f) < n_cols)%nat.

End Charts.

(** A sheet with three branches in one constituency and one in another,
    and the same with a row without a constituency. *)
Definition chart_rows : list Charts.ChartRow :=
  [ Charts.mkChartRow (Some (of_string "North")) (Some (of_string "B1"));
    Charts.mkChartRow (Some (of_string "North")) (Some (of_string "B2"));
    Charts.mkChartRow (Some (of_string "South")) (Some (of_string "B3"));
    Charts.mkChartRow (Some (of_string "North")) (Some (of_string "B4"));
    Charts.mkChartRow (Some (of_string "North")) (Some (of_string "B1")) ].

Definition chart_rows_blank : list Charts.ChartRow :=
  chart_rows ++ [Charts.mkChartRow None (Some (of_string "B5"))].

(** ** The file of the charts: [create_attendance_charts] *)

(** [s.replace(old, new)] for a non-empty [old]: the occurrences of [old]
    from the left, without overlap.  [skip] counts the characters of an
    occurrence still to be passed over. *)
Fixpoint replace_from (old new : str) (skip : nat) (s : str) : str :=
  match s with
  | [] => []
  | c :: s' =>
      match skip with
      | S k => replace_from old new k s'
      | O =>
          if startswith old s
          then new ++ replace_from old new (length old - 1) s'
          else c :: replace_from old new 0 s'
      end
  end.

Definition replace (old new s : str) : str := replace_from old new 0 s.

(** [old in s]. *)
Fixpoint occurs (old s : str) : bool :=
  startswith old s ||
  match s with
  | [] => false
  | _ :: s' => occurs old s'
  end.

Definition xlsx : str := of_string ".xlsx".

Definition with_charts : str := of_string "_with_charts.xlsx".

(** [create_attendance_charts] on the two sheets read from [excel_file]:
    the name of the file the workbook is saved under, and the two sheets
    of pictures added to it. *)
Definition create_attendance_charts (excel_file : str)
           (constituency_df : list (option str))
           (branch_df : list Charts.ChartRow)
  : outcome (str * Charts.Figure * list (option str * Charts.Figure)) :=
  c <~ Charts.create_constituency_charts constituency_df ;;
  b <~ Charts.create_branch_charts branch_df ;;
  let output_file := replace xlsx with_charts excel_file in
  Returns (output_file, c, b).

(** ** More sample inputs *)

(** The row of the constituency rollup of [two_weeks]. *)
Definition north_july : ConstituencyMonthly :=
  mkConstituencyMonthly
    (of_string "2025") (of_string "July") (of_string "North") 2
    (of_Z 5) (of_Z 11) (rate_of (of_Z 5) (of_Z 11)).

(** The records of a report of two constituencies. *)
Definition sample_records : list AttendanceRecord :=
  [ mkRecord (of_string "North") (of_string "B1") (of_string "NA") 5 10
             (of_Z 50) (of_string "July") (of_string "1") (of_string "2025");
    mkRecord (of_string "North") (of_string "B2") (of_string "NA") 9 10
             (of_Z 90) (of_string "July") (of_string "1") (of_string "2025");
    mkRecord (of_string "South") (of_string "B3") (of_string "NA") 8 10
             (of_Z 80) (of_string "July") (of_string "1")
             (of_string "2025") ].

(** A column of constituencies with a blank cell. *)
Definition chart_names : list (option str) :=
  [ Some (of_string "North"); Some (of_string "South");
    Some (of_string "North"); None ].

(* ================================================================== *)
(** ** Tactics *)

(** Case analysis on the signs and on the comparisons of exponents and
    mantissas of the floats of a goal. *)
Ltac float_cases :=
  repeat match goal with
         | s : bool |- _ => destruct s
         end;
  cbn -[Z.compare Pos.compare Z.lt];
  repeat match goal with
         | |- context [Pos.compare_cont Eq ?a ?b] =>
             change (Pos.compare_cont Eq a b) with (Pos.compare a b)
         end;
  repeat match goal with
         | |- context [Z.compare ?a ?b] => destruct (Z.compare_spec a b)
         | |- context [Pos.compare ?a ?b] => destruct (Pos.compare_spec a b)
         end;
  cbn -[Z.lt].

(** Goals on the lexicographic order of keys, from the irreflexivity and
    the transitivity of the order of strings. *)
Ltac str_order irrefl trans :=
  repeat match goal with
         | H : _ /\ _ |- _ => destruct H
         | H : _ \/ _ |- _ => destruct H
         end;
  subst;
  try match goal with
      | H : str_ltb ?a ?a = true |- _ => rewrite irrefl in H; discriminate
      end;
  eauto 10 using trans.

(* ================================================================== *)
(** * Properties *)

(** ** Lines of a text *)

Lemma split_lines_not_nil (s : str) : split_lines s <> [].
Proof.
  destruct s as [|c s]; simpl; [discriminate|].
  destruct (N.eqb c newline); [discriminate|].
  destruct (split_lines s); discriminate.
Qed.

Lemma split_lines_app (a b : str) :
  split_lines (a ++ newline :: b) = split_lines a ++ split_lines b.
Proof.
  induction a as [|c a IH]; simpl.
  - reflexivity.
  - destruct (N.eqb c newline).
    + now rewrite IH.
    + rewrite IH. destruct (split_lines a) as [|l ls] eqn:E.
      * now apply split_lines_not_nil in E.
      * reflexivity.
Qed.

Lemma split_lines_single (s : str) :
  ~ In newline s -> split_lines s = [s].
Proof.
  induction s as [|c s IH]; intros H; simpl.
  - reflexivity.
  - destruct (N.eqb_spec c newline) as [->|Hc].
    + exfalso. apply H. now left.
    + rewrite IH; [reflexivity|]. intros Hin. apply H. now right.
Qed.

Lemma clean_lines_app (a b : str) :
  clean_lines (a ++ newline :: b) = clean_lines a ++ clean_lines b.
Proof.
  unfold clean_lines. now rewrite split_lines_app, map_app, filter_app.
Qed.

Lemma clean_lines_single (s : str) :
  ~ In newline s ->
  clean_lines s = if nonempty (strip is_space s) then [strip is_space s] else [].
Proof.
  intros H. unfold clean_lines. rewrite (split_lines_single s H). reflexivity.
Qed.

(** ** The loop *)

Section Scan.
Variables pastor month week year : str.

Lemma scan_app (l1 l2 : list str) (st : scan_state) :
  scan pastor month week year (l1 ++ l2) st =
  bind (scan pastor month week year l1 st)
       (fun st' => scan pastor month week year l2 st').
Proof.
  revert st. induction l1 as [|l l1 IH]; intros st; simpl.
  - reflexivity.
  - destruct (step pastor month week year st l) as [st'|e]; simpl.
    + apply IH.
    + reflexivity.
Qed.

(** A run of lines each of which leaves every state as it is. *)
Lemma scan_skip (P : scan_state -> Prop) (ls : list str) (st : scan_state) :
  P st ->
  (forall l st', In l ls -> P st' -> step pastor month week year st' l = Ok st') ->
  scan pastor month week year ls st = Ok st.
Proof.
  intros HP H. induction ls as [|l ls IH]; simpl.
  - reflexivity.
  - rewrite (H l st (or_introl eq_refl) HP). simpl.
    apply IH. intros l' st' Hin. apply H. now right.
Qed.
End Scan.

Lemma record_line_not_header (l : str) :
  startswith marker l = true -> is_header l = false.
Proof.
  destruct l as [|c l]; [discriminate|].
  unfold is_header, marker. cbn [startswith]. intros H.
  apply andb_true_iff in H as [H _]. apply N.eqb_eq in H. subst c.
  reflexivity.
Qed.

Section Drop.
Variables pastor month week year : str.

(** Without a constituency every line but a header is skipped. *)
Lemma step_no_constituency (l : str) (acc : list AttendanceRecord) :
  is_header l = false -> step pastor month week year (None, acc) l = Ok (None, acc).
Proof.
  intros H. unfold step. rewrite H.
  now rewrite andb_false_r.
Qed.

Lemma step_empty_constituency (l : str) (acc : list AttendanceRecord) :
  is_header l = false -> step pastor month week year (Some [], acc) l = Ok (Some [], acc).
Proof.
  intros H. unfold step. rewrite H.
  now rewrite andb_false_r.
Qed.

Lemma step_header (l : str) (st : scan_state) :
  is_header l = true ->
  step pastor month week year st l = Ok (Some (strip (N.eqb asterisk) l), snd st).
Proof.
  intros H. destruct st as [cur acc]. unfold step. now rewrite H.
Qed.

(** A record line the pattern rejects leaves the state as it is. *)
Lemma step_no_match (l : str) (st : scan_state) :
  startswith marker l = true ->
  search_pattern (strip is_space (remove_marker l)) = None ->
  step pastor month week year st l = Ok st.
Proof.
  intros Hm Hp. destruct st as [cur acc]. unfold step.
  rewrite (record_line_not_header l Hm), Hm. simpl.
  destruct cur as [c|]; simpl; [|reflexivity].
  destruct (nonempty c); [|reflexivity].
  unfold parse_branch_line. now rewrite Hp.
Qed.

Lemma scan_no_header (ls : list str) (acc : list AttendanceRecord) :
  forallb (fun l => negb (is_header l)) ls = true ->
  scan pastor month week year ls (None, acc) = Ok (None, acc).
Proof.
  intros H. apply (scan_skip _ _ _ _ (fun st => st = (None, acc))); [reflexivity|].
  intros l st' Hin ->. apply step_no_constituency.
  rewrite forallb_forall in H. apply negb_true_iff. now apply H.
Qed.

Lemma scan_empty_constituency (ls : list str) (acc : list AttendanceRecord) :
  forallb (fun l => negb (is_header l)
                    || negb (nonempty (strip (N.eqb asterisk) l))) ls = true ->
  scan pastor month week year ls (Some [], acc) = Ok (Some [], acc).
Proof.
  intros H.
  apply (scan_skip _ _ _ _ (fun st => st = (Some [], acc))); [reflexivity|].
  intros l st' Hin ->. rewrite forallb_forall in H. specialize (H l Hin).
  destruct (is_header l) eqn:Hh.
  - rewrite (step_header l _ Hh). simpl in *.
    destruct (strip (N.eqb asterisk) l); [reflexivity|discriminate].
  - now apply step_empty_constituency.
Qed.
End Drop.

(** ** Lines made of asterisks *)

Lemma lstrip_all (p : char -> bool) (c : char) (n : nat) :
  p c = true -> lstrip p (repeat c n) = [].
Proof. intros H. induction n; simpl; [reflexivity|now rewrite H]. Qed.

Lemma strip_all (p : char -> bool) (c : char) (n : nat) :
  p c = true -> strip p (repeat c n) = [].
Proof. intros H. unfold strip, rstrip. now rewrite lstrip_all. Qed.

Lemma strip_none (p : char -> bool) (c : char) (n : nat) :
  p c = false -> strip p (repeat c n) = repeat c n.
Proof.
  intros H. unfold strip, rstrip.
  assert (E : forall k, lstrip p (repeat c k) = repeat c k)
    by (intros [|k]; simpl; [reflexivity|now rewrite H]).
  now rewrite E, rev_repeat, E, rev_repeat.
Qed.

Lemma stars_header (n : nat) : is_header (repeat asterisk (S n)) = true.
Proof.
  unfold is_header, endswith. rewrite rev_repeat. reflexivity.
Qed.

Lemma stars_no_newline (n : nat) : ~ In newline (repeat asterisk n).
Proof. intros H. apply repeat_spec in H. discriminate. Qed.

Lemma clean_lines_stars (n : nat) :
  clean_lines (repeat asterisk (S n)) = [repeat asterisk (S n)].
Proof.
  rewrite clean_lines_single by apply stars_no_newline.
  now rewrite strip_none.
Qed.

(** ** Inputs the pattern rejects *)

Lemma suffix_refl (s : str) : suffix s s.
Proof. now exists []. Qed.

Lemma suffix_cons (c : char) (r s : str) : suffix r s -> suffix r (c :: s).
Proof. intros [pre ->]. now exists (c :: pre). Qed.

Lemma suffix_trans (a b c : str) : suffix a b -> suffix b c -> suffix a c.
Proof. intros [p ->] [q ->]. exists (q ++ p). now rewrite app_assoc. Qed.

Lemma suffix_Forall (P : char -> Prop) (r s : str) :
  suffix r s -> Forall P s -> Forall P r.
Proof. intros [pre ->] H. now apply Forall_app in H. Qed.

Section Fails.
Context {R : Type}.

Lemma star_greedy_fails (p : char -> bool) (s acc : str)
      (k : str -> str -> option R) :
  (forall a r, suffix r s -> k a r = None) ->
  star_greedy p s acc k = None.
Proof.
  revert acc. induction s as [|c s IH]; intros acc H; simpl.
  - apply H, suffix_refl.
  - destruct (p c).
    + rewrite IH.
      * apply H, suffix_refl.
      * intros a r Hr. apply H. now apply suffix_cons.
    + apply H, suffix_refl.
Qed.

Lemma plus_greedy_fails (p : char -> bool) (s : str)
      (k : str -> str -> option R) :
  (forall a r, suffix r s -> k a r = None) ->
  plus_greedy p s k = None.
Proof.
  intros H. destruct s as [|c s]; simpl; [reflexivity|].
  destruct (p c); [|reflexivity].
  apply star_greedy_fails. intros a r Hr. apply H. now apply suffix_cons.
Qed.

Lemma star_lazy_fails (p : char -> bool) (s acc : str)
      (k : str -> str -> option R) :
  (forall a r, suffix r s -> k a r = None) ->
  star_lazy p s acc k = None.
Proof.
  revert acc. induction s as [|c s IH]; intros acc H; simpl.
  - now rewrite (H acc [] (suffix_refl _)).
  - rewrite (H acc (c :: s) (suffix_refl _)).
    destruct (p c); [|reflexivity].
    apply IH. intros a r Hr. apply H. now apply suffix_cons.
Qed.

Lemma plus_lazy_fails (p : char -> bool) (s : str)
      (k : str -> str -> option R) :
  (forall a r, suffix r s -> k a r = None) ->
  plus_lazy p s k = None.
Proof.
  intros H. destruct s as [|c s]; simpl; [reflexivity|].
  destruct (p c); [|reflexivity].
  apply star_lazy_fails. intros a r Hr. apply H. now apply suffix_cons.
Qed.

Lemma one_fails (p : char -> bool) (s : str) (k : str -> option R) :
  (forall r, suffix r s -> k r = None) -> one p s k = None.
Proof.
  intros H. destruct s as [|c s]; simpl; [reflexivity|].
  destruct (p c); [|reflexivity].
  apply H. apply suffix_cons, suffix_refl.
Qed.

Lemma one_rejects (p : char -> bool) (s : str) (k : str -> option R) :
  Forall (fun c => p c = false) s -> one p s k = None.
Proof.
  intros H. destruct s as [|c s]; simpl; [reflexivity|].
  inversion H as [|? ? Hc _]; subst. now rewrite Hc.
Qed.
End Fails.

(** A line with no hyphen does not match. *)
Lemma no_hyphen_no_match (s : str) :
  Forall (fun c => N.eqb hyphen c = false) s -> search_pattern s = None.
Proof.
  intros H. unfold search_pattern.
  apply plus_lazy_fails; intros g1 r1 S1.
  apply star_greedy_fails; intros a2 r2 S2.
  apply one_rejects.
  eapply suffix_Forall; [|exact H].
  eapply suffix_trans; eassumption.
Qed.

(** A line with neither [/] nor [|] does not match. *)
Lemma no_separator_no_match (s : str) :
  Forall (fun c => separator c = false) s -> search_pattern s = None.
Proof.
  intros H. unfold search_pattern.
  apply plus_lazy_fails; intros g1 r1 S1.
  apply star_greedy_fails; intros a2 r2 S2.
  apply one_fails; intros r3 S3.
  apply star_greedy_fails; intros a4 r4 S4.
  apply plus_greedy_fails; intros g2 r5 S5.
  apply star_greedy_fails; intros a6 r6 S6.
  apply one_rejects.
  eapply suffix_Forall; [|exact H].
  repeat (eapply suffix_trans; [eassumption|]). apply suffix_refl.
Qed.

(** Stripping and removing the marker only delete characters. *)
Lemma lstrip_Forall (P : char -> Prop) (p : char -> bool) (s : str) :
  Forall P s -> Forall P (lstrip p s).
Proof.
  induction s as [|c s IH]; intros H; simpl; [constructor|].
  destruct (p c); [|assumption]. apply IH. now inversion H.
Qed.

Lemma strip_Forall (P : char -> Prop) (p : char -> bool) (s : str) :
  Forall P s -> Forall P (strip p s).
Proof.
  intros H. unfold strip, rstrip.
  apply Forall_rev, lstrip_Forall, Forall_rev, lstrip_Forall, H.
Qed.

Lemma remove_marker_cons2 (a b : char) (s : str) :
  remove_marker (a :: b :: s) =
  if ((a =? 128073) && (b =? 127998))%N then remove_marker s
  else a :: remove_marker (b :: s).
Proof. reflexivity. Qed.

Lemma remove_marker_Forall (P : char -> Prop) (s : str) :
  Forall P s -> Forall P (remove_marker s).
Proof.
  assert (G : forall n s, (length s <= n)%nat ->
                          Forall P s -> Forall P (remove_marker s)).
  { induction n as [|n IH]; intros [|a [|b t]] Hl H; simpl in Hl;
      try lia; try assumption.
    rewrite remove_marker_cons2.
    inversion H as [|? ? Ha Ht]; subst.
    destruct ((a =? 128073) && (b =? 127998))%N.
    - apply IH; [lia|]. now inversion Ht.
    - constructor; [exact Ha|]. apply IH; [simpl; lia|exact Ht]. }
  apply (G (length s)). lia.
Qed.

Lemma contains_false (c : char) (s : str) :
  contains c s = false -> ~ In c s.
Proof.
  unfold contains. intros H Hin.
  assert (E : existsb (N.eqb c) s = true).
  { apply existsb_exists. exists c. split; [exact Hin|apply N.eqb_refl]. }
  congruence.
Qed.

Lemma header_nonempty (l : str) : is_header l = true -> nonempty l = true.
Proof. now destruct l. Qed.

Lemma record_line_nonempty (l : str) :
  startswith marker l = true -> nonempty l = true.
Proof. now destruct l. Qed.

Section Insert.
Variables pastor month week year : str.

(** Lines that leave the state as it is can be taken out of the input. *)
Lemma scan_drop_middle (Q : scan_state -> Prop) (A M P : list str)
      (st0 : scan_state) :
  (forall st, scan pastor month week year A st0 = Ok st -> Q st) ->
  (forall st, Q st -> scan pastor month week year M st = Ok st) ->
  scan pastor month week year (A ++ M ++ P) st0 =
  scan pastor month week year (A ++ P) st0.
Proof.
  intros HA HM. rewrite !scan_app.
  destruct (scan pastor month week year A st0) as [st|e] eqn:E; simpl;
    [|reflexivity].
  rewrite scan_app, (HM st (HA st eq_refl)). reflexivity.
Qed.

Lemma parse_drop_middle (Q : scan_state -> Prop) (a m p : str) :
  (forall st, scan pastor month week year (clean_lines a) (None, []) = Ok st
              -> Q st) ->
  (forall st, Q st -> scan pastor month week year (clean_lines m) st = Ok st) ->
  parse_attendance_data (a ++ newline :: m ++ newline :: p)
                        pastor month week year =
  parse_attendance_data (a ++ newline :: p) pastor month week year.
Proof.
  intros HA HM. unfold parse_attendance_data.
  rewrite !clean_lines_app.
  now rewrite (scan_drop_middle Q _ _ _ _ HA HM).
Qed.

Lemma parse_drop_first (m p : str) :
  scan pastor month week year (clean_lines m) (None, []) = Ok (None, []) ->
  parse_attendance_data (m ++ newline :: p) pastor month week year =
  parse_attendance_data p pastor month week year.
Proof.
  intros HM. unfold parse_attendance_data.
  now rewrite clean_lines_app, scan_app, HM.
Qed.

Lemma parse_drop_last (a m : str) :
  (forall st, scan pastor month week year (clean_lines m) st = Ok st) ->
  parse_attendance_data (a ++ newline :: m) pastor month week year =
  parse_attendance_data a pastor month week year.
Proof.
  intros HM. unfold parse_attendance_data.
  rewrite clean_lines_app, scan_app.
  destruct (scan pastor month week year (clean_lines a) (None, []));
    simpl; [|reflexivity].
  now rewrite HM.
Qed.
End Insert.

(** ** Records carry the rate of their own counts *)

Lemma digit_value_nonneg (c : char) (d : Z) : digit_value c = Some d -> 0 <= d.
Proof.
  unfold digit_value.
  match goal with
  | |- context [find ?f ?l] => destruct (find f l) as [z|]
  end; intros H; inversion H. lia.
Qed.

Lemma int_of_digits_nonneg (s : str) : 0 <= int_of_digits s.
Proof.
  unfold int_of_digits.
  assert (G : forall v, 0 <= v ->
    0 <= fold_left (fun v c => match digit_value c with
                               | Some d => 10 * v + d
                               | None => v
                               end) s v).
  { induction s as [|c s IH]; intros v Hv; cbn [fold_left]; [exact Hv|].
    apply IH. destruct (digit_value c) as [d|] eqn:E; [|exact Hv].
    apply digit_value_nonneg in E. lia. }
  apply G. lia.
Qed.

Lemma py_int_nonneg (s : str) (v : Z) : py_int s = Ok v -> 0 <= v.
Proof.
  unfold py_int. destruct (_ <? _)%N; intros H; inversion H.
  apply int_of_digits_nonneg.
Qed.

Lemma attendance_rate_ok (a t : Z) (rate : float64) :
  attendance_rate a t = Ok rate ->
  t <> 0 /\ exists q, py_truediv a t = Ok q /\
                      rate = py_round2 (fmul q (of_Z 100)).
Proof.
  unfold attendance_rate. intros H.
  destruct (py_truediv a t) as [q|e] eqn:E; simpl in H; [|discriminate].
  inversion H; subst. split.
  - intros ->. discriminate.
  - now exists q.
Qed.

Lemma parse_branch_line_rate (line c p m w y : str) (r : AttendanceRecord) :
  parse_branch_line line c p m w y = Ok (Some r) -> rate_ok r.
Proof.
  unfold parse_branch_line.
  destruct (search_pattern _) as [[[g1 g2] g3]|]; [|discriminate].
  destruct (py_int g2) as [a|e] eqn:Ea; simpl; [|discriminate].
  destruct (py_int g3) as [t|e] eqn:Et; simpl; [|discriminate].
  destruct (attendance_rate a t) as [rate|e] eqn:E; simpl; [|discriminate].
  intros H. inversion H; subst. clear H.
  apply attendance_rate_ok in E as [Ht [q [Hq Hr]]].
  unfold rate_ok. simpl. split.
  - pose proof (py_int_nonneg g3 t Et). lia.
  - now exists q.
Qed.

Lemma step_rate (p m w y : str) (st st' : scan_state) (l : str) :
  step p m w y st l = Ok st' ->
  Forall rate_ok (snd st) -> Forall rate_ok (snd st').
Proof.
  destruct st as [cur acc]. unfold step.
  destruct (is_header l).
  { intros H; inversion H; subst. trivial. }
  destruct (startswith marker l && truthy cur).
  2:{ intros H; inversion H; subst. trivial. }
  destruct cur as [c|].
  2:{ intros H; inversion H; subst. trivial. }
  destruct (parse_branch_line l c p m w y) as [[r|]|e] eqn:E; simpl;
    intros H; inversion H; subst; simpl; intros Hacc; [|exact Hacc].
  apply Forall_app. split; [exact Hacc|].
  constructor; [|constructor]. eapply parse_branch_line_rate, E.
Qed.

Lemma scan_rate (p m w y : str) (ls : list str) (st st' : scan_state) :
  scan p m w y ls st = Ok st' ->
  Forall rate_ok (snd st) -> Forall rate_ok (snd st').
Proof.
  revert st. induction ls as [|l ls IH]; intros st; simpl.
  - intros H; inversion H; subst. trivial.
  - destruct (step p m w y st l) as [st1|e] eqn:E; simpl; [|discriminate].
    intros H Hst. eapply IH; [exact H|]. eapply step_rate; eassumption.
Qed.

(** C3.  The parser does raise: inside a constituency, a record line that
    matches the pattern with a target of 0 makes the division of the rate
    raise [ZeroDivisionError], and the exception leaves
    [parse_attendance_data] with no record list.  The input is the header
    [*A*] followed by the record line [B - 5/0]. *)
Theorem zero_target_raises :
  parse_attendance_data
    (of_string "*A*" ++ nl ++ marker ++ of_string "B - 5/0")
    (of_string "NA") (of_string "July") (of_string "5") (of_string "2025")
  = Raise ZeroDivisionError.
Proof. vm_compute. reflexivity. Qed.

(** C7.  A block of lines that holds no header line (record lines are
    such lines, see [record_line_not_header]) yields no record and raises
    nothing, whatever its record lines say; and put in front of any other
    text it changes nothing of what that text parses to. *)
Theorem orphan_records_dropped (data rest pastor month week year : str) :
  forallb (fun l => negb (is_header l)) (clean_lines data) = true ->
  parse_attendance_data data pastor month week year = Ok [] /\
  parse_attendance_data (data ++ newline :: rest) pastor month week year =
  parse_attendance_data rest pastor month week year.
Proof.
  intros H. split.
  - unfold parse_attendance_data. now rewrite scan_no_header.
  - apply parse_drop_first. now apply scan_no_header.
Qed.

Lemma orphan_records_dropped_witness :
  parse_attendance_data
    (marker ++ of_string "B - 5/10" ++ nl ++ marker ++ of_string "C - 7/0")
    (of_string "NA") (of_string "July") (of_string "5") (of_string "2025")
  = Ok [].
Proof.
  apply (orphan_records_dropped _ []). vm_compute. reflexivity.
Defined.

Lemma forallb_Forall_false (p : char -> bool) (s : str) :
  forallb (fun c => negb (p c)) s = true -> Forall (fun c => p c = false) s.
Proof.
  intros H. apply Forall_forall. intros c Hc.
  rewrite forallb_forall in H. apply negb_true_iff. now apply H.
Qed.

Lemma malformed_no_match (line : str) :
  malformed line ->
  search_pattern (strip is_space (remove_marker (strip is_space line)))
  = None.
Proof.
  intros [H|[H|H]]; [| |exact H].
  - apply no_separator_no_match, strip_Forall, remove_marker_Forall,
      strip_Forall, forallb_Forall_false, H.
  - apply no_hyphen_no_match, strip_Forall, remove_marker_Forall,
      strip_Forall, forallb_Forall_false, H.
Qed.

(** C8.  A record line that is malformed (no separator, no hyphen, or any
    other failure of the pattern) is dropped without an exception:
    [parse_branch_line] returns [None] on it, and the parser gives the same
    result, records or exception, on the text with the line as on the text
    without it, wherever the line stands (between two parts of the text,
    first, or last). *)
Theorem malformed_line_dropped (a b line pastor month week year : str) :
  contains newline line = false ->
  startswith marker (strip is_space line) = true ->
  malformed line ->
  (forall c, parse_branch_line (strip is_space line) c pastor month week year
             = Ok None) /\
  parse_attendance_data (a ++ newline :: line ++ newline :: b)
                        pastor month week year =
  parse_attendance_data (a ++ newline :: b) pastor month week year /\
  parse_attendance_data (line ++ newline :: b) pastor month week year =
  parse_attendance_data b pastor month week year /\
  parse_attendance_data (a ++ newline :: line) pastor month week year =
  parse_attendance_data a pastor month week year.
Proof.
  intros Hn Hm Hp. apply contains_false in Hn.
  apply malformed_no_match in Hp.
  assert (Hc : clean_lines line = [strip is_space line]).
  { rewrite (clean_lines_single _ Hn).
    now rewrite (record_line_nonempty _ Hm). }
  assert (Hs : forall st, scan pastor month week year (clean_lines line) st
                          = Ok st).
  { intros st. rewrite Hc. simpl. now rewrite (step_no_match _ _ _ _ _ st Hm Hp). }
  repeat split.
  - intros c. unfold parse_branch_line. now rewrite Hp.
  - apply (parse_drop_middle _ _ _ _ (fun _ => True)); auto.
  - apply parse_drop_first, Hs.
  - apply parse_drop_last, Hs.
Qed.

(** C10.  A header line made of asterisks only sets the current
    constituency to the empty string.  With the empty string as with no
    constituency at all, a line that is not a header leaves the state as it
    is; so the lines that follow such a header, up to the next header with a
    name, yield no record: taking them out of the text does not change the
    result, and a text that ends with them parses to the empty list. *)
Theorem empty_header_drops_records
        (pre mid post pastor month week year : str) (n : nat) :
  forallb (fun l => negb (is_header l)
                    || negb (nonempty (strip (N.eqb asterisk) l)))
          (clean_lines mid) = true ->
  (forall st, step pastor month week year st (repeat asterisk (S n))
              = Ok (Some [], snd st)) /\
  (forall l acc, is_header l = false ->
                 step pastor month week year (Some [], acc) l
                 = Ok (Some [], acc) /\
                 step pastor month week year (None, acc) l
                 = Ok (None, acc)) /\
  parse_attendance_data (repeat asterisk (S n) ++ newline :: mid)
                        pastor month week year = Ok [] /\
  parse_attendance_data
    (pre ++ newline :: repeat asterisk (S n) ++ newline :: mid
         ++ newline :: post) pastor month week year =
  parse_attendance_data
    (pre ++ newline :: repeat asterisk (S n) ++ newline :: post)
    pastor month week year.
Proof.
  intros H.
  assert (Hstep : forall st, step pastor month week year st
                                  (repeat asterisk (S n))
                             = Ok (Some [], snd st)).
  { intros st. rewrite (step_header _ _ _ _ _ st (stars_header n)).
    rewrite strip_all by reflexivity. reflexivity. }
  split; [exact Hstep|]. split; [|split].
  - intros l acc Hl. split;
      [now apply step_empty_constituency|now apply step_no_constituency].
  - unfold parse_attendance_data.
    rewrite clean_lines_app, clean_lines_stars, scan_app.
    cbn [scan bind]. rewrite Hstep. cbn [bind snd].
    now rewrite scan_empty_constituency.
  - unfold parse_attendance_data.
    rewrite !clean_lines_app, clean_lines_stars.
    rewrite (app_assoc (clean_lines pre) [_] (clean_lines mid ++ _)).
    rewrite (app_assoc (clean_lines pre) [_] (clean_lines post)).
    rewrite (scan_drop_middle _ _ _ _
               (fun st => exists acc, st = (Some [], acc))
               (clean_lines pre ++ [repeat asterisk (S n)])
               (clean_lines mid) (clean_lines post)); [reflexivity| |].
    + intros st. rewrite scan_app.
      destruct (scan pastor month week year (clean_lines pre) (None, []))
        as [st1|e]; cbn [bind scan]; [|discriminate].
      rewrite Hstep. cbn [bind]. intros E. inversion E. now eexists.
    + intros st [acc ->]. now apply scan_empty_constituency.
Qed.

Lemma header_then_record_general
      (h line g1 g2 g3 pastor month week year : str) (a t : Z)
      (rate : float64) :
  contains newline h = false ->
  contains newline line = false ->
  is_header (strip is_space h) = true ->
  nonempty (strip (N.eqb asterisk) (strip is_space h)) = true ->
  startswith marker (strip is_space line) = true ->
  search_pattern (strip is_space (remove_marker (strip is_space line)))
  = Some (g1, g2, g3) ->
  py_int g2 = Ok a ->
  py_int g3 = Ok t ->
  attendance_rate a t = Ok rate ->
  parse_attendance_data (h ++ newline :: line) pastor month week year =
  Ok [mkRecord (strip (N.eqb asterisk) (strip is_space h))
               (strip is_space g1) pastor a t rate month week year].
Proof.
  intros Hh Hl Hhdr Hc Hm Hp Ha Ht Hr.
  apply contains_false in Hh. apply contains_false in Hl.
  unfold parse_attendance_data.
  rewrite clean_lines_app, (clean_lines_single _ Hh), (clean_lines_single _ Hl).
  rewrite (header_nonempty _ Hhdr), (record_line_nonempty _ Hm).
  cbn [app scan]. rewrite (step_header _ _ _ _ _ _ Hhdr). cbn [bind snd].
  unfold step. rewrite (record_line_not_header _ Hm), Hm.
  cbn [truthy andb]. rewrite Hc.
  unfold parse_branch_line. rewrite Hp, Ha. cbn [bind]. rewrite Ht.
  cbn [bind]. rewrite Hr. reflexivity.
Qed.

Lemma parse_rate_ok (data pastor month week year : str)
      (rs : list AttendanceRecord) :
  parse_attendance_data data pastor month week year = Ok rs ->
  Forall rate_ok rs.
Proof.
  unfold parse_attendance_data.
  destruct (scan pastor month week year (clean_lines data) (None, []))
    as [st|e] eqn:E; simpl; [|discriminate].
  intros H. inversion H; subst.
  apply (scan_rate _ _ _ _ _ _ _ E). constructor.
Qed.

(** C6, amended.  A header line with a name (something is left once its
    asterisks are stripped), followed by one record line that the pattern
    matches and whose rate can be computed (the two numbers are within the
    digit limit of [int], the target is not 0 and the quotient is in the
    range of a float), yields exactly one record, with
    the counts of the line and the rate [round(attendance/target*100, 2)].
    Every record of every successful parse has a positive target and that
    rate.  Header [*A*] and record [B - 5/10] give one record with rate
    50.0. *)
Theorem header_then_record :
  (forall (h line g1 g2 g3 pastor month week year : str) (a t : Z)
          (rate : float64),
      contains newline h = false ->
      contains newline line = false ->
      is_header (strip is_space h) = true ->
      nonempty (strip (N.eqb asterisk) (strip is_space h)) = true ->
      startswith marker (strip is_space line) = true ->
      search_pattern (strip is_space (remove_marker (strip is_space line)))
      = Some (g1, g2, g3) ->
      py_int g2 = Ok a ->
      py_int g3 = Ok t ->
      attendance_rate a t = Ok rate ->
      parse_attendance_data (h ++ newline :: line) pastor month week year =
      Ok [mkRecord (strip (N.eqb asterisk) (strip is_space h))
                   (strip is_space g1) pastor a t rate month week year]) /\
  (forall (data pastor month week year : str) (rs : list AttendanceRecord),
      parse_attendance_data data pastor month week year = Ok rs ->
      Forall rate_ok rs) /\
  parse_attendance_data
    (of_string "*A*" ++ nl ++ marker ++ of_string "B - 5/10")
    (of_string "NA") (of_string "July") (of_string "5") (of_string "2025")
  = Ok [mkRecord (of_string "A") (of_string "B") (of_string "NA") 5 10
                 (of_Z 50) (of_string "July") (of_string "5")
                 (of_string "2025")].
Proof.
  split; [exact header_then_record_general|].
  split; [exact parse_rate_ok|].
  vm_compute. reflexivity.
Qed.

Lemma header_then_record_witness :
  parse_attendance_data
    (of_string " *North* " ++ nl ++ marker ++ of_string " Branch 1 - 10|15")
    (of_string "NA") (of_string "July") (of_string "5") (of_string "2025")
  = Ok [mkRecord (of_string "North") (of_string "Branch 1") (of_string "NA")
                 10 15 (S754_finite false 4691484174324859 (-46))
                 (of_string "July") (of_string "5") (of_string "2025")]
  /\ Forall rate_ok
       [mkRecord (of_string "North") (of_string "Branch 1") (of_string "NA")
                 10 15 (S754_finite false 4691484174324859 (-46))
                 (of_string "July") (of_string "5") (of_string "2025")].
Proof.
  assert (E : parse_attendance_data
    (of_string " *North* " ++ nl ++ marker ++ of_string " Branch 1 - 10|15")
    (of_string "NA") (of_string "July") (of_string "5") (of_string "2025")
  = Ok [mkRecord (of_string "North") (of_string "Branch 1") (of_string "NA")
                 10 15 (S754_finite false 4691484174324859 (-46))
                 (of_string "July") (of_string "5") (of_string "2025")]).
  { apply (proj1 header_then_record
                 (of_string " *North* ")
                 (marker ++ of_string " Branch 1 - 10|15")
                 (of_string "Branch 1") (of_string "10") (of_string "15")
                 (of_string "NA") (of_string "July") (of_string "5")
                 (of_string "2025") 10 15);
      vm_compute; reflexivity. }
  split; [exact E|].
  exact (proj1 (proj2 header_then_record) _ _ _ _ _ _ E).
Defined.

Lemma empty_header_then_record :
  is_header (of_string "**") = true /\
  (exists r, parse_branch_line (marker ++ of_string "B - 5/10")
                               (of_string "A") (of_string "NA")
                               (of_string "July") (of_string "5")
                               (of_string "2025") = Ok (Some r)) /\
  parse_attendance_data
    (of_string "**" ++ nl ++ marker ++ of_string "B - 5/10")
    (of_string "NA") (of_string "July") (of_string "5") (of_string "2025")
  = Ok [].
Proof.
  split; [reflexivity|]. split; [eexists; vm_compute; reflexivity|].
  vm_compute. reflexivity.
Qed.

(** ** The stable sort *)

Section StableSortFacts.
Context {A : Type}.
Variable before : A -> A -> bool.

Lemma insert_sorted_perm (x : A) (l : list A) :
  Permutation (insert_sorted before x l) (x :: l).
Proof.
  induction l as [|y l IH]; simpl.
  - apply Permutation_refl.
  - destruct (before y x).
    + eapply perm_trans; [apply perm_skip, IH|apply perm_swap].
    + apply Permutation_refl.
Qed.

Lemma stable_sort_perm (l : list A) : Permutation (stable_sort before l) l.
Proof.
  induction l as [|x l IH]; simpl.
  - apply perm_nil.
  - eapply perm_trans; [apply insert_sorted_perm|apply perm_skip, IH].
Qed.

Lemma stable_sort_In (x : A) (l : list A) :
  In x (stable_sort before l) <-> In x l.
Proof.
  split; apply Permutation_in;
    [apply stable_sort_perm|apply Permutation_sym, stable_sort_perm].
Qed.

Section Sorted.
Variable P : A -> Prop.
Hypothesis before_asym :
  forall a b, before a b = true -> before b a = false.
Hypothesis before_negtrans :
  forall a b c, P a -> P b -> P c ->
                before b a = false -> before c b = false ->
                before c a = false.

Lemma insert_sorted_sorted (x : A) (l : list A) :
  P x -> Forall P l ->
  StronglySorted (may_precede before) l ->
  StronglySorted (may_precede before) (insert_sorted before x l).
Proof.
  intros Px. induction l as [|y l IH]; intros Pl Hs; simpl.
  - constructor; constructor.
  - inversion Pl as [|? ? Py Pl']; subst.
    inversion Hs as [|? ? Hs' Hy]; subst.
    destruct (before y x) eqn:E.
    + constructor; [now apply IH|].
      apply Forall_forall. intros z Hz.
      apply (Permutation_in _ (insert_sorted_perm x l)) in Hz.
      destruct Hz as [<-|Hz].
      * now apply before_asym.
      * rewrite Forall_forall in Hy. now apply Hy.
    + constructor; [exact Hs|].
      constructor; [exact E|].
      rewrite Forall_forall in *. intros z Hz.
      apply (before_negtrans x y z); auto. now apply Hy.
Qed.

Lemma stable_sort_sorted (l : list A) :
  Forall P l -> StronglySorted (may_precede before) (stable_sort before l).
Proof.
  induction l as [|x l IH]; intros Pl; simpl.
  - constructor.
  - inversion Pl as [|? ? Px Pl']; subst.
    apply insert_sorted_sorted.
    + exact Px.
    + apply Forall_forall. intros z Hz.
      apply (proj1 (stable_sort_In z l)) in Hz.
      rewrite Forall_forall in Pl'. apply Pl', Hz.
    + now apply IH.
Qed.
End Sorted.

(** Stability: the members of a class no two of which have to be
    ordered keep their incoming order. *)
Section Stable.
Variable c : A -> bool.
Hypothesis class_unordered :
  forall a b, c a = true -> c b = true -> before a b = false.

Lemma insert_sorted_filter (x : A) (l : list A) :
  filter c (insert_sorted before x l) = filter c (x :: l).
Proof.
  induction l as [|y l IH]; [reflexivity|].
  cbn [insert_sorted]. destruct (before y x) eqn:E; [|reflexivity].
  cbn [filter] in *. rewrite IH.
  destruct (c y) eqn:Cy, (c x) eqn:Cx; try reflexivity.
  rewrite (class_unordered y x Cy Cx) in E. discriminate.
Qed.

Lemma stable_sort_filter (l : list A) :
  filter c (stable_sort before l) = filter c l.
Proof.
  induction l as [|x l IH]; [reflexivity|].
  cbn [stable_sort fold_right].
  change (fold_right (insert_sorted before) [] l)
    with (stable_sort before l).
  rewrite insert_sorted_filter. cbn [filter]. now rewrite IH.
Qed.
End Stable.
End StableSortFacts.

(** ** Sorted lists *)

Section SortedFacts.
Context {A : Type}.

Lemma StronglySorted_app (R : A -> A -> Prop) (l1 l2 : list A) :
  StronglySorted R l1 -> StronglySorted R l2 ->
  (forall a b, In a l1 -> In b l2 -> R a b) ->
  StronglySorted R (l1 ++ l2).
Proof.
  induction l1 as [|x l1 IH]; intros H1 H2 H; simpl; [exact H2|].
  inversion H1 as [|? ? H1' Hx]; subst. constructor.
  - apply IH; auto. intros a b Ha Hb. apply H; [now right|exact Hb].
  - apply Forall_app. split; [exact Hx|].
    apply Forall_forall. intros b Hb. apply H; [now left|exact Hb].
Qed.

Lemma StronglySorted_app_inv (R : A -> A -> Prop) (l1 l2 : list A) :
  StronglySorted R (l1 ++ l2) ->
  StronglySorted R l1 /\ StronglySorted R l2 /\
  (forall a b, In a l1 -> In b l2 -> R a b).
Proof.
  induction l1 as [|x l1 IH]; simpl; intros H.
  - repeat split; [constructor|exact H|intros a b []].
  - inversion H as [|? ? H' Hx]; subst.
    destruct (IH H') as (S1 & S2 & S12).
    apply Forall_app in Hx as [Hx1 Hx2]. repeat split.
    + now constructor.
    + exact S2.
    + intros a b [<-|Ha] Hb.
      * rewrite Forall_forall in Hx2. now apply Hx2.
      * now apply S12.
Qed.

Lemma StronglySorted_rev (R : A -> A -> Prop) (l : list A) :
  StronglySorted R l -> StronglySorted (fun a b => R b a) (rev l).
Proof.
  induction 1 as [|x l Hs IH Hx]; simpl; [constructor|].
  apply StronglySorted_app; [exact IH|repeat constructor|].
  intros a b Ha [<-|[]]. rewrite Forall_forall in Hx.
  apply Hx. now apply in_rev.
Qed.

Lemma StronglySorted_weaken (R S : A -> A -> Prop) (l : list A) :
  (forall a b, In a l -> In b l -> R a b -> S a b) ->
  StronglySorted R l -> StronglySorted S l.
Proof.
  intros H Hs. induction Hs as [|x l Hs IH Hx]; [constructor|].
  constructor.
  - apply IH. intros a b Ha Hb. apply H; now right.
  - rewrite Forall_forall in *. intros b Hb.
    apply H; [now left|now right|now apply Hx].
Qed.

(** Two strictly sorted lists with the same members are equal. *)
Lemma sorted_perm_unique (R : A -> A -> Prop) (l1 l2 : list A) :
  (forall a b, R a b -> R b a -> False) ->
  (forall a, R a a -> False) ->
  StronglySorted R l1 -> StronglySorted R l2 ->
  Permutation l1 l2 -> l1 = l2.
Proof.
  intros Hasym Hirr. revert l2.
  induction l1 as [|a l1 IH]; intros l2 H1 H2 Hp.
  - apply Permutation_nil in Hp. now subst.
  - destruct l2 as [|b l2].
    + apply Permutation_sym, Permutation_nil in Hp. discriminate.
    + inversion H1 as [|? ? H1' Ha]; subst.
      inversion H2 as [|? ? H2' Hb]; subst.
      rewrite Forall_forall in Ha, Hb.
      assert (E : a = b).
      { assert (Ia : In a (b :: l2))
          by (apply (Permutation_in _ Hp); now left).
        assert (Ib : In b (a :: l1))
          by (apply (Permutation_in _ (Permutation_sym Hp)); now left).
        destruct Ia as [->|Ia]; [reflexivity|].
        destruct Ib as [->|Ib]; [reflexivity|].
        exfalso. apply (Hasym a b); auto. }
      subst b. f_equal. apply IH; auto.
      now apply Permutation_cons_inv in Hp.
Qed.
End SortedFacts.

Lemma fltb_key (x y : float64) :
  is_nan x = false -> is_nan y = false ->
  (fltb x y = true <-> key_lt (order_key x) (order_key y)).
Proof.
  unfold fltb, SFltb, SFcompare, key_lt.
  destruct x as [sx|sx| |sx mx ex], y as [sy|sy| |sy my ey];
    try discriminate; intros _ _; float_cases;
    (split; [intros Hg; try discriminate Hg; try lia
            |intros Hg; try reflexivity; try lia]).
Qed.

Lemma feqb_key (x y : float64) :
  feqb x y = true <->
  is_nan x = false /\ is_nan y = false /\ order_key x = order_key y.
Proof.
  unfold feqb, SFeqb, SFcompare.
  destruct x as [sx|sx| |sx mx ex], y as [sy|sy| |sy my ey];
    float_cases;
    (split; [intros Hg; try discriminate Hg; repeat split; try congruence
            |intros (G1 & G2 & G3); try discriminate G1; try discriminate G2;
             try reflexivity; try (inversion G3; lia)]).
Qed.

Lemma fltb_nan_r (x : float64) : fltb x nan = false.
Proof. now destruct x as [[]|[]| |[] m e]. Qed.

Lemma fltb_is_nan (x y : float64) :
  fltb x y = true -> is_nan x = false /\ is_nan y = false.
Proof.
  destruct x as [sx|sx| |sx mx ex], y as [sy|sy| |sy my ey];
    try (now split); try discriminate.
  all: rewrite fltb_nan_r; discriminate.
Qed.

Lemma fltb_irrefl (x : float64) : fltb x x = false.
Proof.
  destruct (is_nan x) eqn:E.
  - destruct x; try discriminate. reflexivity.
  - destruct (fltb x x) eqn:F; [|reflexivity].
    apply (fltb_key x x E E) in F. unfold key_lt in F.
    destruct (order_key x) as [[a b] c]. lia.
Qed.

Lemma fltb_asym (x y : float64) : fltb x y = true -> fltb y x = false.
Proof.
  intros H. destruct (fltb_is_nan _ _ H) as [Nx Ny].
  apply (fltb_key x y Nx Ny) in H.
  destruct (fltb y x) eqn:F; [|reflexivity].
  apply (fltb_key y x Ny Nx) in F. unfold key_lt in *.
  destruct (order_key x) as [[a b] c], (order_key y) as [[a' b'] c']. lia.
Qed.

(** With [y] not NaN: [x <= y] and [y <= z] give [x <= z]. *)
Lemma fltb_negtrans (x y z : float64) :
  is_nan y = false ->
  fltb y x = false -> fltb z y = false -> fltb z x = false.
Proof.
  intros Ny H1 H2.
  destruct (fltb z x) eqn:F; [|reflexivity].
  destruct (fltb_is_nan _ _ F) as [Nz Nx].
  apply (fltb_key z x Nz Nx) in F.
  assert (K1 : ~ key_lt (order_key y) (order_key x))
    by (intros K; apply (fltb_key y x Ny Nx) in K; congruence).
  assert (K2 : ~ key_lt (order_key z) (order_key y))
    by (intros K; apply (fltb_key z y Nz Ny) in K; congruence).
  exfalso. unfold key_lt in *.
  destruct (order_key x) as [[a b] c], (order_key y) as [[a' b'] c'],
           (order_key z) as [[a'' b''] c'']. lia.
Qed.

Lemma feqb_unordered (x y v : float64) :
  feqb x v = true -> feqb y v = true -> fltb x y = false.
Proof.
  intros H1 H2. apply feqb_key in H1 as (Nx & _ & K1).
  apply feqb_key in H2 as (Ny & _ & K2).
  destruct (fltb x y) eqn:F; [|reflexivity].
  apply (fltb_key x y Nx Ny) in F. rewrite K1, K2 in F.
  unfold key_lt in F. destruct (order_key v) as [[a b] c]. lia.
Qed.

Lemma str_eqb_eq (a b : str) : str_eqb a b = true <-> a = b.
Proof.
  revert b. induction a as [|x a IH]; intros [|y b]; simpl;
    try (split; [discriminate|discriminate]); [tauto|].
  rewrite andb_true_iff, N.eqb_eq, IH. split.
  - now intros [-> ->].
  - intros H; inversion H; auto.
Qed.

Lemma str_eqb_refl (a : str) : str_eqb a a = true.
Proof. now apply str_eqb_eq. Qed.

Lemma branch_key_eqb_eq (a b : branch_key_t) :
  branch_key_eqb a b = true <-> a = b.
Proof.
  destruct a as [[[y1 m1] c1] b1], b as [[[y2 m2] c2] b2]. simpl.
  rewrite !andb_true_iff, !str_eqb_eq. split.
  - now intros [[[-> ->] ->] ->].
  - intros H; inversion H; auto.
Qed.

Lemma constituency_key_eqb_eq (a b : constituency_key_t) :
  constituency_key_eqb a b = true <-> a = b.
Proof.
  destruct a as [[y1 m1] c1], b as [[y2 m2] c2]. simpl.
  rewrite !andb_true_iff, !str_eqb_eq. split.
  - now intros [[-> ->] ->].
  - intros H; inversion H; auto.
Qed.

Section GroupByFacts.
Context {K A : Type}.
Variable key_eqb : K -> K -> bool.
Variable key_ltb : K -> K -> bool.
Variable key : A -> option K.
Hypothesis key_eqb_eq : forall a b, key_eqb a b = true <-> a = b.

Lemma key_eqb_neq (a b : K) : a <> b -> key_eqb a b = false.
Proof.
  intros H. destruct (key_eqb a b) eqn:E; [|reflexivity].
  now apply key_eqb_eq in E.
Qed.

Lemma add_to_group_keys (k : K) (a : A) (gs : list (K * list A)) :
  map fst (add_to_group key_eqb k a gs) =
  if existsb (key_eqb k) (map fst gs) then map fst gs
  else map fst gs ++ [k].
Proof.
  induction gs as [|[k' g] gs IH]; simpl; [reflexivity|].
  destruct (key_eqb k k'); simpl; [reflexivity|].
  rewrite IH. now destruct (existsb _ _).
Qed.

Lemma add_to_group_NoDup (k : K) (a : A) (gs : list (K * list A)) :
  NoDup (map fst gs) -> NoDup (map fst (add_to_group key_eqb k a gs)).
Proof.
  intros H. rewrite add_to_group_keys.
  destruct (existsb _ _) eqn:E; [exact H|].
  apply NoDup_app; [exact H|repeat constructor; intros []|].
  intros x Hx [Hk|[]]. subst x.
  assert (E' : existsb (key_eqb k) (map fst gs) = true).
  { apply existsb_exists. exists k. split; [exact Hx|now apply key_eqb_eq]. }
  congruence.
Qed.

Lemma add_to_group_In (k : K) (a : A) (gs : list (K * list A))
      (k' : K) (g' : list A) :
  NoDup (map fst gs) ->
  (In (k', g') (add_to_group key_eqb k a gs) <->
   (k' <> k /\ In (k', g') gs) \/
   (k' = k /\ ((exists g, In (k, g) gs /\ g' = g ++ [a]) \/
               ((forall g, ~ In (k, g) gs) /\ g' = [a])))).
Proof.
  induction gs as [|[k0 g0] gs IH]; intros Hn.
  - simpl. split.
    + intros [H|[]]. inversion H; subst. right. split; [reflexivity|].
      right. split; [intros g []|reflexivity].
    + intros [[_ []]|[-> [[g [[] _]]|[_ ->]]]]. now left.
  - inversion Hn as [|? ? Hk0 Hn']; subst. specialize (IH Hn').
    cbn [add_to_group]. destruct (key_eqb k k0) eqn:E.
    + apply key_eqb_eq in E. subst k0. split.
      * intros [H|H].
        -- inversion H; subst. right. split; [reflexivity|]. left.
           exists g0. split; [now left|reflexivity].
        -- left. split; [|now right]. intros ->. apply Hk0.
           now apply (in_map fst) in H.
      * intros [[Hne [H|H]]|[-> [[g [[H|H] ->]]|[Hno ->]]]].
        -- inversion H; subst. now contradiction Hne.
        -- now right.
        -- inversion H; subst. now left.
        -- exfalso. apply Hk0. now apply (in_map fst) in H.
        -- exfalso. apply (Hno g0). now left.
    + assert (Hne : k <> k0)
        by (intros ->; rewrite (proj2 (key_eqb_eq k0 k0) eq_refl) in E;
            discriminate).
      split.
      * intros [H|H].
        -- inversion H; subst. left. split; [congruence|now left].
        -- apply IH in H.
           destruct H as [[H1 H2]|[-> [[g [H ->]]|[Hno ->]]]].
           ++ left. split; [exact H1|now right].
           ++ right. split; [reflexivity|]. left. exists g.
              split; [now right|reflexivity].
           ++ right. split; [reflexivity|]. right.
              split; [|reflexivity].
              intros g [H|H]; [inversion H; congruence|now apply (Hno g)].
      * intros [[H1 [H|H]]|[-> [[g [[H|H] ->]]|[Hno ->]]]].
        -- now left.
        -- right. apply IH. left. now split.
        -- inversion H; congruence.
        -- right. apply IH. right. split; [reflexivity|]. left.
           now exists g.
        -- right. apply IH. right. split; [reflexivity|]. right.
           split; [|reflexivity]. intros g H. apply (Hno g). now right.
Qed.

Lemma collect_snoc (rows : list A) (r : A) :
  collect key_eqb key (rows ++ [r]) =
  match key r with
  | Some k => add_to_group key_eqb k r (collect key_eqb key rows)
  | None => collect key_eqb key rows
  end.
Proof. unfold collect. now rewrite fold_left_app. Qed.

Lemma in_group_same (k : K) (r : A) :
  key r = Some k -> in_group key_eqb key k r = true.
Proof. unfold in_group. intros ->. now apply key_eqb_eq. Qed.

Lemma in_group_other (k k' : K) (r : A) :
  key r = Some k -> k' <> k -> in_group key_eqb key k' r = false.
Proof.
  unfold in_group. intros -> H. apply key_eqb_neq. congruence.
Qed.

Lemma in_group_none (k : K) (r : A) :
  key r = None -> in_group key_eqb key k r = false.
Proof. unfold in_group. now intros ->. Qed.

Lemma in_group_key (k : K) (r : A) :
  in_group key_eqb key k r = true <-> key r = Some k.
Proof.
  unfold in_group. destruct (key r) as [k'|]; split; try discriminate.
  - intros H. apply key_eqb_eq in H. now subst.
  - intros H. inversion H. now apply key_eqb_eq.
Qed.

Lemma collect_spec (rows : list A) :
  NoDup (map fst (collect key_eqb key rows)) /\
  forall k g, In (k, g) (collect key_eqb key rows) <->
              g = filter (in_group key_eqb key k) rows /\ g <> [].
Proof.
  induction rows as [|r rows [IHn IH]] using rev_ind.
  - split; [constructor|]. intros k g. simpl. split; [intros []|].
    intros [-> H]. now contradiction H.
  - rewrite collect_snoc. destruct (key r) as [k|] eqn:Ek.
    + split; [now apply add_to_group_NoDup|].
      intros k' g'. rewrite (add_to_group_In _ _ _ _ _ IHn), filter_app.
      cbn [filter]. split.
      * intros [[Hne H]|[-> [[g [H ->]]|[Hno ->]]]].
        -- rewrite (in_group_other _ _ _ Ek Hne), app_nil_r.
           now apply IH.
        -- rewrite (in_group_same _ _ Ek). apply IH in H as [-> _].
           split; [reflexivity|]. now destruct (filter _ rows).
        -- rewrite (in_group_same _ _ Ek).
           destruct (filter (in_group key_eqb key k) rows) as [|x l] eqn:F.
           ++ now split.
           ++ exfalso. apply (Hno (x :: l)). apply IH. now split.
      * intros [-> Hne].
        destruct (in_group key_eqb key k' r) eqn:G.
        -- apply in_group_key in G. rewrite Ek in G. inversion G; subst k'.
           right. split; [reflexivity|].
           destruct (filter (in_group key_eqb key k) rows) as [|x l] eqn:F.
           ++ right. split; [|reflexivity]. intros g Hg.
              apply IH in Hg as [-> Hg]. now rewrite F in Hg.
           ++ left. exists (x :: l). split; [|reflexivity].
              apply IH. now split; [rewrite F|].
        -- left. rewrite app_nil_r in *. split.
           ++ intros ->. now rewrite (in_group_same _ _ Ek) in G.
           ++ now apply IH.
    + split; [exact IHn|]. intros k g. rewrite IH, filter_app.
      cbn [filter]. now rewrite (in_group_none _ _ Ek), app_nil_r.
Qed.

Lemma groupby_spec (rows : list A) :
  NoDup (map fst (groupby key_eqb key_ltb key rows)) /\
  forall k g, In (k, g) (groupby key_eqb key_ltb key rows) <->
              g = filter (in_group key_eqb key k) rows /\ g <> [].
Proof.
  destruct (collect_spec rows) as [Hn H]. unfold groupby. split.
  - eapply Permutation_NoDup; [|exact Hn].
    apply Permutation_map, Permutation_sym, stable_sort_perm.
  - intros k g. now rewrite stable_sort_In.
Qed.

(** A row with a blank in its key is in no group. *)
Lemma groupby_no_key (rows : list A) (r : A) (k : K) (g : list A) :
  key r = None -> In (k, g) (groupby key_eqb key_ltb key rows) -> ~ In r g.
Proof.
  intros Hk Hg Hr. apply groupby_spec in Hg as [-> _].
  apply filter_In in Hr as [_ Hr]. now rewrite in_group_none in Hr.
Qed.

(** Every row with a key is in the group of its key. *)
Lemma groupby_covers (rows : list A) (r : A) (k : K) :
  In r rows -> key r = Some k ->
  exists g, In (k, g) (groupby key_eqb key_ltb key rows) /\ In r g.
Proof.
  intros Hin Hk. exists (filter (in_group key_eqb key k) rows).
  assert (Hr : In r (filter (in_group key_eqb key k) rows)).
  { apply filter_In. split; [exact Hin|now apply in_group_same]. }
  split; [|exact Hr].
  apply groupby_spec. split; [reflexivity|].
  intros E. now rewrite E in Hr.
Qed.
End GroupByFacts.

(** ** Columns *)

Lemma present_In {A : Type} (l : list (option A)) (a : A) :
  In a (present l) <-> In (Some a) l.
Proof.
  induction l as [|[x|] l IH]; simpl.
  - tauto.
  - rewrite IH. split; intros [H|H]; auto; left; congruence.
  - rewrite IH. split; [auto|]. intros [H|H]; [discriminate|exact H].
Qed.

Lemma present_all {A B : Type} (f : A -> option B) (l : list A) :
  Forall (fun r => isna (f r) = false) l ->
  map f l = map Some (present (map f l)).
Proof.
  induction 1 as [|r l Hr _ IH]; simpl; [reflexivity|].
  destruct (f r); [|discriminate]. simpl. now rewrite <- IH.
Qed.

Lemma unique_In (l : list str) (x : str) : In x (unique l) <-> In x l.
Proof.
  induction l as [|y l IH]; simpl; [tauto|].
  rewrite filter_In, IH. split.
  - intros [H|[H _]]; auto.
  - intros [H|H]; [now left|].
    destruct (str_eqb y x) eqn:E.
    + left. now apply str_eqb_eq.
    + right. now split.
Qed.

Lemma unique_NoDup (l : list str) : NoDup (unique l).
Proof.
  induction l as [|y l IH]; simpl; constructor.
  - rewrite filter_In. intros [_ H]. now rewrite str_eqb_refl in H.
  - now apply NoDup_filter.
Qed.

Lemma fold_max_spec (l : list Z) (x : Z) :
  In (fold_left Z.max l x) (x :: l) /\
  Forall (fun y => y <= fold_left Z.max l x) (x :: l).
Proof.
  revert x. induction l as [|y l IH]; intros x; simpl.
  - split; [now left|]. repeat constructor. lia.
  - destruct (IH (Z.max x y)) as [H1 H2]. split.
    + destruct H1 as [H1|H1]; [|now right; right].
      rewrite <- H1. destruct (Z.max_spec x y) as [[_ ->]|[_ ->]]; auto.
    + inversion H2 as [|? ? Hm Hl]; subst.
      constructor; [lia|]. constructor; [lia|exact Hl].
Qed.

Lemma max_Z_spec (l : list Z) :
  match max_Z l with
  | Some t => In t l /\ forall t', In t' l -> t' <= t
  | None => l = []
  end.
Proof.
  destruct l as [|x l]; simpl; [reflexivity|].
  destruct (fold_max_spec l x) as [H1 H2]. split; [exact H1|].
  rewrite Forall_forall in H2. exact H2.
Qed.

(** ** Cleaning *)

Lemma df_clean_In (df : list Row) (r : Row) :
  In r (df_clean df) <->
  In r df /\ isna (row_Constituency r) = false
  /\ isna (row_Branch r) = false /\ isna (row_Attendance r) = false.
Proof.
  unfold df_clean, dropna. rewrite filter_In. simpl.
  rewrite !andb_true_iff, !negb_true_iff. tauto.
Qed.

Lemma group_attendance (df : list Row) (p : Row -> bool) :
  Forall (fun r => isna (row_Attendance r) = false) (filter p (df_clean df)).
Proof.
  apply Forall_forall. intros r Hr. apply filter_In in Hr as [Hr _].
  now apply df_clean_In in Hr.
Qed.

(** ** The branch rollup *)

Lemma bm_key_branch_row (k : branch_key_t) (g : list Row) :
  bm_key (branch_row (k, g)) = k.
Proof. now destruct k as [[[y m] c] b]. Qed.

Lemma cm_key_constituency_row (k : constituency_key_t) (g : list Row) :
  cm_key (constituency_row (k, g)) = k.
Proof. now destruct k as [[y m] c]. Qed.

Lemma branch_monthly_group (df : list Row) (row : BranchMonthly) :
  In row (branch_monthly df) ->
  let g := filter (in_group branch_key_eqb branch_key (bm_key row))
                  (df_clean df) in
  g <> [] /\ row = branch_row (bm_key row, g).
Proof.
  unfold branch_monthly. rewrite in_map_iff. intros [[k g] [<- H]].
  rewrite bm_key_branch_row.
  apply (groupby_spec _ branch_key_ltb _ branch_key_eqb_eq) in H
    as [-> Hne].
  now split.
Qed.

Lemma constituency_monthly_group (df : list Row) (row : ConstituencyMonthly) :
  In row (constituency_monthly df) ->
  let g := filter (in_group constituency_key_eqb constituency_key
                            (cm_key row)) (df_clean df) in
  g <> [] /\ row = constituency_row (cm_key row, g).
Proof.
  unfold constituency_monthly. rewrite in_map_iff. intros [[k g] [<- H]].
  rewrite cm_key_constituency_row.
  apply (groupby_spec _ constituency_key_ltb _ constituency_key_eqb_eq) in H
    as [-> Hne].
  now split.
Qed.

(** C4.  Every row of the branch rollup stands for the group of the
    cleaned rows with its (year, month, constituency, branch): the group is
    not empty, each of its rows has an attendance, the average is the mean
    of these attendances rounded to two decimals, the target is the largest
    target of the group (blank when the group has none), and the rate is
    average / target * 100 rounded to two decimals.  Every cleaned row with
    a whole key has its row in the rollup.  Attendances 4, 6, 8 with targets
    10, 10, 12 under one key give the average 6.0 and the target 12. *)
Theorem branch_rollup (df : list Row) :
  (forall row, In row (branch_monthly df) ->
     let g := filter (in_group branch_key_eqb branch_key (bm_key row))
                     (df_clean df) in
     exists atts,
       g <> [] /\
       map row_Attendance g = map Some atts /\
       bm_Monthly_Attendance_Avg row = np_round2 (mean atts) /\
       match bm_Target row with
       | Some t => In (Some t) (map row_Target g) /\
                   forall t', In (Some t') (map row_Target g) -> t' <= t
       | None => forall t', ~ In (Some t') (map row_Target g)
       end /\
       bm_Attendance_Rate row =
       np_round2 (fmul (fdiv (bm_Monthly_Attendance_Avg row)
                             (cell (bm_Target row))) (of_Z 100))) /\
  (forall r k, In r (df_clean df) -> branch_key r = Some k ->
               exists row, In row (branch_monthly df) /\ bm_key row = k) /\
  branch_monthly three_weeks =
  [ mkBranchMonthly (of_string "2025") (of_string "July")
                    (of_string "North") (of_string "B1")
                    (of_Z 6) (Some 12) (of_Z 50) ].
Proof.
  split; [|split].
  - intros row Hrow g.
    destruct (branch_monthly_group df row Hrow) as [Hne Hr]. fold g in Hne, Hr.
    exists (present (map row_Attendance g)).
    split; [exact Hne|].
    split; [apply present_all, group_attendance|].
    rewrite Hr. destruct (bm_key row) as [[[y m] c] b]. cbn.
    split; [reflexivity|]. split; [|reflexivity].
    pose proof (max_Z_spec (present (map row_Target g))) as Hm.
    destruct (max_Z (present (map row_Target g))) as [t|].
    + destruct Hm as [H1 H2]. split; [now apply present_In|].
      intros t' Ht'. now apply H2, present_In.
    + intros t' Ht'. apply present_In in Ht'. now rewrite Hm in Ht'.
  - intros r k Hr Hk.
    destruct (groupby_covers branch_key_eqb branch_key_ltb branch_key
                             branch_key_eqb_eq _ r k Hr Hk) as [g [Hg _]].
    exists (branch_row (k, g)). split; [|apply bm_key_branch_row].
    unfold branch_monthly. now apply in_map.
  - vm_compute. reflexivity.
Qed.

(** C1, amended.  Every row of the constituency rollup stands for the
    group of the cleaned rows with its (year, month, constituency).  The
    report count is the number of distinct weeks of the group, not the
    number of its rows; the average is the sum of the attendances divided by
    that count, rounded to two decimals; the target is the sum of the
    targets divided by that count, rounded to an integer; the rate is
    average / target * 100 rounded to two decimals.  Two branches reporting
    4 of 10 and 6 of 12 in two different weeks give the count 2, the
    average 5.0 and the target 11. *)
Theorem constituency_rollup (df : list Row) :
  (forall row, In row (constituency_monthly df) ->
     let g := filter (in_group constituency_key_eqb constituency_key
                               (cm_key row)) (df_clean df) in
     exists weeks atts,
       g <> [] /\
       NoDup weeks /\
       (forall w, In w weeks <-> In (Some w) (map row_Week g)) /\
       map row_Attendance g = map Some atts /\
       cm_Monthly_Attendance_Avg row =
       np_round2 (fdiv (of_Z (sum_Z atts))
                       (of_Z (Z.of_nat (length weeks)))) /\
       cm_Target row =
       np_round0 (fdiv (of_Z (sum_Z (present (map row_Target g))))
                       (of_Z (Z.of_nat (length weeks)))) /\
       cm_Attendance_Rate row =
       np_round2 (fmul (fdiv (cm_Monthly_Attendance_Avg row) (cm_Target row))
                       (of_Z 100))) /\
  (forall r k, In r (df_clean df) -> constituency_key r = Some k ->
               exists row, In row (constituency_monthly df) /\ cm_key row = k)
  /\
  constituency_monthly two_weeks =
  [ mkConstituencyMonthly (of_string "2025") (of_string "July")
                          (of_string "North") 2 (of_Z 5) (of_Z 11)
                          (np_round2 (fmul (fdiv (of_Z 5) (of_Z 11))
                                           (of_Z 100))) ].
Proof.
  split; [|split].
  - intros row Hrow g.
    destruct (constituency_monthly_group df row Hrow) as [Hne Hr].
    fold g in Hne, Hr.
    exists (unique (present (map row_Week g))),
           (present (map row_Attendance g)).
    split; [exact Hne|].
    split; [apply unique_NoDup|].
    split; [intros w; now rewrite unique_In, present_In|].
    split; [apply present_all, group_attendance|].
    rewrite Hr. destruct (cm_key row) as [[y m] c]. cbn.
    repeat split.
  - intros r k Hr Hk.
    destruct (groupby_covers constituency_key_eqb constituency_key_ltb
                             constituency_key constituency_key_eqb_eq
                             _ r k Hr Hk) as [g [Hg _]].
    exists (constituency_row (k, g)).
    split; [|apply cm_key_constituency_row].
    unfold constituency_monthly. now apply in_map.
  - vm_compute. reflexivity.
Qed.

(** Two branches reporting 4 of 10 and 6 of 12 in the same week: two rows,
    but a report count of 1, hence the average 10.0 and the target 22. *)
Lemma same_week_reports_count_once :
  length (df_clean same_week) = 2%nat /\
  Reports_Count (constituency_agg (df_clean same_week)) = 1%nat /\
  constituency_monthly same_week =
  [ mkConstituencyMonthly (of_string "2025") (of_string "July")
                          (of_string "North") 2 (of_Z 10) (of_Z 22)
                          (np_round2 (fmul (fdiv (of_Z 10) (of_Z 22))
                                           (of_Z 100))) ] /\
  of_Z 10 <> of_Z 5 /\ of_Z 22 <> of_Z 11.
Proof.
  repeat split; try (vm_compute; reflexivity); vm_compute; discriminate.
Qed.


(** ** Division by a zero target *)

Lemma branch_rate (df : list Row) (row : BranchMonthly) :
  In row (branch_monthly df) ->
  bm_Attendance_Rate row =
  rate_of (bm_Monthly_Attendance_Avg row) (cell (bm_Target row)).
Proof.
  unfold branch_monthly. rewrite in_map_iff.
  intros [[[[[y m] c] b] g] [<- _]]. reflexivity.
Qed.

Lemma constituency_rate (df : list Row) (row : ConstituencyMonthly) :
  In row (constituency_monthly df) ->
  cm_Attendance_Rate row =
  rate_of (cm_Monthly_Attendance_Avg row) (cm_Target row).
Proof.
  unfold constituency_monthly. rewrite in_map_iff.
  intros [[[[y m] c] g] [<- _]]. reflexivity.
Qed.

(** ** Lists *)

Lemma filter_partition {A : Type} (p : A -> bool) (l : list A) :
  Permutation (filter (fun x => negb (p x)) l ++ filter p l) l.
Proof.
  induction l as [|x l IH]; simpl; [constructor|].
  destruct (p x); simpl.
  - apply Permutation_sym, Permutation_cons_app, Permutation_sym, IH.
  - now constructor.
Qed.

Lemma filter_implied {A : Type} (c p : A -> bool) (l : list A) :
  (forall x, c x = true -> p x = true) ->
  filter c (filter p l) = filter c l.
Proof.
  intros H. induction l as [|x l IH]; simpl; [reflexivity|].
  destruct (p x) eqn:Px; simpl.
  - now rewrite IH.
  - destruct (c x) eqn:Cx; [|exact IH]. apply H in Cx. congruence.
Qed.

Lemma filter_none {A : Type} (c : A -> bool) (l : list A) :
  (forall x, In x l -> c x = false) -> filter c l = [].
Proof.
  intros H. induction l as [|x l IH]; simpl; [reflexivity|].
  rewrite (H x (or_introl eq_refl)). apply IH. intros y Hy. apply H. now right.
Qed.

Lemma filter_all {A : Type} (c : A -> bool) (l : list A) :
  (forall x, In x l -> c x = true) -> filter c l = l.
Proof.
  intros H. induction l as [|x l IH]; simpl; [reflexivity|].
  rewrite (H x (or_introl eq_refl)). f_equal. apply IH.
  intros y Hy. apply H. now right.
Qed.

Lemma filter_map_comm {A B : Type} (f : A -> B) (c : B -> bool) (l : list A) :
  filter c (map f l) = map f (filter (fun x => c (f x)) l).
Proof.
  induction l as [|x l IH]; simpl; [reflexivity|].
  destruct (c (f x)); simpl; now rewrite IH.
Qed.

Lemma all_may_precede {A : Type} (before : A -> A -> bool) (l : list A) :
  (forall a b, In b l -> before b a = false) ->
  StronglySorted (may_precede before) l.
Proof.
  intros H. induction l as [|x l IH]; constructor.
  - apply IH. intros a b Hb. apply H. now right.
  - apply Forall_forall. intros y Hy. apply H. now right.
Qed.

(** ** The two rankings *)

Section Ranking.
Variable rows : list BranchMonthly.

Lemma by_avg_descending_perm : Permutation (by_avg_descending rows) rows.
Proof.
  unfold by_avg_descending.
  eapply perm_trans; [|apply (filter_partition avg_isnan)].
  apply Permutation_app_tail, stable_sort_perm.
Qed.

Lemma by_avg_ascending_perm : Permutation (by_avg_ascending rows) rows.
Proof.
  unfold by_avg_ascending.
  eapply perm_trans; [|apply (filter_partition avg_isnan)].
  apply Permutation_app_tail, stable_sort_perm.
Qed.

Lemma with_avg (r : BranchMonthly) :
  In r (filter (fun r => negb (avg_isnan r)) rows) ->
  is_nan (avg r) = false.
Proof.
  intros H. apply filter_In in H as [_ H]. now apply negb_true_iff in H.
Qed.

Lemma without_avg (r : BranchMonthly) :
  In r (filter avg_isnan rows) -> avg r = nan.
Proof.
  intros H. apply filter_In in H as [_ H]. unfold avg_isnan, avg in *.
  now destruct (bm_Monthly_Attendance_Avg r).
Qed.

(** No row is followed by one with a strictly larger average. *)
Lemma by_avg_descending_sorted :
  StronglySorted (may_precede above) (by_avg_descending rows).
Proof.
  unfold by_avg_descending. apply StronglySorted_app.
  - apply (stable_sort_sorted above (fun r => is_nan (avg r) = false)).
    + intros a b. unfold above. apply fltb_asym.
    + intros a b c _ Hb _. unfold above. intros H1 H2.
      now apply (fltb_negtrans _ (avg b)).
    + apply Forall_forall. apply with_avg.
  - apply all_may_precede. intros a b Hb. apply without_avg in Hb.
    unfold above, avg in *. rewrite Hb. apply fltb_nan_r.
  - intros a b _ Hb. apply without_avg in Hb.
    unfold may_precede, above, avg in *. rewrite Hb. apply fltb_nan_r.
Qed.

(** No row is followed by one with a strictly smaller average. *)
Lemma by_avg_ascending_sorted :
  StronglySorted (may_precede below) (by_avg_ascending rows).
Proof.
  unfold by_avg_ascending. apply StronglySorted_app.
  - apply (stable_sort_sorted below (fun r => is_nan (avg r) = false)).
    + intros a b. unfold below. apply fltb_asym.
    + intros a b c _ Hb _. unfold below. intros H1 H2.
      now apply (fltb_negtrans _ (avg b)).
    + apply Forall_forall. apply with_avg.
  - apply all_may_precede. intros a b Hb. apply without_avg in Hb.
    unfold below, avg in *. now rewrite Hb.
  - intros a b _ Hb. apply without_avg in Hb.
    unfold may_precede, below, avg in *. now rewrite Hb.
Qed.

Lemma tied_with_avg (v : float64) (r : BranchMonthly) :
  tied v r = true -> negb (avg_isnan r) = true.
Proof.
  unfold tied, avg_isnan. intros H. apply feqb_key in H as [H _].
  unfold avg in H. now rewrite H.
Qed.

(** Rows with equal averages keep their table order. *)
Lemma by_avg_descending_stable (v : float64) :
  filter (tied v) (by_avg_descending rows) = filter (tied v) rows.
Proof.
  unfold by_avg_descending. rewrite filter_app.
  rewrite (filter_none (tied v) (filter avg_isnan rows)).
  - rewrite app_nil_r, (stable_sort_filter above (tied v)).
    + apply filter_implied, tied_with_avg.
    + intros a b Ha Hb. unfold above, tied in *.
      now apply (feqb_unordered _ _ v).
  - intros x Hx. apply filter_In in Hx as [_ Hx].
    destruct (tied v x) eqn:T; [|reflexivity].
    apply tied_with_avg in T. now rewrite Hx in T.
Qed.

Lemma by_avg_ascending_stable (v : float64) :
  filter (tied v) (by_avg_ascending rows) = filter (tied v) rows.
Proof.
  unfold by_avg_ascending. rewrite filter_app.
  rewrite (filter_none (tied v) (filter avg_isnan rows)).
  - rewrite app_nil_r, (stable_sort_filter below (tied v)).
    + apply filter_implied, tied_with_avg.
    + intros a b Ha Hb. unfold below, tied in *.
      now apply (feqb_unordered _ _ v).
  - intros x Hx. apply filter_In in Hx as [_ Hx].
    destruct (tied v x) eqn:T; [|reflexivity].
    apply tied_with_avg in T. now rewrite Hx in T.
Qed.

Lemma nlargest_length (n : nat) :
  length (nlargest n rows) = Nat.min n (length rows).
Proof.
  unfold nlargest.
  now rewrite length_firstn, (Permutation_length by_avg_descending_perm).
Qed.

Lemma nsmallest_length (n : nat) :
  length (nsmallest n rows) = Nat.min n (length rows).
Proof.
  unfold nsmallest.
  now rewrite length_firstn, (Permutation_length by_avg_ascending_perm).
Qed.

Lemma nlargest_incl (n : nat) (r : BranchMonthly) :
  In r (nlargest n rows) -> In r rows.
Proof.
  intros H. apply (Permutation_in _ by_avg_descending_perm).
  unfold nlargest in H.
  rewrite <- (firstn_skipn n (by_avg_descending rows)).
  apply in_or_app. now left.
Qed.

Lemma nsmallest_incl (n : nat) (r : BranchMonthly) :
  In r (nsmallest n rows) -> In r rows.
Proof.
  intros H. apply (Permutation_in _ by_avg_ascending_perm).
  unfold nsmallest in H.
  rewrite <- (firstn_skipn n (by_avg_ascending rows)).
  apply in_or_app. now left.
Qed.
End Ranking.

Lemma above_below (a b : BranchMonthly) : above b a = below a b.
Proof. reflexivity. Qed.

Lemma distinct_avgs_spec (l : list BranchMonthly) :
  distinct_avgs l = true ->
  NoDup l /\
  forall a b, In a l -> In b l -> a <> b -> above a b || below a b = true.
Proof.
  induction l as [|x l IH]; simpl.
  - intros _. split; [constructor|intros a b []].
  - intros H. apply andb_true_iff in H as [Hx Hl].
    destruct (IH Hl) as [Hn Hp]. rewrite forallb_forall in Hx. split.
    + constructor; [|exact Hn]. intros Hin. specialize (Hx x Hin).
      unfold above, below in Hx. rewrite fltb_irrefl in Hx. discriminate.
    + intros a b Ha Hb Hne. destruct Ha as [Ha|Ha], Hb as [Hb|Hb].
      * congruence.
      * subst a. now apply Hx.
      * subst b. specialize (Hx a Ha). unfold above, below in *.
        now rewrite orb_comm.
      * now apply Hp.
Qed.

Lemma StronglySorted_distinct {A : Type} (R : A -> A -> Prop) (l : list A) :
  StronglySorted R l -> NoDup l ->
  StronglySorted (fun a b => R a b /\ a <> b) l.
Proof.
  induction 1 as [|x l Hs IH Hx]; intros Hn; [constructor|].
  inversion Hn as [|? ? Hnx Hn']; subst. constructor; [now apply IH|].
  rewrite Forall_forall in *. intros y Hy. split; [now apply Hx|].
  intros ->. now apply Hnx.
Qed.

Section Complement.
Variable rows : list BranchMonthly.
Hypothesis distinct : distinct_avgs rows = true.

Lemma strictly_descending :
  StronglySorted (fun a b => below b a = true) (by_avg_descending rows).
Proof.
  destruct (distinct_avgs_spec rows distinct) as [Hn Hp].
  pose proof (by_avg_descending_perm rows) as P.
  pose proof (by_avg_descending_sorted rows) as S.
  apply StronglySorted_distinct in S;
    [|exact (Permutation_NoDup (Permutation_sym P) Hn)].
  revert S. apply StronglySorted_weaken.
  intros a b Ha Hb [H1 H2]. unfold may_precede in H1.
  apply (Permutation_in _ P) in Ha. apply (Permutation_in _ P) in Hb.
  specialize (Hp a b Ha Hb H2). rewrite above_below in H1.
  rewrite <- (above_below b a). apply orb_true_iff in Hp as [Hp|Hp];
    [exact Hp|congruence].
Qed.

Lemma strictly_ascending :
  StronglySorted (fun a b => below a b = true) (by_avg_ascending rows).
Proof.
  destruct (distinct_avgs_spec rows distinct) as [Hn Hp].
  pose proof (by_avg_ascending_perm rows) as P.
  pose proof (by_avg_ascending_sorted rows) as S.
  apply StronglySorted_distinct in S;
    [|exact (Permutation_NoDup (Permutation_sym P) Hn)].
  revert S. apply StronglySorted_weaken.
  intros a b Ha Hb [H1 H2]. unfold may_precede in H1.
  apply (Permutation_in _ P) in Ha. apply (Permutation_in _ P) in Hb.
  specialize (Hp a b Ha Hb H2).
  apply orb_true_iff in Hp as [Hp|Hp]; [|exact Hp].
  rewrite <- (above_below b a) in H1. congruence.
Qed.

(** With distinct averages the ascending order is the descending order
    read backwards. *)
Lemma ascending_rev_descending :
  by_avg_ascending rows = rev (by_avg_descending rows).
Proof.
  apply (sorted_perm_unique (fun a b => below a b = true)).
  - intros a b H1 H2. unfold below in *.
    apply fltb_asym in H1. congruence.
  - intros a H. unfold below in H. rewrite fltb_irrefl in H. discriminate.
  - apply strictly_ascending.
  - apply (StronglySorted_rev _ _ strictly_descending).
  - eapply perm_trans; [apply by_avg_ascending_perm|].
    eapply perm_trans; [apply Permutation_sym, by_avg_descending_perm|].
    apply Permutation_rev.
Qed.

Lemma top_bottom_complementary (n k : nat) :
  length rows = (n + k)%nat ->
  Permutation (nlargest n rows ++ nsmallest k rows) rows.
Proof.
  intros Hl. unfold nlargest, nsmallest.
  rewrite ascending_rev_descending, firstn_rev.
  rewrite (Permutation_length (by_avg_descending_perm rows)), Hl.
  replace (n + k - k)%nat with n by lia.
  eapply perm_trans; [|apply by_avg_descending_perm].
  rewrite <- (firstn_skipn n (by_avg_descending rows)) at 3.
  apply Permutation_app_head, Permutation_sym, Permutation_rev.
Qed.
End Complement.

(** ** The block of a month *)

Section PerMonth.
Variable select : list BranchMonthly -> list BranchMonthly.
Hypothesis select_incl : forall g r, In r (select g) -> In r g.
Variable bm : list BranchMonthly.

Lemma select_nil : select [] = [].
Proof.
  destruct (select []) as [|r l] eqn:E; [reflexivity|].
  exfalso. apply (select_incl [] r). rewrite E. now left.
Qed.

Lemma block_of_groups (m : str) (G : list (str * list BranchMonthly)) :
  NoDup (map fst G) ->
  (forall k g, In (k, g) G -> g = filter (of_month k) bm) ->
  filter (of_month m) (flat_map (fun kg => select (snd kg)) G) =
  if existsb (str_eqb m) (map fst G)
  then select (filter (of_month m) bm) else [].
Proof.
  induction G as [|[k g] G IH]; intros Hn HG; [reflexivity|].
  inversion Hn as [|? ? Hk Hn']; subst.
  cbn [flat_map map fst snd existsb]. rewrite filter_app, IH; auto.
  2:{ intros k' g' H. apply HG. now right. }
  assert (Eg : g = filter (of_month k) bm) by (apply HG; now left).
  destruct (str_eqb m k) eqn:E.
  - apply str_eqb_eq in E. subst k.
    replace (existsb (str_eqb m) (map fst G)) with false.
    + rewrite app_nil_r, orb_true_l, <- Eg. apply filter_all.
      intros r Hr. apply select_incl in Hr. rewrite Eg in Hr.
      now apply filter_In in Hr.
    + symmetry. destruct (existsb (str_eqb m) (map fst G)) eqn:X;
        [|reflexivity].
      apply existsb_exists in X as [x [Hx Ex]].
      apply str_eqb_eq in Ex. subst x. contradiction.
  - rewrite orb_false_l, filter_none; [reflexivity|].
    intros r Hr. apply select_incl in Hr. rewrite Eg in Hr.
    apply filter_In in Hr as [_ Hr]. unfold of_month in *.
    apply str_eqb_eq in Hr. rewrite Hr.
    destruct (str_eqb k m) eqn:F; [|reflexivity].
    apply str_eqb_eq in F. subst. now rewrite str_eqb_refl in E.
Qed.

Lemma per_month_block (m : str) :
  month_block m (per_month select bm) =
  map performer (select (filter (of_month m) bm)).
Proof.
  unfold month_block, per_month. rewrite filter_map_comm. f_equal.
  change (fun x => str_eqb (pf_Month (performer x)) m) with (of_month m).
  destruct (groupby_spec str_eqb str_ltb (fun r => Some (bm_Month r))
                         str_eqb_eq bm) as [Hn Hs].
  rewrite block_of_groups; [|exact Hn|].
  - destruct (existsb _ _) eqn:X; [reflexivity|].
    destruct (filter (of_month m) bm) as [|r l] eqn:F;
      [now rewrite select_nil|].
    exfalso.
    assert (Hin : In (m, filter (of_month m) bm)
                     (groupby str_eqb str_ltb
                              (fun r => Some (bm_Month r)) bm)).
    { apply Hs. split; [reflexivity|]. now rewrite F. }
    apply (in_map fst) in Hin. simpl in Hin.
    assert (Y : existsb (str_eqb m)
                        (map fst (groupby str_eqb str_ltb
                                    (fun r => Some (bm_Month r)) bm))
                = true).
    { apply existsb_exists. exists m. split; [exact Hin|].
      apply str_eqb_refl. }
    congruence.
  - intros k g H. now apply Hs in H.
Qed.
End PerMonth.

Lemma per_month_incl (select : list BranchMonthly -> list BranchMonthly)
      (bm : list BranchMonthly) (p : Performer) :
  (forall g r, In r (select g) -> In r g) ->
  In p (per_month select bm) ->
  exists row, In row bm /\ p = performer row.
Proof.
  intros Hsel H. unfold per_month in H.
  apply in_map_iff in H as [row [<- H]].
  apply in_flat_map in H as [[k g] [Hg Hr]]. simpl in Hr.
  apply Hsel in Hr.
  apply (groupby_spec str_eqb str_ltb _ str_eqb_eq) in Hg as [-> _].
  apply filter_In in Hr as [Hr _]. now exists row.
Qed.

(** C5, amended.  For a month [m], with [rows] the rows of the rollup table
    of that month, of every constituency: the block of [m] in the top table
    is [nlargest n rows] and its block in the low table is
    [nsmallest n rows]; each has [min n (length rows)] rows.  The top
    selection is the beginning of an arrangement of [rows] in which no row
    is followed by one with a larger average, and in which rows with equal
    averages stand in table order; likewise the low selection, with
    smaller.  The averages alone decide, not the rates.  When no two
    averages are equal, the [n] largest and the [k] smallest of [n + k]
    rows are complementary.  The program itself always
    selects five rows ([top_performing_branches]). *)
Theorem ranker (n : nat) (bm : list BranchMonthly) (m : str) :
  let rows := filter (of_month m) bm in
  top_performing_branches bm = top_performers 5 bm /\
  low_performing_branches bm = low_performers 5 bm /\
  month_block m (top_performers n bm) = map performer (nlargest n rows) /\
  month_block m (low_performers n bm) = map performer (nsmallest n rows) /\
  length (nlargest n rows) = Nat.min n (length rows) /\
  length (nsmallest n rows) = Nat.min n (length rows) /\
  (exists rest,
      Permutation (nlargest n rows ++ rest) rows /\
      StronglySorted (fun a b => fltb (avg a) (avg b) = false)
                     (nlargest n rows ++ rest) /\
      forall v, filter (tied v) (nlargest n rows ++ rest)
                = filter (tied v) rows) /\
  (exists rest,
      Permutation (nsmallest n rows ++ rest) rows /\
      StronglySorted (fun a b => fltb (avg b) (avg a) = false)
                     (nsmallest n rows ++ rest) /\
      forall v, filter (tied v) (nsmallest n rows ++ rest)
                = filter (tied v) rows) /\
  (forall k,
      distinct_avgs rows = true ->
      length rows = (n + k)%nat ->
      Permutation (map performer (nlargest n rows)
                   ++ map performer (nsmallest k rows))
                  (map performer rows)).
Proof.
  intros rows. repeat split.
  - apply per_month_block. intros g r. apply nlargest_incl.
  - apply per_month_block. intros g r. apply nsmallest_incl.
  - apply nlargest_length.
  - apply nsmallest_length.
  - exists (skipn n (by_avg_descending rows)). unfold nlargest.
    rewrite firstn_skipn. split; [apply by_avg_descending_perm|].
    split; [apply by_avg_descending_sorted|apply by_avg_descending_stable].
  - exists (skipn n (by_avg_ascending rows)). unfold nsmallest.
    rewrite firstn_skipn. split; [apply by_avg_ascending_perm|].
    split; [apply by_avg_ascending_sorted|apply by_avg_ascending_stable].
  - intros k Hd Hl. rewrite <- map_app. apply Permutation_map.
    now apply top_bottom_complementary.
Qed.

Lemma ranker_witness :
  Permutation
    (map performer
         (nlargest 3 (filter (of_month (of_string "July")) six_distinct))
     ++ map performer
          (nsmallest 3 (filter (of_month (of_string "July")) six_distinct)))
    (map performer (filter (of_month (of_string "July")) six_distinct)).
Proof.
  destruct (ranker 3 six_distinct (of_string "July"))
    as (_ & _ & _ & _ & _ & _ & _ & _ & H).
  apply (H 3%nat); vm_compute; reflexivity.
Defined.

(** Six branches of one month with the same average 5.0: the three largest
    and the three smallest are the same three rows, the first three of the
    table; the last row is in neither. *)
Lemma tied_rows_not_complementary :
  length six_tied = 6%nat /\
  month_block (of_string "July") (top_performers 3 six_tied)
  = top_performers 3 six_tied /\
  length (top_performers 3 six_tied) = 3%nat /\
  top_performers 3 six_tied = low_performers 3 six_tied /\
  ~ Permutation (top_performers 3 six_tied ++ low_performers 3 six_tied)
                (map performer six_tied).
Proof.
  repeat split; try (vm_compute; reflexivity).
  intros P.
  set (last_row := performer (mkBranchMonthly
                      (of_string "2025") (of_string "July")
                      (of_string "North") (of_string "B6")
                      (of_Z 5) (Some 10) (of_Z 50))).
  assert (H : In last_row
                 (top_performers 3 six_tied ++ low_performers 3 six_tied)).
  { apply (Permutation_in _ (Permutation_sym P)). vm_compute. tauto. }
  vm_compute in H.
  repeat (destruct H as [H|H]; [discriminate H|]). exact H.
Qed.

Lemma rate_of_zero (x : float64) (s : bool) :
  rate_of x (S754_zero s) = quotient_by_zero x s.
Proof.
  destruct x as [sa|sa| |sa m e]; destruct s; try destruct sa; reflexivity.
Qed.

Lemma quotient_by_zero_special (x : float64) (s : bool) :
  is_inf (quotient_by_zero x s) || is_nan (quotient_by_zero x s) = true.
Proof. now destruct x. Qed.

(** C2, amended.  The rollups never raise (they are total functions) and
    guard nothing: with a target of 0 the rate of a row is the IEEE-754
    quotient of its average by zero, an infinity when the average is not
    zero and NaN when it is.  That value stays in the rollup row, and the
    performer tables copy the rate and the average of rollup rows as they
    are. *)
Theorem zero_target_rate (df : list Row) :
  (forall row, In row (branch_monthly df) ->
               bm_Target row = Some 0 ->
               bm_Attendance_Rate row =
               quotient_by_zero (bm_Monthly_Attendance_Avg row) false) /\
  (forall row s, In row (constituency_monthly df) ->
                 cm_Target row = S754_zero s ->
                 cm_Attendance_Rate row =
                 quotient_by_zero (cm_Monthly_Attendance_Avg row) s) /\
  (forall x s, is_inf (quotient_by_zero x s)
               || is_nan (quotient_by_zero x s) = true) /\
  (forall n p, In p (top_performers n (branch_monthly df)) \/
               In p (low_performers n (branch_monthly df)) ->
               exists row, In row (branch_monthly df) /\
                           pf_Attendance_Rate p = bm_Attendance_Rate row /\
                           pf_Monthly_Attendance_Avg p
                           = bm_Monthly_Attendance_Avg row).
Proof.
  repeat split.
  - intros row Hrow Ht. rewrite (branch_rate df row Hrow), Ht.
    apply rate_of_zero.
  - intros row s Hrow Ht. rewrite (constituency_rate df row Hrow), Ht.
    apply rate_of_zero.
  - apply quotient_by_zero_special.
  - intros n p [H|H].
    + apply per_month_incl in H as [row [Hr ->]];
        [now exists row|intros g r; apply nlargest_incl].
    + apply per_month_incl in H as [row [Hr ->]];
        [now exists row|intros g r; apply nsmallest_incl].
Qed.

Lemma zero_target_rate_witness :
  bm_Attendance_Rate
    (mkBranchMonthly (of_string "2025") (of_string "July")
                     (of_string "North") (of_string "B1")
                     (of_Z 5) (Some 0) pos_inf) = pos_inf.
Proof.
  apply (proj1 (zero_target_rate zero_target)).
  - vm_compute. left. reflexivity.
  - reflexivity.
Defined.

(** One report of 5 with a target of 0: the rate is plus infinity in the
    branch rollup, in the constituency rollup and in both performer
    tables. *)
Lemma zero_target_gives_infinity :
  map bm_Target (branch_monthly zero_target) = [Some 0] /\
  map bm_Attendance_Rate (branch_monthly zero_target) = [pos_inf] /\
  map cm_Target (constituency_monthly zero_target) = [S754_zero false] /\
  map cm_Attendance_Rate (constituency_monthly zero_target) = [pos_inf] /\
  map pf_Attendance_Rate
      (top_performing_branches (branch_monthly zero_target)) = [pos_inf] /\
  map pf_Attendance_Rate
      (low_performing_branches (branch_monthly zero_target)) = [pos_inf].
Proof. repeat split; vm_compute; reflexivity. Qed.

(** ** Instances *)

Lemma branch_rollup_witness :
  exists atts,
    map row_Attendance three_weeks = map Some atts /\
    of_Z 6 = np_round2 (mean atts).
Proof.
  destruct (proj1 (branch_rollup three_weeks)
                  (mkBranchMonthly (of_string "2025") (of_string "July")
                                   (of_string "North") (of_string "B1")
                                   (of_Z 6) (Some 12) (of_Z 50)))
    as [atts (_ & H1 & H2 & _)].
  - vm_compute. left. reflexivity.
  - exists atts. split; [exact H1|exact H2].
Defined.

Lemma constituency_rollup_witness :
  exists weeks atts,
    NoDup weeks /\
    (forall w, In w weeks <->
               In (Some w) (map row_Week two_weeks)) /\
    map row_Attendance two_weeks = map Some atts /\
    of_Z 5 = np_round2 (fdiv (of_Z (sum_Z atts))
                             (of_Z (Z.of_nat (length weeks)))).
Proof.
  destruct (proj1 (constituency_rollup two_weeks)
                  (mkConstituencyMonthly
                     (of_string "2025") (of_string "July")
                     (of_string "North") 2 (of_Z 5) (of_Z 11)
                     (np_round2 (fmul (fdiv (of_Z 5) (of_Z 11))
                                      (of_Z 100)))))
    as [weeks [atts (_ & H1 & H2 & H3 & H4 & _)]].
  - vm_compute. left. reflexivity.
  - exists weeks, atts. repeat split; try assumption; apply H2.
Defined.

Lemma malformed_line_dropped_witness :
  parse_attendance_data
    (of_string "*A*" ++ nl ++ marker ++ of_string "B - 510" ++ nl
       ++ marker ++ of_string "C - 7/9")
    (of_string "NA") (of_string "July") (of_string "5") (of_string "2025")
  = parse_attendance_data
      (of_string "*A*" ++ nl ++ marker ++ of_string "C - 7/9")
      (of_string "NA") (of_string "July") (of_string "5") (of_string "2025").
Proof.
  apply (malformed_line_dropped (of_string "*A*") (marker ++ of_string "C - 7/9")
                                (marker ++ of_string "B - 510"));
    try (left; reflexivity); vm_compute; reflexivity.
Defined.

Lemma empty_header_drops_records_witness :
  parse_attendance_data
    (of_string "**" ++ nl ++ marker ++ of_string "B - 5/10")
    (of_string "NA") (of_string "July") (of_string "5") (of_string "2025")
  = Ok [].
Proof.
  apply (empty_header_drops_records [] (marker ++ of_string "B - 5/10") []
                                    (of_string "NA") (of_string "July")
                                    (of_string "5") (of_string "2025") 1).
  vm_compute. reflexivity.
Defined.

(** A field that is not a number. *)
Example letters_for_attendance :
  search_pattern (of_string "B - x/10") = None /\
  search_pattern (of_string "B - 5/ten") = None.
Proof. split; vm_compute; reflexivity. Qed.

(* ================================================================== *)
(** * Further properties *)

(** ** The pattern of a record line *)

Section MatcherSound.

Context {R : Type}.

Lemma star_greedy_sound (p : char -> bool) (s acc : str)
      (k : str -> str -> option R) (r : R) :
  star_greedy p s acc k = Some r ->
  exists u rest, s = u ++ rest /\ Forall (fun x => p x = true) u /\
                 k (acc ++ u) rest = Some r.
Proof.
  revert acc. induction s as [|c s IH]; intros acc; simpl.
  - intros H. exists [], []. rewrite (app_nil_r acc).
      split; [reflexivity|split; [apply Forall_nil|congruence]].
  - destruct (p c) eqn:Pc.
    + destruct (star_greedy p s (acc ++ [c]) k) as [r'|] eqn:E.
      * intros H. inversion H; subst r'.
        destruct (IH _ E) as (u & rest & -> & Hu & Hk).
        exists (c :: u), rest. rewrite <- app_assoc in Hk.
        repeat split; auto.
      * intros H. exists [], (c :: s). rewrite (app_nil_r acc).
      split; [reflexivity|split; [apply Forall_nil|congruence]].
    + intros H. exists [], (c :: s). rewrite (app_nil_r acc).
      split; [reflexivity|split; [apply Forall_nil|congruence]].
Qed.

Lemma plus_greedy_sound (p : char -> bool) (s : str)
      (k : str -> str -> option R) (r : R) :
  plus_greedy p s k = Some r ->
  exists u rest, s = u ++ rest /\ u <> [] /\
                 Forall (fun x => p x = true) u /\ k u rest = Some r.
Proof.
  destruct s as [|c s]; simpl; [discriminate|].
  destruct (p c) eqn:Pc; [|discriminate]. intros H.
  apply star_greedy_sound in H as (u & rest & -> & Hu & Hk).
  exists (c :: u), rest. repeat split; auto. discriminate.
Qed.

Lemma star_lazy_sound (p : char -> bool) (s acc : str)
      (k : str -> str -> option R) (r : R) :
  star_lazy p s acc k = Some r ->
  exists u rest, s = u ++ rest /\ Forall (fun x => p x = true) u /\
                 k (acc ++ u) rest = Some r.
Proof.
  revert acc. induction s as [|c s IH]; intros acc; simpl.
  - destruct (k acc []) eqn:E; [|discriminate].
    intros H. inversion H; subst. exists [], []. rewrite (app_nil_r acc).
      split; [reflexivity|split; [apply Forall_nil|congruence]].
  - destruct (k acc (c :: s)) eqn:E.
    + intros H. inversion H; subst. exists [], (c :: s). rewrite (app_nil_r acc).
      split; [reflexivity|split; [apply Forall_nil|congruence]].
    + destruct (p c) eqn:Pc; [|discriminate]. intros H.
      destruct (IH _ H) as (u & rest & -> & Hu & Hk).
      exists (c :: u), rest. rewrite <- app_assoc in Hk.
      repeat split; auto.
Qed.

Lemma plus_lazy_sound (p : char -> bool) (s : str)
      (k : str -> str -> option R) (r : R) :
  plus_lazy p s k = Some r ->
  exists u rest, s = u ++ rest /\ u <> [] /\
                 Forall (fun x => p x = true) u /\ k u rest = Some r.
Proof.
  destruct s as [|c s]; simpl; [discriminate|].
  destruct (p c) eqn:Pc; [|discriminate]. intros H.
  apply star_lazy_sound in H as (u & rest & -> & Hu & Hk).
  exists (c :: u), rest. repeat split; auto. discriminate.
Qed.

Lemma one_sound (p : char -> bool) (s : str) (k : str -> option R) (r : R) :
  one p s k = Some r ->
  exists c rest, s = c :: rest /\ p c = true /\ k rest = Some r.
Proof.
  destruct s as [|c s]; simpl; [discriminate|].
  destruct (p c) eqn:Pc; [|discriminate]. intros H. now exists c, s.
Qed.

Lemma at_end_sound (s : str) (r r' : R) :
  at_end s r = Some r' -> r' = r /\ (s = [] \/ s = [newline]).
Proof.
  destruct s as [|c [|d s]]; simpl.
  - intros H. inversion H. auto.
  - destruct (N.eqb_spec c newline); [|discriminate].
    intros H. inversion H. subst. auto.
  - discriminate.
Qed.

(** Completeness: a quantifier finds a way through when there is one. *)
Lemma star_greedy_complete (p : char -> bool) (u rest acc : str)
      (k : str -> str -> option R) :
  Forall (fun x => p x = true) u ->
  (forall a, k a rest <> None) ->
  star_greedy p (u ++ rest) acc k <> None.
Proof.
  intros Hu Hk. revert acc. induction Hu as [|c u Pc _ IH]; intros acc.
  - simpl. destruct rest as [|c s]; simpl; [apply Hk|].
    destruct (p c); [|apply Hk].
    destruct (star_greedy p s (acc ++ [c]) k); [discriminate|apply Hk].
  - simpl. rewrite Pc.
    specialize (IH (acc ++ [c])).
    destruct (star_greedy p (u ++ rest) (acc ++ [c]) k);
      [discriminate|contradiction].
Qed.

Lemma plus_greedy_complete (p : char -> bool) (u rest : str)
      (k : str -> str -> option R) :
  u <> [] -> Forall (fun x => p x = true) u ->
  (forall a, k a rest <> None) ->
  plus_greedy p (u ++ rest) k <> None.
Proof.
  intros Hne Hu Hk. destruct u as [|c u]; [contradiction|].
  inversion Hu as [|? ? Pc Hu']; subst. simpl. rewrite Pc.
  now apply star_greedy_complete.
Qed.

Lemma star_lazy_complete (p : char -> bool) (u rest acc : str)
      (k : str -> str -> option R) :
  Forall (fun x => p x = true) u ->
  (forall a, k a rest <> None) ->
  star_lazy p (u ++ rest) acc k <> None.
Proof.
  intros Hu Hk. revert acc. induction Hu as [|c u Pc _ IH]; intros acc.
  - simpl. destruct rest as [|c s]; simpl.
    + specialize (Hk acc). destruct (k acc []); [discriminate|contradiction].
    + specialize (Hk acc). destruct (k acc (c :: s));
        [discriminate|contradiction].
  - simpl. destruct (k acc (c :: u ++ rest)); [discriminate|].
    rewrite Pc. apply IH.
Qed.

Lemma plus_lazy_complete (p : char -> bool) (u rest : str)
      (k : str -> str -> option R) :
  u <> [] -> Forall (fun x => p x = true) u ->
  (forall a, k a rest <> None) ->
  plus_lazy p (u ++ rest) k <> None.
Proof.
  intros Hne Hu Hk. destruct u as [|c u]; [contradiction|].
  inversion Hu as [|? ? Pc Hu']; subst. simpl. rewrite Pc.
  now apply star_lazy_complete.
Qed.

End MatcherSound.

Lemma search_pattern_sound (line g1 g2 g3 : str) :
  search_pattern line = Some (g1, g2, g3) -> record_shape line g1 g2 g3.
Proof.
  unfold search_pattern. intros H.
  apply plus_lazy_sound in H as (u1 & r1 & -> & N1 & F1 & H).
  apply star_greedy_sound in H as (w1 & r2 & -> & Fw1 & H).
  apply one_sound in H as (h & r3 & -> & Hh & H).
  apply N.eqb_eq in Hh. subst h.
  apply star_greedy_sound in H as (w2 & r4 & -> & Fw2 & H).
  apply plus_greedy_sound in H as (u2 & r5 & -> & N2 & F2 & H).
  apply star_greedy_sound in H as (w3 & r6 & -> & Fw3 & H).
  apply one_sound in H as (c & r7 & -> & Hc & H).
  apply star_greedy_sound in H as (w4 & r8 & -> & Fw4 & H).
  apply plus_greedy_sound in H as (u3 & r9 & -> & N3 & F3 & H).
  apply at_end_sound in H as [E Ht]. inversion E; subst.
  exists w1, w2, w3, w4, c, r9. repeat split; auto.
Qed.

Lemma search_pattern_complete (line g1 g2 g3 : str) :
  record_shape line g1 g2 g3 -> search_pattern line <> None.
Proof.
  intros (w1 & w2 & w3 & w4 & c & tail & -> & N1 & F1 & Fw1 & Fw2 & N2 & F2
          & Fw3 & Hc & Fw4 & N3 & F3 & Ht).
  unfold search_pattern.
  apply plus_lazy_complete; auto. intros a1.
  apply star_greedy_complete; auto. intros a2.
  cbn [app one]. rewrite N.eqb_refl.
  apply star_greedy_complete; auto. intros a3.
  apply plus_greedy_complete; auto. intros a4.
  apply star_greedy_complete; auto. intros a5.
  cbn [app one]. rewrite Hc.
  apply star_greedy_complete; auto. intros a6.
  apply plus_greedy_complete; auto. intros a7.
  destruct Ht as [-> | ->]; simpl; discriminate.
Qed.

(** X1.  The pattern of [parse_branch_line] matches exactly the lines of
    the shape [record_shape]: a name of at least one character, none of
    them a newline, then optional white space, a hyphen, optional white
    space, a run of digits, optional white space, [/] or [|], optional
    white space, a run of digits, and nothing after it but an optional
    final newline.  The three groups it returns are the name and the two
    runs of digits of such a reading of the line. *)
Theorem search_pattern_shape (line : str) :
  (forall g1 g2 g3, search_pattern line = Some (g1, g2, g3) ->
                    record_shape line g1 g2 g3) /\
  (search_pattern line <> None <->
   exists g1 g2 g3, record_shape line g1 g2 g3).
Proof.
  split; [apply search_pattern_sound|]. split.
  - destruct (search_pattern line) as [[[g1 g2] g3]|] eqn:E;
      [|intros H; now contradiction H].
    intros _. exists g1, g2, g3. now apply search_pattern_sound.
  - intros (g1 & g2 & g3 & H). eapply search_pattern_complete, H.
Qed.

Lemma search_pattern_shape_witness :
  record_shape (of_string "B - 5/10") (of_string "B") (of_string "5")
               (of_string "10").
Proof.
  apply (proj1 (search_pattern_shape (of_string "B - 5/10"))).
  vm_compute. reflexivity.
Defined.

(** ** Stripping *)

Section Strip.

Variable p : char -> bool.

Lemma lstrip_head (s t : str) (c : char) :
  lstrip p s = c :: t -> p c = false.
Proof.
  induction s as [|d s IH]; simpl; [discriminate|].
  destruct (p d) eqn:E; [exact IH|]. intros H. inversion H. now subst.
Qed.

Lemma lstrip_snoc (u : str) (c : char) :
  p c = false -> lstrip p (u ++ [c]) = lstrip p u ++ [c].
Proof.
  intros H. induction u as [|d u IH]; simpl.
  - now rewrite H.
  - now destruct (p d).
Qed.

Lemma rstrip_cons (c : char) (t : str) :
  p c = false -> rstrip p (c :: t) = c :: rstrip p t.
Proof.
  intros H. unfold rstrip. simpl.
  now rewrite (lstrip_snoc _ _ H), rev_app_distr.
Qed.

Lemma strip_cons (c : char) (t : str) :
  p c = false -> strip p (c :: t) = c :: rstrip p t.
Proof.
  intros H. unfold strip. simpl. rewrite H. now apply rstrip_cons.
Qed.

Lemma strip_lstrip (s : str) :
  strip p s = match lstrip p s with
              | [] => []
              | c :: t => c :: rstrip p t
              end.
Proof.
  unfold strip. destruct (lstrip p s) as [|c t] eqn:E; [reflexivity|].
  apply rstrip_cons. now apply lstrip_head in E.
Qed.

Lemma strip_head (s t : str) (c : char) :
  strip p s = c :: t -> p c = false.
Proof.
  rewrite strip_lstrip. destruct (lstrip p s) as [|d u] eqn:E;
    [discriminate|].
  intros H. inversion H. subst. now apply lstrip_head in E.
Qed.

Lemma lstrip_idem (s : str) : lstrip p (lstrip p s) = lstrip p s.
Proof.
  induction s as [|d s IH]; simpl; [reflexivity|].
  destruct (p d) eqn:E; [exact IH|]. simpl. now rewrite E.
Qed.

Lemma rstrip_idem (s : str) : rstrip p (rstrip p s) = rstrip p s.
Proof. unfold rstrip. now rewrite rev_involutive, lstrip_idem. Qed.

Lemma strip_idem (s : str) : strip p (strip p s) = strip p s.
Proof.
  rewrite (strip_lstrip s). destruct (lstrip p s) as [|c t] eqn:E;
    [reflexivity|].
  apply lstrip_head in E. now rewrite (strip_cons _ _ E), rstrip_idem.
Qed.

End Strip.

(** The first group of a match on a stripped line keeps a character when it
    is stripped. *)
Lemma first_group_name (x g1 g2 g3 : str) :
  search_pattern (strip is_space x) = Some (g1, g2, g3) ->
  strip is_space g1 <> [].
Proof.
  intros H. apply search_pattern_sound in H
    as (w1 & w2 & w3 & w4 & c & tail & E & N1 & _).
  destruct g1 as [|d g1]; [contradiction|].
  simpl in E. apply strip_head in E. now rewrite (strip_cons _ _ _ E).
Qed.

Section Invariants.

Variables pastor month week year : str.

Variable names : list str.

Lemma parse_branch_line_fields (l c : str) (r : AttendanceRecord) :
  In c names -> c <> [] ->
  parse_branch_line l c pastor month week year = Ok (Some r) ->
  well_formed_record pastor month week year names r.
Proof.
  intros Hc Hne. unfold parse_branch_line.
  destruct (search_pattern _) as [[[g1 g2] g3]|] eqn:E; [|discriminate].
  destruct (py_int g2) as [a|e] eqn:Ea; simpl; [|discriminate].
  destruct (py_int g3) as [t|e] eqn:Et; simpl; [|discriminate].
  destruct (attendance_rate a t) as [rate|e]; simpl; [|discriminate].
  intros H. inversion H; subst. clear H.
  unfold well_formed_record. simpl. repeat split; auto.
  - now apply first_group_name in E.
  - apply strip_idem.
  - now apply py_int_nonneg in Ea.
Qed.

Lemma step_fields (st st' : scan_state) (l : str) :
  (is_header l = true -> In (strip (N.eqb asterisk) l) names) ->
  step pastor month week year st l = Ok st' ->
  fields_inv pastor month week year names st ->
  fields_inv pastor month week year names st'.
Proof.
  intros Hl. destruct st as [cur acc]. unfold step.
  destruct (is_header l) eqn:Eh.
  { intros H [_ Hacc]. inversion H; subst. split; [|exact Hacc].
    simpl. intros c E. inversion E. subst. now apply Hl. }
  destruct (startswith marker l && truthy cur) eqn:Em.
  2:{ intros H; now inversion H. }
  destruct cur as [c|]; [|intros H; now inversion H].
  apply andb_true_iff in Em as [_ Ht]. simpl in Ht.
  destruct (parse_branch_line l c pastor month week year) as [[r|]|e] eqn:E;
    simpl; intros H; inversion H; subst; [|trivial].
  intros [Hc Hacc]. split; [exact Hc|]. simpl.
  apply Forall_app. split; [exact Hacc|]. constructor; [|constructor].
  apply (parse_branch_line_fields l c); auto.
  intros ->. discriminate.
Qed.

Lemma scan_fields (ls : list str) (st st' : scan_state) :
  (forall l, In l ls -> is_header l = true ->
             In (strip (N.eqb asterisk) l) names) ->
  scan pastor month week year ls st = Ok st' ->
  fields_inv pastor month week year names st ->
  fields_inv pastor month week year names st'.
Proof.
  revert st. induction ls as [|l ls IH]; intros st Hn; simpl.
  - intros H; now inversion H.
  - destruct (step pastor month week year st l) as [st1|e] eqn:E; simpl;
      [|discriminate].
    intros H Hst. apply (IH st1); auto.
    + intros l' Hl'. apply Hn. now right.
    + apply (step_fields st st1 l); auto. apply Hn. now left.
Qed.

(** At most one record a record line. *)
Lemma step_count (st st' : scan_state) (l : str) :
  step pastor month week year st l = Ok st' ->
  (length (snd st') <=
   length (snd st) + if startswith marker l then 1 else 0)%nat.
Proof.
  destruct st as [cur acc]. unfold step.
  destruct (is_header l).
  { intros H; inversion H; simpl. lia. }
  destruct (startswith marker l); simpl.
  2:{ intros H; inversion H; simpl. lia. }
  destruct (truthy cur); [|intros H; inversion H; simpl; lia].
  destruct cur as [c|]; [|intros H; inversion H; simpl; lia].
  destruct (parse_branch_line l c pastor month week year) as [[r|]|e];
    simpl; intros H; inversion H; simpl; [|lia].
  rewrite length_app. simpl. lia.
Qed.

Lemma scan_count (ls : list str) (st st' : scan_state) :
  scan pastor month week year ls st = Ok st' ->
  (length (snd st') <=
   length (snd st) + length (filter (startswith marker) ls))%nat.
Proof.
  revert st. induction ls as [|l ls IH]; intros st; cbn [scan filter].
  - intros H; inversion H. cbn [length]. lia.
  - destruct (step pastor month week year st l) as [st1|e] eqn:E;
      cbn [bind]; [|discriminate].
    intros H. apply IH in H. apply step_count in E.
    destruct (startswith marker l); cbn [length] in *; lia.
Qed.

(** The records found so far do not matter to what follows. *)
Lemma step_acc (c : option str) (acc : list AttendanceRecord) (l : str) :
  step pastor month week year (c, acc) l =
  bind (step pastor month week year (c, []) l)
       (fun st => Ok (fst st, acc ++ snd st)).
Proof.
  unfold step. destruct (is_header l); cbn [bind fst snd].
  { now rewrite app_nil_r. }
  destruct (startswith marker l && truthy c); cbn [bind fst snd].
  2:{ now rewrite app_nil_r. }
  destruct c as [c|]; cbn [bind fst snd]; [|now rewrite app_nil_r].
  destruct (parse_branch_line l c pastor month week year) as [[r|]|e];
    cbn [bind fst snd app]; try reflexivity. now rewrite app_nil_r.
Qed.

Lemma scan_acc (ls : list str) (c : option str)
      (acc : list AttendanceRecord) :
  scan pastor month week year ls (c, acc) =
  bind (scan pastor month week year ls (c, []))
       (fun st => Ok (fst st, acc ++ snd st)).
Proof.
  revert c acc. induction ls as [|l ls IH]; intros c acc; cbn [scan].
  - cbn [bind fst snd]. now rewrite app_nil_r.
  - rewrite step_acc.
    destruct (step pastor month week year (c, []) l) as [[c1 r1]|e];
      cbn [bind fst snd]; [|reflexivity].
    rewrite (IH c1 (acc ++ r1)), (IH c1 r1).
    destruct (scan pastor month week year ls (c1, [])) as [[c2 r2]|e];
      cbn [bind fst snd]; [|reflexivity].
    now rewrite app_assoc.
Qed.

(** A line that is no header and does not start with the marker. *)
Lemma step_other (l : str) (st : scan_state) :
  is_header l = false -> startswith marker l = false ->
  step pastor month week year st l = Ok st.
Proof.
  intros Hh Hm. destruct st as [c acc]. unfold step. now rewrite Hh, Hm.
Qed.

End Invariants.

(** X2.  Every record of a successful parse carries the pastor, month, week
    and year passed in; its constituency is the name of a header line of
    the text and is not empty; its branch name is not empty and has no
    white space at either end; its attendance is not negative. *)
Theorem parsed_records_well_formed
        (data pastor month week year : str) (rs : list AttendanceRecord) :
  parse_attendance_data data pastor month week year = Ok rs ->
  Forall (well_formed_record pastor month week year (header_names data)) rs.
Proof.
  unfold parse_attendance_data.
  destruct (scan pastor month week year (clean_lines data) (None, []))
    as [st|e] eqn:E; simpl; [|discriminate].
  intros H. inversion H; subst.
  apply (scan_fields pastor month week year (header_names data)
                     (clean_lines data) (None, []) st); auto.
  - intros l Hl Hh. unfold header_names. apply in_map.
    apply filter_In. now split.
  - split; [discriminate|constructor].
Qed.

Lemma parsed_records_well_formed_witness :
  Forall (well_formed_record
            (of_string "NA") (of_string "July") (of_string "5")
            (of_string "2025")
            (header_names (of_string "*A*" ++ nl ++ marker
                                     ++ of_string "B - 5/10")))
         [mkRecord (of_string "A") (of_string "B") (of_string "NA") 5 10
                   (of_Z 50) (of_string "July") (of_string "5")
                   (of_string "2025")].
Proof.
  apply parsed_records_well_formed. vm_compute. reflexivity.
Defined.

(** X3.  A successful parse returns at most one record for each line of the
    text that starts with the marker: no line is counted twice and no other
    line yields a record. *)
Theorem one_record_per_record_line
        (data pastor month week year : str) (rs : list AttendanceRecord) :
  parse_attendance_data data pastor month week year = Ok rs ->
  (length rs <= length (record_lines data))%nat.
Proof.
  unfold parse_attendance_data.
  destruct (scan pastor month week year (clean_lines data) (None, []))
    as [st|e] eqn:E; simpl; [|discriminate].
  intros H. inversion H; subst.
  apply scan_count in E. exact E.
Qed.

Lemma one_record_per_record_line_witness :
  (length [mkRecord (of_string "A") (of_string "B") (of_string "NA") 5 10
                    (of_Z 50) (of_string "July") (of_string "5")
                    (of_string "2025")]
   <= length (record_lines (of_string "*A*" ++ nl ++ marker
                                      ++ of_string "B - 5/10")))%nat.
Proof.
  apply (one_record_per_record_line _ (of_string "NA") (of_string "July")
                                    (of_string "5") (of_string "2025")).
  vm_compute. reflexivity.
Defined.

(** X4.  A line that is neither a header nor a record line (stripped, it
    does not begin and end with an asterisk and does not start with the
    marker) has no effect: the parser gives the same result, records or
    exception, on the text with the line as on the text without it,
    wherever the line stands (between two parts of the text, first, or
    last). *)
Theorem other_lines_ignored (a b line pastor month week year : str) :
  contains newline line = false ->
  is_header (strip is_space line) = false ->
  startswith marker (strip is_space line) = false ->
  parse_attendance_data (a ++ newline :: line ++ newline :: b)
                        pastor month week year =
  parse_attendance_data (a ++ newline :: b) pastor month week year /\
  parse_attendance_data (line ++ newline :: b) pastor month week year =
  parse_attendance_data b pastor month week year /\
  parse_attendance_data (a ++ newline :: line) pastor month week year =
  parse_attendance_data a pastor month week year.
Proof.
  intros Hn Hh Hm. apply contains_false in Hn.
  assert (Hs : forall st, scan pastor month week year (clean_lines line) st
                          = Ok st).
  { intros st. rewrite (clean_lines_single _ Hn).
    destruct (nonempty (strip is_space line)); [|reflexivity].
    cbn [scan]. now rewrite (step_other _ _ _ _ _ st Hh Hm). }
  repeat split.
  - apply (parse_drop_middle _ _ _ _ (fun _ => True)); auto.
  - apply parse_drop_first, Hs.
  - apply parse_drop_last, Hs.
Qed.

Lemma other_lines_ignored_witness :
  parse_attendance_data
    (of_string "*A*" ++ nl ++ of_string "  Weekly report  " ++ nl
       ++ marker ++ of_string "C - 7/9")
    (of_string "NA") (of_string "July") (of_string "5") (of_string "2025")
  = parse_attendance_data
      (of_string "*A*" ++ nl ++ marker ++ of_string "C - 7/9")
      (of_string "NA") (of_string "July") (of_string "5") (of_string "2025").
Proof.
  apply (other_lines_ignored (of_string "*A*")
                             (marker ++ of_string "C - 7/9")
                             (of_string "  Weekly report  "));
    vm_compute; reflexivity.
Defined.

(** X5.  Two reports in one text: when the second begins with a header line
    (or has no line at all), parsing the two joined by a newline gives the
    records of the first followed by the records of the second, and raises
    when the first raises, or else when the second does. *)
Theorem reports_concatenate (a b pastor month week year : str) :
  starts_with_header b = true ->
  parse_attendance_data (a ++ newline :: b) pastor month week year =
  bind (parse_attendance_data a pastor month week year) (fun ra =>
  bind (parse_attendance_data b pastor month week year) (fun rb =>
  Ok (ra ++ rb))).
Proof.
  unfold starts_with_header, parse_attendance_data. intros H.
  rewrite clean_lines_app, scan_app.
  destruct (scan pastor month week year (clean_lines a) (None, []))
    as [[c acc]|e]; cbn [bind snd]; [|reflexivity].
  destruct (clean_lines b) as [|h rest]; cbn [scan bind snd].
  - now rewrite app_nil_r.
  - rewrite !(step_header _ _ _ _ _ _ H). cbn [bind snd].
    rewrite scan_acc.
    destruct (scan pastor month week year rest (_, [])) as [[c2 r2]|e];
      reflexivity.
Qed.

Lemma reports_concatenate_witness :
  parse_attendance_data
    ((of_string "*A*" ++ nl ++ marker ++ of_string "B - 5/10")
       ++ newline :: (of_string "*C*" ++ nl ++ marker ++ of_string "D - 7/9"))
    (of_string "NA") (of_string "July") (of_string "5") (of_string "2025")
  = bind (parse_attendance_data
            (of_string "*A*" ++ nl ++ marker ++ of_string "B - 5/10")
            (of_string "NA") (of_string "July") (of_string "5")
            (of_string "2025")) (fun ra =>
    bind (parse_attendance_data
            (of_string "*C*" ++ nl ++ marker ++ of_string "D - 7/9")
            (of_string "NA") (of_string "July") (of_string "5")
            (of_string "2025")) (fun rb => Ok (ra ++ rb))).
Proof.
  apply reports_concatenate. vm_compute. reflexivity.
Defined.

(** X6.  Under a header with a name, a record line that matches the pattern
    and whose target reads as 0 aborts the whole parse with
    [ZeroDivisionError]: the records collected before it are lost and the
    lines after it are not looked at. *)
Theorem zero_target_aborts
        (a b line c g1 g2 g3 pastor month week year : str)
        (acc : list AttendanceRecord) (attendance : Z) :
  scan pastor month week year (clean_lines a) (None, []) = Ok (Some c, acc) ->
  nonempty c = true ->
  contains newline line = false ->
  startswith marker (strip is_space line) = true ->
  search_pattern (strip is_space (remove_marker (strip is_space line)))
  = Some (g1, g2, g3) ->
  py_int g2 = Ok attendance ->
  py_int g3 = Ok 0 ->
  parse_attendance_data (a ++ newline :: line ++ newline :: b)
                        pastor month week year = Raise ZeroDivisionError.
Proof.
  intros Ha Hc Hn Hm Hp H2 H3. apply contains_false in Hn.
  unfold parse_attendance_data.
  rewrite !clean_lines_app, (clean_lines_single _ Hn).
  rewrite (record_line_nonempty _ Hm), scan_app, Ha.
  cbn [bind scan app]. unfold step.
  rewrite (record_line_not_header _ Hm), Hm. cbn [andb truthy].
  rewrite Hc. unfold parse_branch_line. rewrite Hp, H2. cbn [bind].
  rewrite H3. reflexivity.
Qed.

Lemma zero_target_aborts_witness :
  parse_attendance_data
    ((of_string "*A*" ++ nl ++ marker ++ of_string "B - 5/10")
       ++ newline :: (marker ++ of_string "C - 7/0")
       ++ newline :: (marker ++ of_string "D - 1/2"))
    (of_string "NA") (of_string "July") (of_string "5") (of_string "2025")
  = Raise ZeroDivisionError.
Proof.
  apply (zero_target_aborts
           (of_string "*A*" ++ nl ++ marker ++ of_string "B - 5/10")
           (marker ++ of_string "D - 1/2")
           (marker ++ of_string "C - 7/0")
           (of_string "A") (of_string "C") (of_string "7") (of_string "0")
           (of_string "NA") (of_string "July") (of_string "5")
           (of_string "2025")
           [mkRecord (of_string "A") (of_string "B") (of_string "NA") 5 10
                     (of_Z 50) (of_string "July") (of_string "5")
                     (of_string "2025")] 7);
    vm_compute; reflexivity.
Defined.

(** X7.  The records of the lines under a header, up to the next header,
    are filed under that header: when a text is a header line followed by
    lines none of which is a header, every record of its parse has the
    name of the header, asterisks stripped, as its constituency. *)
Theorem records_filed_under_header
        (h block pastor month week year : str)
        (rs : list AttendanceRecord) :
  contains newline h = false ->
  is_header (strip is_space h) = true ->
  forallb (fun l => negb (is_header l)) (clean_lines block) = true ->
  parse_attendance_data (h ++ newline :: block) pastor month week year
  = Ok rs ->
  Forall (fun r => Constituency r
                   = strip (N.eqb asterisk) (strip is_space h)) rs.
Proof.
  intros Hn Hh Hb. apply contains_false in Hn.
  unfold parse_attendance_data.
  destruct (scan pastor month week year
                 (clean_lines (h ++ newline :: block)) (None, []))
    as [st|e] eqn:E; cbn [bind]; [|discriminate].
  intros H. injection H as <-.
  assert (I : fields_inv pastor month week year
                         [strip (N.eqb asterisk) (strip is_space h)] st).
  { apply (scan_fields pastor month week year
                       [strip (N.eqb asterisk) (strip is_space h)]
                       (clean_lines (h ++ newline :: block))
                       (None, []) st); [|exact E|].
    - intros l Hl Hl'. rewrite clean_lines_app in Hl.
      apply in_app_or in Hl as [Hl|Hl].
      + rewrite (clean_lines_single _ Hn) in Hl.
        destruct (nonempty (strip is_space h)); [|destruct Hl].
        destruct Hl as [<-|[]]. now left.
      + rewrite forallb_forall in Hb. apply Hb in Hl.
        rewrite Hl' in Hl. discriminate.
    - split; [discriminate|constructor]. }
  destruct I as [_ I]. eapply Forall_impl; [|exact I].
  intros r (_ & _ & _ & _ & [Hr|[]] & _). now symmetry.
Qed.

Lemma records_filed_under_header_witness :
  Forall (fun r => Constituency r
                   = strip (N.eqb asterisk)
                           (strip is_space (of_string " *A* ")))
         [mkRecord (of_string "A") (of_string "B") (of_string "NA") 5 10
                   (of_Z 50) (of_string "July") (of_string "5")
                   (of_string "2025");
          mkRecord (of_string "A") (of_string "C") (of_string "NA") 7 9
                   (py_round2 (fmul (fdiv (of_Z 7) (of_Z 9)) (of_Z 100)))
                   (of_string "July") (of_string "5") (of_string "2025")].
Proof.
  apply (records_filed_under_header
           (of_string " *A* ")
           (marker ++ of_string "B - 5/10" ++ nl ++ of_string "report"
                   ++ nl ++ marker ++ of_string "C - 7/9")
           (of_string "NA") (of_string "July") (of_string "5")
           (of_string "2025"));
    vm_compute; reflexivity.
Defined.

(** ** The order of strings *)

Lemma str_ltb_irrefl (a : str) : str_ltb a a = false.
Proof.
  induction a as [|x a IH]; simpl; [reflexivity|].
  now rewrite N.ltb_irrefl, N.eqb_refl, IH.
Qed.

Lemma str_ltb_cons (x y : char) (a b : str) :
  str_ltb (x :: a) (y :: b) = true <->
  (x < y)%N \/ (x = y /\ str_ltb a b = true).
Proof.
  simpl. now rewrite orb_true_iff, andb_true_iff, N.ltb_lt, N.eqb_eq.
Qed.

Lemma str_ltb_trans (a b c : str) :
  str_ltb a b = true -> str_ltb b c = true -> str_ltb a c = true.
Proof.
  revert b c. induction a as [|x a IH]; intros [|y b] [|z c];
    try discriminate; try reflexivity.
  rewrite !str_ltb_cons. intros [H1|[-> H1]] [H2|[-> H2]].
  - left. lia.
  - now left.
  - now left.
  - right. split; [reflexivity|]. now apply (IH b).
Qed.

Lemma str_ltb_total (a b : str) :
  str_ltb a b = true \/ a = b \/ str_ltb b a = true.
Proof.
  revert b. induction a as [|x a IH]; intros [|y b]; auto.
  rewrite !str_ltb_cons.
  destruct (N.lt_trichotomy x y) as [H|[->|H]]; auto.
  destruct (IH b) as [H|[->|H]]; auto.
Qed.

(** ** Strict total orders given as boolean functions *)

Section Order.

Context {K : Type}.

Variable ltb : K -> K -> bool.

Hypothesis ltb_irrefl : forall a, ltb a a = false.

Hypothesis ltb_trans :
  forall a b c, ltb a b = true -> ltb b c = true -> ltb a c = true.

Hypothesis ltb_total : forall a b, ltb a b = true \/ a = b \/ ltb b a = true.

Lemma order_asym (a b : K) : ltb a b = true -> ltb b a = false.
Proof.
  intros H. destruct (ltb b a) eqn:E; [|reflexivity].
  rewrite <- (ltb_irrefl a). symmetry. now apply (ltb_trans a b a).
Qed.

Lemma order_negtrans (a b c : K) :
  ltb b a = false -> ltb c b = false -> ltb c a = false.
Proof.
  intros H1 H2. destruct (ltb c a) eqn:E; [|reflexivity].
  destruct (ltb_total a b) as [H|[->|H]]; [|congruence|congruence].
  rewrite <- H2. symmetry. now apply (ltb_trans c a b).
Qed.

(** A list sorted by this order on keys that are pairwise different is
    strictly ascending. *)
Lemma stable_sort_strict {A : Type} (f : A -> K) (l : list A) :
  NoDup (map f l) ->
  StronglySorted (fun a b => ltb (f a) (f b) = true)
                 (stable_sort (fun a b => ltb (f a) (f b)) l).
Proof.
  intros Hn.
  assert (S : StronglySorted
                (may_precede (fun a b : A => ltb (f a) (f b)))
                (stable_sort (fun a b => ltb (f a) (f b)) l)).
  { apply (stable_sort_sorted _ (fun _ => True)).
    - intros a b. apply order_asym.
    - intros a b c _ _ _. apply order_negtrans.
    - apply Forall_forall. auto. }
  assert (N : NoDup (map f (stable_sort
                              (fun a b : A => ltb (f a) (f b)) l))).
  { eapply Permutation_NoDup; [|exact Hn].
    apply Permutation_map, Permutation_sym, stable_sort_perm. }
  revert S N.
  generalize (stable_sort (fun a b : A => ltb (f a) (f b)) l).
  induction 1 as [|g l' Hs IH Hg]; intros N; [constructor|].
  simpl in N. inversion N as [|? ? Hg' N']; subst.
  constructor; [now apply IH|].
  rewrite Forall_forall in *. intros h Hh. specialize (Hg h Hh).
  unfold may_precede in Hg.
  destruct (ltb_total (f g) (f h)) as [H|[H|H]]; [exact H| |congruence].
  exfalso. apply Hg'. rewrite H. now apply in_map.
Qed.

End Order.

Lemma StronglySorted_map {A B : Type} (f : A -> B) (R : B -> B -> Prop)
      (l : list A) :
  StronglySorted (fun a b => R (f a) (f b)) l -> StronglySorted R (map f l).
Proof.
  induction 1 as [|a l Hs IH Ha]; simpl; constructor; [exact IH|].
  apply Forall_forall. intros b Hb. apply in_map_iff in Hb as [x [<- Hx]].
  rewrite Forall_forall in Ha. now apply Ha.
Qed.

(** ** The order of the keys *)

Lemma lex_true (lt1 eq1 rest : bool) :
  lex lt1 eq1 rest = true <-> lt1 = true \/ (eq1 = true /\ rest = true).
Proof. unfold lex. now rewrite orb_true_iff, andb_true_iff. Qed.

Lemma constituency_key_ltb_iff (y1 m1 c1 y2 m2 c2 : str) :
  constituency_key_ltb (y1, m1, c1) (y2, m2, c2) = true <->
  str_ltb y1 y2 = true \/
  (y1 = y2 /\ (str_ltb m1 m2 = true \/
               (m1 = m2 /\ str_ltb c1 c2 = true))).
Proof.
  unfold constituency_key_ltb. now rewrite !lex_true, !str_eqb_eq.
Qed.

Lemma branch_key_ltb_iff (y1 m1 c1 b1 y2 m2 c2 b2 : str) :
  branch_key_ltb (y1, m1, c1, b1) (y2, m2, c2, b2) = true <->
  str_ltb y1 y2 = true \/
  (y1 = y2 /\ (str_ltb m1 m2 = true \/
               (m1 = m2 /\ (str_ltb c1 c2 = true \/
                            (c1 = c2 /\ str_ltb b1 b2 = true))))).
Proof.
  unfold branch_key_ltb. now rewrite !lex_true, !str_eqb_eq.
Qed.

Lemma constituency_key_ltb_irrefl (a : constituency_key_t) :
  constituency_key_ltb a a = false.
Proof.
  destruct (constituency_key_ltb a a) eqn:E; [|reflexivity].
  destruct a as [[y m] c]. apply constituency_key_ltb_iff in E.
  str_order str_ltb_irrefl str_ltb_trans.
Qed.

Lemma constituency_key_ltb_trans (a b c : constituency_key_t) :
  constituency_key_ltb a b = true -> constituency_key_ltb b c = true ->
  constituency_key_ltb a c = true.
Proof.
  destruct a as [[y1 m1] c1], b as [[y2 m2] c2], c as [[y3 m3] c3].
  rewrite !constituency_key_ltb_iff.
  intros H1 H2. str_order str_ltb_irrefl str_ltb_trans.
Qed.

Lemma constituency_key_ltb_total (a b : constituency_key_t) :
  constituency_key_ltb a b = true \/ a = b \/ constituency_key_ltb b a = true.
Proof.
  destruct a as [[y1 m1] c1], b as [[y2 m2] c2].
  rewrite !constituency_key_ltb_iff.
  destruct (str_ltb_total y1 y2) as [H|[->|H]];
    [left; auto| |right; right; auto].
  destruct (str_ltb_total m1 m2) as [H|[->|H]];
    [left; right; auto| |right; right; right; auto].
  destruct (str_ltb_total c1 c2) as [H|[->|H]];
    [left; right; auto|right; left; reflexivity|right; right; right; auto].
Qed.

Lemma branch_key_ltb_irrefl (a : branch_key_t) : branch_key_ltb a a = false.
Proof.
  destruct (branch_key_ltb a a) eqn:E; [|reflexivity].
  destruct a as [[[y m] c] b]. apply branch_key_ltb_iff in E.
  str_order str_ltb_irrefl str_ltb_trans.
Qed.

Lemma branch_key_ltb_trans (a b c : branch_key_t) :
  branch_key_ltb a b = true -> branch_key_ltb b c = true ->
  branch_key_ltb a c = true.
Proof.
  destruct a as [[[y1 m1] c1] b1], b as [[[y2 m2] c2] b2],
           c as [[[y3 m3] c3] b3].
  rewrite !branch_key_ltb_iff.
  intros H1 H2. str_order str_ltb_irrefl str_ltb_trans.
Qed.

Lemma branch_key_ltb_total (a b : branch_key_t) :
  branch_key_ltb a b = true \/ a = b \/ branch_key_ltb b a = true.
Proof.
  destruct a as [[[y1 m1] c1] b1], b as [[[y2 m2] c2] b2].
  rewrite !branch_key_ltb_iff.
  destruct (str_ltb_total y1 y2) as [H|[->|H]];
    [left; auto| |right; right; auto].
  destruct (str_ltb_total m1 m2) as [H|[->|H]];
    [left; right; auto| |right; right; right; auto].
  destruct (str_ltb_total c1 c2) as [H|[->|H]];
    [left; right; auto 6| |right; right; right; auto 6].
  destruct (str_ltb_total b1 b2) as [H|[->|H]];
    [left; right; auto 8|right; left; reflexivity|right; right; right; auto 8].
Qed.

Lemma branch_monthly_NoDup (df : list Row) :
  NoDup (map bm_key (branch_monthly df)).
Proof.
  unfold branch_monthly. rewrite map_map.
  erewrite map_ext; [apply (groupby_spec branch_key_eqb branch_key_ltb
                              branch_key branch_key_eqb_eq)|].
  intros [k g]. apply bm_key_branch_row.
Qed.

Lemma constituency_monthly_NoDup (df : list Row) :
  NoDup (map cm_key (constituency_monthly df)).
Proof.
  unfold constituency_monthly. rewrite map_map.
  erewrite map_ext; [apply (groupby_spec constituency_key_eqb
                              constituency_key_ltb constituency_key
                              constituency_key_eqb_eq)|].
  intros [k g]. apply cm_key_constituency_row.
Qed.

(** X8.  Both rollups come out strictly ascending in their key, compared
    component by component as strings: (year, month, constituency, branch)
    for the branch rollup and (year, month, constituency) for the
    constituency rollup.  So no two rows of a rollup have the same key. *)
Theorem rollups_sorted_by_key (df : list Row) :
  StronglySorted (fun r q => branch_key_ltb (bm_key r) (bm_key q) = true)
                 (branch_monthly df) /\
  StronglySorted (fun r q => constituency_key_ltb (cm_key r) (cm_key q)
                             = true)
                 (constituency_monthly df) /\
  NoDup (map bm_key (branch_monthly df)) /\
  NoDup (map cm_key (constituency_monthly df)).
Proof.
  assert (B : StronglySorted
                (fun r q => branch_key_ltb (bm_key r) (bm_key q) = true)
                (branch_monthly df)).
  { unfold branch_monthly. apply StronglySorted_map.
    eapply StronglySorted_weaken;
      [|apply (stable_sort_strict branch_key_ltb branch_key_ltb_irrefl
                 branch_key_ltb_trans branch_key_ltb_total fst)].
    - intros [k g] [k' g'] _ _ H. now rewrite !bm_key_branch_row.
    - apply (collect_spec branch_key_eqb branch_key branch_key_eqb_eq). }
  assert (C : StronglySorted
                (fun r q => constituency_key_ltb (cm_key r) (cm_key q) = true)
                (constituency_monthly df)).
  { unfold constituency_monthly. apply StronglySorted_map.
    eapply StronglySorted_weaken;
      [|apply (stable_sort_strict constituency_key_ltb
                 constituency_key_ltb_irrefl constituency_key_ltb_trans
                 constituency_key_ltb_total fst)].
    - intros [k g] [k' g'] _ _ H. now rewrite !cm_key_constituency_row.
    - apply (collect_spec constituency_key_eqb constituency_key
                          constituency_key_eqb_eq). }
  repeat split; auto.
  - apply branch_monthly_NoDup.
  - apply constituency_monthly_NoDup.
Qed.

(** ** Rows without a key *)

Lemma collect_has_key {K A : Type} (key_eqb : K -> K -> bool)
      (key : A -> option K) (rows : list A) :
  collect key_eqb key (filter (has_key key) rows) = collect key_eqb key rows.
Proof.
  induction rows as [|r rows IH] using rev_ind; [reflexivity|].
  rewrite filter_app, collect_snoc. cbn [filter]. unfold has_key at 2.
  destruct (key r) eqn:E.
  - now rewrite collect_snoc, E, IH.
  - now rewrite app_nil_r.
Qed.

(** ** The keys of the two rollups *)

Lemma branch_monthly_keys (df : list Row) (k : branch_key_t) :
  In k (map bm_key (branch_monthly df)) <->
  exists r, In r (df_clean df) /\ branch_key r = Some k.
Proof.
  split.
  - intros H. apply in_map_iff in H as [row [<- H]].
    destruct (branch_monthly_group df row H) as [Hg _].
    destruct (filter (in_group branch_key_eqb branch_key (bm_key row))
                     (df_clean df)) as [|r g] eqn:E; [congruence|].
    assert (Hr : In r (filter (in_group branch_key_eqb branch_key
                                        (bm_key row)) (df_clean df)))
      by (rewrite E; now left).
    apply filter_In in Hr as [Hr Hk]. exists r. split; [exact Hr|].
    now apply (in_group_key branch_key_eqb branch_key branch_key_eqb_eq).
  - intros [r [Hr Hk]].
    destruct (groupby_covers branch_key_eqb branch_key_ltb branch_key
                branch_key_eqb_eq (df_clean df) r k Hr Hk) as [g [Hg _]].
    apply in_map_iff. exists (branch_row (k, g)). split.
    + apply bm_key_branch_row.
    + unfold branch_monthly. now apply in_map.
Qed.

Lemma constituency_monthly_keys (df : list Row) (k : constituency_key_t) :
  In k (map cm_key (constituency_monthly df)) <->
  exists r, In r (df_clean df) /\ constituency_key r = Some k.
Proof.
  split.
  - intros H. apply in_map_iff in H as [row [<- H]].
    destruct (constituency_monthly_group df row H) as [Hg _].
    destruct (filter (in_group constituency_key_eqb constituency_key
                               (cm_key row))
                     (df_clean df)) as [|r g] eqn:E; [congruence|].
    assert (Hr : In r (filter (in_group constituency_key_eqb constituency_key
                                        (cm_key row)) (df_clean df)))
      by (rewrite E; now left).
    apply filter_In in Hr as [Hr Hk]. exists r. split; [exact Hr|].
    now apply (in_group_key constituency_key_eqb constituency_key
                            constituency_key_eqb_eq).
  - intros [r [Hr Hk]].
    destruct (groupby_covers constituency_key_eqb constituency_key_ltb
                constituency_key constituency_key_eqb_eq (df_clean df) r k
                Hr Hk) as [g [Hg _]].
    apply in_map_iff. exists (constituency_row (k, g)). split.
    + apply cm_key_constituency_row.
    + unfold constituency_monthly. now apply in_map.
Qed.

Lemma NoDup_map_filter {A B C : Type} (f : A -> B) (h : A -> C)
      (p : A -> bool) (l : list A) :
  NoDup (map f l) ->
  (forall a b, p a = true -> p b = true -> h a = h b -> f a = f b) ->
  NoDup (map h (filter p l)).
Proof.
  intros Hn Hi. induction l as [|x l IH]; [constructor|].
  cbn [map] in Hn. inversion Hn as [|? ? Hx Hl]; subst.
  cbn [filter]. destruct (p x) eqn:P; [|now apply IH].
  cbn [map]. constructor; [|now apply IH].
  intros H. apply in_map_iff in H as [y [Hy H]].
  apply filter_In in H as [H Py]. apply Hx.
  rewrite <- (Hi y x Py P Hy). now apply in_map.
Qed.

Lemma key_of_branch_key (r : Row) (y m c b : str) :
  branch_key r = Some (y, m, c, b) <->
  constituency_key r = Some (y, m, c) /\ row_Branch r = Some b.
Proof.
  unfold branch_key, constituency_key.
  destruct (row_Year r), (row_Month r), (row_Constituency r), (row_Branch r);
    split; intros H; try discriminate; try (destruct H; discriminate).
  - injection H as -> -> -> ->. now split.
  - destruct H as [H1 H2]. injection H1 as -> -> ->. now injection H2 as ->.
Qed.

(** X10.  The two rollups fit together: every row of the branch rollup has a
    row of the constituency rollup with its year, month and constituency;
    and in every row of the constituency rollup [Unique_Branches] is the
    number of rows of the branch rollup with that year, month and
    constituency, which is at least 1. *)
Theorem rollups_agree (df : list Row) :
  (forall b, In b (branch_monthly df) ->
             exists c, In c (constituency_monthly df) /\
                       cm_key c = bm_constituency_key b) /\
  (forall c, In c (constituency_monthly df) ->
             cm_Unique_Branches c
             = length (branches_under c (branch_monthly df)) /\
             (1 <= cm_Unique_Branches c)%nat).
Proof.
  split.
  - intros b Hb.
    assert (Hk : In (bm_key b) (map bm_key (branch_monthly df)))
      by now apply in_map.
    apply branch_monthly_keys in Hk as [r [Hr Hk]].
    unfold bm_key in Hk. apply key_of_branch_key in Hk as [Hk _].
    assert (Hc : In (bm_constituency_key b)
                    (map cm_key (constituency_monthly df))).
    { apply constituency_monthly_keys. now exists r. }
    apply in_map_iff in Hc as [c [Hc Hin]]. now exists c.
  - intros c Hc.
    destruct (constituency_monthly_group df c Hc) as [Hg Hrow].
    set (g := filter (in_group constituency_key_eqb constituency_key
                               (cm_key c)) (df_clean df)) in *.
    assert (Hu : cm_Unique_Branches c
                 = length (unique (present (map row_Branch g)))).
    { rewrite Hrow at 1. now destruct (cm_key c) as [[y m] c0]. }
    assert (P : Permutation (unique (present (map row_Branch g)))
                            (map bm_Branch
                                 (branches_under c (branch_monthly df)))).
    { apply NoDup_Permutation.
      - apply unique_NoDup.
      - apply (NoDup_map_filter bm_key).
        + apply branch_monthly_NoDup.
        + intros a b Ha Hb E. apply constituency_key_eqb_eq in Ha, Hb.
          unfold bm_constituency_key in Ha, Hb. unfold bm_key.
          rewrite <- Hb in Ha. injection Ha as -> -> ->. now rewrite E.
      - intros x. rewrite unique_In, present_In, in_map_iff. split.
        + intros [r [Hx Hr]]. apply filter_In in Hr as [Hr Hk].
          apply (in_group_key constituency_key_eqb constituency_key
                              constituency_key_eqb_eq) in Hk.
          destruct (cm_key c) as [[y m] c0] eqn:Ek.
          assert (Hb : In (y, m, c0, x) (map bm_key (branch_monthly df))).
          { apply branch_monthly_keys. exists r. split; [exact Hr|].
            now apply key_of_branch_key. }
          apply in_map_iff in Hb as [b [Hb Hin]].
          apply in_map_iff. exists b. unfold bm_key in Hb.
          injection Hb as Hy Hm Hc0 Hx'. split; [exact Hx'|].
          apply filter_In. split; [exact Hin|].
          apply constituency_key_eqb_eq. unfold bm_constituency_key.
          now rewrite Ek, Hy, Hm, Hc0.
        + intros H. apply in_map_iff in H as [b [Hx Hb]].
          apply filter_In in Hb as [Hb Hk].
          apply constituency_key_eqb_eq in Hk.
          assert (Hk' : In (bm_key b) (map bm_key (branch_monthly df)))
            by now apply in_map.
          apply branch_monthly_keys in Hk' as [r [Hr Hk']].
          unfold bm_key in Hk'. apply key_of_branch_key in Hk' as [Hk1 Hk2].
          exists r. split; [now rewrite Hk2, Hx|].
          apply filter_In. split; [exact Hr|].
          apply (in_group_key constituency_key_eqb constituency_key
                              constituency_key_eqb_eq).
          now rewrite Hk1, <- Hk. }
    assert (L : cm_Unique_Branches c
                = length (branches_under c (branch_monthly df))).
    { rewrite Hu, (Permutation_length P). apply length_map. }
    split; [exact L|].
    rewrite Hu.
    destruct g as [|r g'] eqn:Eg; [congruence|].
    assert (Hr : In r g) by (rewrite Eg; now left).
    unfold g in Hr. apply filter_In in Hr as [Hr _].
    apply df_clean_In in Hr as [_ [_ [Hb _]]].
    cbn [map]. destruct (row_Branch r); [|discriminate].
    cbn [present unique length]. lia.
Qed.

Lemma rollups_agree_witness :
  In north_july (constituency_monthly two_weeks) /\
  length (branches_under north_july (branch_monthly two_weeks)) = 2%nat.
Proof.
  assert (H : In north_july (constituency_monthly two_weeks))
    by (vm_compute; left; reflexivity).
  split; [exact H|].
  destruct (proj2 (rollups_agree two_weeks) north_july H) as [E _].
  rewrite <- E. reflexivity.
Defined.

(** X11.  A month with at most [n] rows in the branch rollup (the program
    takes [n = 5]) is listed whole in both performer tables: the block of
    the month in the top table and its block in the low table both hold
    every branch row of the month, so each of these branches is a top and
    a low performer at once. *)
Theorem small_month_listed_whole (n : nat) (bm : list BranchMonthly)
        (m : str) :
  (length (filter (of_month m) bm) <= n)%nat ->
  Permutation (month_block m (top_performers n bm))
              (map performer (filter (of_month m) bm)) /\
  Permutation (month_block m (low_performers n bm))
              (map performer (filter (of_month m) bm)).
Proof.
  intros H. unfold top_performers, low_performers.
  rewrite (per_month_block (nlargest n)
             (fun g r => nlargest_incl g n r) bm m).
  rewrite (per_month_block (nsmallest n)
             (fun g r => nsmallest_incl g n r) bm m).
  unfold nlargest, nsmallest.
  rewrite !firstn_all2.
  - split; apply Permutation_map;
      [apply by_avg_descending_perm|apply by_avg_ascending_perm].
  - now rewrite (Permutation_length (by_avg_ascending_perm _)).
  - now rewrite (Permutation_length (by_avg_descending_perm _)).
Qed.

Lemma small_month_listed_whole_witness :
  Permutation
    (month_block (of_string "July")
                 (top_performers 5 (branch_monthly two_weeks)))
    (map performer (filter (of_month (of_string "July"))
                           (branch_monthly two_weeks))) /\
  Permutation
    (month_block (of_string "July")
                 (low_performers 5 (branch_monthly two_weeks)))
    (map performer (filter (of_month (of_string "July"))
                           (branch_monthly two_weeks))).
Proof.
  apply small_month_listed_whole. vm_compute. lia.
Defined.

(** ** The listings of the opening summary *)

Lemma cell_eqb_eq (a b : option str) : cell_eqb a b = true <-> a = b.
Proof.
  destruct a as [x|], b as [y|]; simpl; try (split; congruence).
  rewrite str_eqb_eq. split; congruence.
Qed.

Lemma unique_cells_In (l : list (option str)) (x : option str) :
  In x (unique_cells l) <-> In x l.
Proof.
  induction l as [|y l IH]; simpl; [tauto|].
  rewrite filter_In, IH. split.
  - intros [H|[H _]]; auto.
  - intros [H|H]; [now left|].
    destruct (cell_eqb y x) eqn:E.
    + left. now apply cell_eqb_eq.
    + right. now split.
Qed.

Lemma unique_cells_NoDup (l : list (option str)) : NoDup (unique_cells l).
Proof.
  induction l as [|y l IH]; simpl; constructor.
  - rewrite filter_In. intros [_ H].
    now rewrite (proj2 (cell_eqb_eq y y) eq_refl) in H.
  - now apply NoDup_filter.
Qed.

Lemma mixed_spec (l : list (option str)) :
  mixed l = true <-> In None l /\ exists s, In (Some s) l.
Proof.
  unfold mixed. rewrite andb_true_iff, !existsb_exists. split.
  - intros [[a [Ha Na]] [b [Hb Nb]]]. destruct a; [discriminate|].
    destruct b as [s|]; [|discriminate]. split; [exact Ha|now exists s].
  - intros [H [s Hs]]. split; [now exists None|now exists (Some s)].
Qed.

(** A list that is not mixed holds texts only, or NaN only. *)
Lemma not_mixed (l : list (option str)) :
  mixed l = false ->
  l = map Some (present l) \/ Forall (fun c => c = None) l.
Proof.
  intros H. destruct (existsb isna l) eqn:E.
  - right. apply Forall_forall. intros [s|] Hc; [|reflexivity].
    assert (M : mixed l = true)
      by (apply mixed_spec; split; [|now exists s];
          apply existsb_exists in E as [[?|] [Ha Na]];
          [discriminate|exact Ha]).
    congruence.
  - left. clear H. induction l as [|[s|] l IH]; [reflexivity| |].
    + cbn [existsb isna orb] in E. cbn [present map]. now rewrite <- IH.
    + discriminate.
Qed.

Lemma stable_sort_map {A B : Type} (f : A -> B) (lt : B -> B -> bool)
      (l : list A) :
  stable_sort lt (map f l) =
  map f (stable_sort (fun a b => lt (f a) (f b)) l).
Proof.
  induction l as [|x l IH]; [reflexivity|].
  cbn [map stable_sort fold_right].
  change (fold_right (insert_sorted lt) [] (map f l))
    with (stable_sort lt (map f l)).
  change (fold_right (insert_sorted (fun a b => lt (f a) (f b))) [] l)
    with (stable_sort (fun a b => lt (f a) (f b)) l).
  rewrite IH.
  generalize (stable_sort (fun a b => lt (f a) (f b)) l). intros s.
  induction s as [|y s IHs]; [reflexivity|].
  cbn [map insert_sorted]. destruct (lt (f y) (f x)); cbn [map];
    [now rewrite IHs|reflexivity].
Qed.

(** X12.  The listings [sorted(df[col].unique())] of the opening summary
    (of the months, and of the constituencies), which run before the
    cleaning step: the listing raises [TypeError] exactly when the column
    has a blank cell and a cell with text; otherwise it returns the
    distinct values of the column, strictly ascending. *)
Theorem listing_outcome (col : Row -> option str) (df : list Row) :
  (listing col df = Fails TypeError <->
   In None (map col df) /\ exists s, In (Some s) (map col df)) /\
  (forall l, listing col df = Returns l ->
             StronglySorted (fun a b => cell_ltb a b = true) l /\
             forall c, In c l <-> In c (map col df)).
Proof.
  unfold listing, py_sorted. split.
  - destruct (mixed (unique_cells (map col df))) eqn:M.
    + apply mixed_spec in M as [H [s Hs]].
      rewrite unique_cells_In in H, Hs. split; [intros _|reflexivity].
      split; [exact H|now exists s].
    + split; [discriminate|]. intros [H [s Hs]].
      assert (M' : mixed (unique_cells (map col df)) = true).
      { apply mixed_spec. rewrite unique_cells_In. split; [exact H|].
        exists s. now apply unique_cells_In. }
      congruence.
  - intros l. destruct (mixed (unique_cells (map col df))) eqn:M;
      [discriminate|].
    intros H. injection H as <-. split.
    + pose proof (unique_cells_NoDup (map col df)) as N.
      destruct (not_mixed _ M) as [E|E].
      * rewrite E in N |- *. rewrite stable_sort_map.
        apply StronglySorted_map.
        apply (stable_sort_strict str_ltb str_ltb_irrefl str_ltb_trans
                                  str_ltb_total (fun s => s)).
        rewrite map_id.
        revert N. generalize (present (unique_cells (map col df))).
        induction l as [|x l IH]; intros N; [constructor|].
        cbn [map] in N. inversion N as [|? ? Hx Hl]; subst.
        constructor; [|now apply IH].
        intros Hin. apply Hx. now apply in_map.
      * destruct (unique_cells (map col df)) as [|a [|b u]].
        -- constructor.
        -- repeat constructor.
        -- exfalso. inversion E as [|? ? Ha E']; subst.
           inversion E' as [|? ? Hb _]; subst.
           inversion N as [|? ? Hn _]; subst. apply Hn. now left.
    + intros c. rewrite <- (unique_cells_In (map col df)).
      apply stable_sort_In.
Qed.

Lemma listing_outcome_witness :
  months_listing blank_month = Fails TypeError /\
  constituencies_listing blank_month
  = Returns [Some (of_string "North")].
Proof.
  split.
  - apply (proj1 (listing_outcome row_Month blank_month)).
    split; [vm_compute; auto|].
    exists (of_string "July"). vm_compute. auto.
  - reflexivity.
Defined.

(** ** The opening summary and the cleaning *)

Lemma mixed_blank_beside_text (col : Row -> option str) (df : list Row) :
  mixed (map col df) = true <-> blank_beside_text col df.
Proof. apply mixed_spec. Qed.

Lemma mixed_unique_cells (l : list (option str)) :
  mixed (unique_cells l) = mixed l.
Proof.
  destruct (mixed l) eqn:E.
  - apply mixed_spec in E as [H [s Hs]]. apply mixed_spec.
    split; [now apply unique_cells_In|].
    exists s. now apply unique_cells_In.
  - destruct (mixed (unique_cells l)) eqn:F; [|reflexivity].
    apply mixed_spec in F as [H [s Hs]]. rewrite unique_cells_In in H, Hs.
    rewrite <- E. symmetry. apply mixed_spec. split; [exact H|now exists s].
Qed.

(** The function raises nothing but TypeError, and raises it exactly when
    one of the three columns has a blank cell beside a text. *)
Lemma summary_outcome (df : list Row) :
  if mixed (map row_Year df) || mixed (map row_Month df)
     || mixed (map row_Constituency df)
  then calculate_monthly_attendance_averages df = Fails TypeError
  else calculate_monthly_attendance_averages df
       = Returns (mkResults (constituency_monthly df) (branch_monthly df)
                            (top_performing_branches (branch_monthly df))
                            (low_performing_branches (branch_monthly df))
                            (df_clean df)).
Proof.
  unfold calculate_monthly_attendance_averages, date_range,
    months_listing, constituencies_listing, listing, py_sorted.
  rewrite !mixed_unique_cells.
  destruct (mixed (map row_Year df)); [reflexivity|].
  destruct (mixed (map row_Month df)); [reflexivity|].
  destruct (mixed (map row_Constituency df)); reflexivity.
Qed.

Lemma not_mixed_blank (l : list (option str)) :
  mixed l = false -> In None l -> Forall (fun c => c = None) l.
Proof.
  intros M H. apply Forall_forall. intros [s|] Hs; [|reflexivity].
  assert (M' : mixed l = true)
    by (apply mixed_spec; split; [exact H|now exists s]).
  congruence.
Qed.

Lemma collect_no_key {K A : Type} (key_eqb : K -> K -> bool)
      (key : A -> option K) (rows : list A) :
  (forall r, In r rows -> key r = None) -> collect key_eqb key rows = [].
Proof.
  intros H. rewrite <- collect_has_key, filter_none; [reflexivity|].
  intros r Hr. unfold has_key. now rewrite (H r Hr).
Qed.

Lemma column_blank (col : Row -> option str) (df : list Row) (r : Row) :
  mixed (map col df) = false -> In None (map col df) ->
  In r df -> col r = None.
Proof.
  intros M H Hr. pose proof (not_mixed_blank _ M H) as F.
  rewrite Forall_forall in F. apply F. now apply in_map.
Qed.

(** C9.  The claim is right and the program is wrong.  The comment above
    the cleaning step says that rows with missing key values are removed,
    but the opening summary lists the constituencies with [sorted] before
    that step, and [sorted] cannot compare the blank cell with a name: on
    the sheet of the two reports (2025, July, North, B1, 4, 10, 1) and
    (2025, July, blank, B2, 6, 12, 1) the function raises [TypeError]; no
    row is dropped and no rollup is made. *)
Theorem blank_constituency_raises :
  calculate_monthly_attendance_averages blank_constituency
  = Fails TypeError.
Proof. vm_compute. reflexivity. Qed.

(** X9.  Rows with a blank Year or Month never count in a rollup.  The
    function raises [TypeError] in its opening summary, before the
    cleaning step, exactly when the Year, the Month or the Constituency
    column has a blank cell beside a cell with a text; and when it returns
    for a sheet with a row whose Year or Month is blank (the column is then
    blank throughout), both rollups are empty. *)
Theorem blank_key_cells_abort (df : list Row) :
  (blank_beside_text row_Year df \/ blank_beside_text row_Month df \/
   blank_beside_text row_Constituency df <->
   calculate_monthly_attendance_averages df = Fails TypeError) /\
  (forall R,
      calculate_monthly_attendance_averages df = Returns R ->
      (exists r, In r df /\ has_period r = false) ->
      Branch_Monthly R = [] /\ Constituency_Monthly R = []).
Proof.
  pose proof (summary_outcome df) as S.
  rewrite <- !mixed_blank_beside_text.
  destruct (mixed (map row_Year df)) eqn:Y;
    [split; [split; auto|intros R H; congruence]|].
  destruct (mixed (map row_Month df)) eqn:M;
    [split; [split; auto|intros R H; congruence]|].
  destruct (mixed (map row_Constituency df)) eqn:C;
    [split; [split; auto|intros R H; congruence]|].
  cbn [orb] in S. split.
  - split; [intros [H|[H|H]]; discriminate|]. rewrite S. discriminate.
  - intros R H [r [Hr Hp]]. rewrite S in H. injection H as <-.
    cbn [Branch_Monthly Constituency_Monthly].
    unfold branch_monthly, constituency_monthly, groupby.
    assert (K : forall q, In q (df_clean df) ->
                          row_Year q = None \/ row_Month q = None).
    { intros q Hq. apply df_clean_In in Hq as [Hq _].
      unfold has_period in Hp. apply andb_false_iff in Hp as [Hp|Hp];
        apply negb_false_iff in Hp.
      - left. apply (column_blank row_Year df q Y); [|exact Hq].
        apply in_map_iff. exists r. split; [|exact Hr].
        now destruct (row_Year r).
      - right. apply (column_blank row_Month df q M); [|exact Hq].
        apply in_map_iff. exists r. split; [|exact Hr].
        now destruct (row_Month r). }
    rewrite !collect_no_key; [split; reflexivity| |].
    + intros q Hq. unfold constituency_key.
      destruct (K q Hq) as [-> | ->]; [reflexivity|].
      now destruct (row_Year q).
    + intros q Hq. unfold branch_key.
      destruct (K q Hq) as [-> | ->]; [reflexivity|].
      now destruct (row_Year q).
Qed.

Lemma blank_key_cells_abort_witness :
  calculate_monthly_attendance_averages blank_month = Fails TypeError.
Proof.
  apply (proj1 (blank_key_cells_abort blank_month)).
  right. left. split; [vm_compute; auto|].
  exists (of_string "July"). vm_compute. auto.
Defined.



(** ** The summary of one report *)

Lemma fold_left_add (l : list Z) (a : Z) :
  fold_left Z.add l a = a + sum_Z l.
Proof.
  unfold sum_Z. revert a. induction l as [|x l IH]; intros a; simpl; [lia|].
  rewrite IH, (IH x). lia.
Qed.

Lemma sum_Z_cons (x : Z) (l : list Z) : sum_Z (x :: l) = x + sum_Z l.
Proof. unfold sum_Z at 1. simpl. apply fold_left_add. Qed.

Lemma sum_Z_app (l l' : list Z) : sum_Z (l ++ l') = sum_Z l + sum_Z l'.
Proof.
  induction l as [|x l IH]; [reflexivity|].
  cbn [app]. rewrite !sum_Z_cons, IH. lia.
Qed.

Lemma sum_Z_perm (l l' : list Z) : Permutation l l' -> sum_Z l = sum_Z l'.
Proof.
  induction 1 as [|x l l' _ IH|x y l|l l' l'' _ IH1 _ IH2];
    rewrite ?sum_Z_cons; lia.
Qed.

Lemma sum_Z_groups {K A : Type} (f : A -> Z) (G : list (K * list A)) :
  sum_Z (map (fun kg => sum_Z (map f (snd kg))) G)
  = sum_Z (map f (flat_map snd G)).
Proof.
  induction G as [|[k g] G IH]; [reflexivity|].
  cbn [map flat_map snd]. now rewrite sum_Z_cons, map_app, sum_Z_app, IH.
Qed.

Lemma length_groups {K A : Type} (G : list (K * list A)) :
  list_sum (map (fun kg => length (snd kg)) G) = length (flat_map snd G).
Proof.
  induction G as [|[k g] G IH]; [reflexivity|].
  cbn [map flat_map snd]. rewrite length_app, <- IH. reflexivity.
Qed.

Section Concat.

Context {K A : Type}.

Variable key_eqb : K -> K -> bool.

Variable key_ltb : K -> K -> bool.

Variable key : A -> K.

Lemma add_to_group_concat (k : K) (a : A) (gs : list (K * list A)) :
  Permutation (flat_map snd (add_to_group key_eqb k a gs))
              (flat_map snd gs ++ [a]).
Proof.
  induction gs as [|[k' g] gs IH]; [reflexivity|].
  cbn [add_to_group]. destruct (key_eqb k k'); cbn [flat_map snd].
  - rewrite <- !app_assoc. apply Permutation_app_head, Permutation_app_comm.
  - rewrite IH. now rewrite app_assoc.
Qed.

Lemma collect_concat (rows : list A) :
  Permutation (flat_map snd (collect key_eqb (fun r => Some (key r)) rows))
              rows.
Proof.
  induction rows as [|r rows IH] using rev_ind; [reflexivity|].
  rewrite collect_snoc, add_to_group_concat.
  now apply Permutation_app_tail.
Qed.

(** The groups of a table in which every row has a key hold every row
    once. *)
Lemma groupby_concat (rows : list A) :
  Permutation
    (flat_map snd (groupby key_eqb key_ltb (fun r => Some (key r)) rows))
    rows.
Proof.
  unfold groupby. rewrite <- (collect_concat rows) at 2.
  apply Permutation_flat_map, stable_sort_perm.
Qed.

End Concat.

Lemma summary_row_name (k : str) (g : list AttendanceRecord) :
  Summary.cs_Constituency (Summary.summary_row (k, g)) = k.
Proof. reflexivity. Qed.

(** X13.  In the analysis of a list of records that is not empty,
    ['total_branches'] is the number of records, and the constituency
    summary accounts for every record once: its branch counts add up to
    ['total_branches'], its attendances to ['total_attendance'] and its
    targets to ['total_expected'].  It has one row for each constituency
    of the records, strictly ascending in the name. *)
Theorem summary_accounts_for_every_record
        (df : list AttendanceRecord) (a : Summary.Analysis) :
  Summary.analyze_attendance_data df = Some a ->
  Summary.total_branches a = length df /\
  list_sum (map Summary.cs_Branch_count (Summary.constituency_summary a))
  = Summary.total_branches a /\
  sum_Z (map Summary.cs_Attendance (Summary.constituency_summary a))
  = Summary.total_attendance a /\
  sum_Z (map Summary.cs_Target (Summary.constituency_summary a))
  = Summary.total_expected a /\
  StronglySorted
    (fun r q => str_ltb (Summary.cs_Constituency r)
                        (Summary.cs_Constituency q) = true)
    (Summary.constituency_summary a) /\
  (forall c, In c (map Summary.cs_Constituency
                       (Summary.constituency_summary a))
             <-> In c (map Constituency df)).
Proof.
  intros H. destruct df as [|r0 df0] eqn:E; [discriminate|].
  rewrite <- E in *. unfold Summary.analyze_attendance_data in H.
  rewrite E in H at 1. injection H as <-.
  cbn [Summary.total_branches Summary.total_attendance
       Summary.total_expected Summary.constituency_summary].
  clear E r0 df0. unfold Summary.summarize. rewrite !map_map.
  pose proof (groupby_concat str_eqb str_ltb Constituency df) as P.
  repeat split.
  - erewrite map_ext;
      [rewrite length_groups; apply (Permutation_length P)|].
    now intros [k g].
  - erewrite map_ext;
      [rewrite (sum_Z_groups Attendance);
       apply sum_Z_perm, Permutation_map, P|].
    now intros [k g].
  - erewrite map_ext;
      [rewrite (sum_Z_groups Target);
       apply sum_Z_perm, Permutation_map, P|].
    now intros [k g].
  - apply StronglySorted_map.
    eapply StronglySorted_weaken;
      [|apply (stable_sort_strict str_ltb str_ltb_irrefl str_ltb_trans
                                  str_ltb_total fst)].
    + now intros [k g] [k' g'] _ _ H.
    + apply (collect_spec str_eqb (fun r => Some (Constituency r))
                          str_eqb_eq).
  - intros H. apply in_map_iff in H as [[k g] [Hc H]].
    rewrite summary_row_name in Hc. subst c.
    apply (groupby_spec str_eqb str_ltb (fun r => Some (Constituency r))
                        str_eqb_eq) in H as [Hg Hn].
    destruct g as [|r g]; [congruence|].
    assert (Hr : In r (r :: g)) by now left.
    rewrite Hg in Hr. apply filter_In in Hr as [Hr Hk].
    apply (in_group_key str_eqb (fun r => Some (Constituency r))
                        str_eqb_eq) in Hk.
    injection Hk as <-. now apply in_map.
  - intros H. apply in_map_iff in H as [r [<- Hr]].
    destruct (groupby_covers str_eqb str_ltb
                (fun r => Some (Constituency r)) str_eqb_eq df r
                (Constituency r) Hr eq_refl) as [g [Hg _]].
    apply in_map_iff. exists (Constituency r, g). now split.
Qed.

Lemma summary_accounts_for_every_record_witness :
  exists a, Summary.analyze_attendance_data sample_records = Some a /\
            list_sum (map Summary.cs_Branch_count
                          (Summary.constituency_summary a)) = 3%nat /\
            sum_Z (map Summary.cs_Attendance
                       (Summary.constituency_summary a)) = 22.
Proof.
  destruct (Summary.analyze_attendance_data sample_records) as [a|] eqn:E;
    [|vm_compute in E; discriminate].
  exists a. split; [reflexivity|].
  destruct (summary_accounts_for_every_record sample_records a E)
    as (H1 & H2 & H3 & _).
  rewrite H2, H1, H3.
  vm_compute in E. injection E as <-. split; reflexivity.
Defined.

Lemma map_rate_entry_names (df : list AttendanceRecord) (l : list str) :
  map Summary.cr_Constituency (map (Summary.rate_entry df) l) = l.
Proof. rewrite map_map. apply map_id. Qed.

(** X14.  In the analysis of a list of records that is not empty,
    ['constituency_rates'] has one entry for each constituency of the
    records; the rate of an entry is the sum of the attendances of the
    constituency over the sum of its targets, times 100, rounded to two
    decimals; and when no rate is NaN the entries are in descending order
    of the rate. *)
Theorem constituency_rates_ranked
        (df : list AttendanceRecord) (a : Summary.Analysis) :
  Summary.analyze_attendance_data df = Some a ->
  Permutation (map Summary.cr_Constituency (Summary.constituency_rates a))
              (unique (map Constituency df)) /\
  (forall e, In e (Summary.constituency_rates a) ->
             e = Summary.rate_entry df (Summary.cr_Constituency e)) /\
  (Forall (fun e => is_nan (Summary.cr_Attendance_rate e) = false)
          (Summary.constituency_rates a) ->
   StronglySorted
     (fun e f => fltb (Summary.cr_Attendance_rate e)
                      (Summary.cr_Attendance_rate f) = false)
     (Summary.constituency_rates a)).
Proof.
  intros H. destruct df as [|r0 df0] eqn:E; [discriminate|].
  rewrite <- E in *. unfold Summary.analyze_attendance_data in H.
  rewrite E in H at 1. injection H as <-.
  cbn [Summary.constituency_rates]. clear E r0 df0.
  unfold Summary.sorted_by_rate.
  set (l := map (Summary.rate_entry df) (unique (map Constituency df))).
  repeat split.
  - rewrite <- (map_rate_entry_names df (unique (map Constituency df))).
    apply Permutation_map, stable_sort_perm.
  - intros e He. apply stable_sort_In in He. unfold l in He.
    apply in_map_iff in He as [c [<- _]]. reflexivity.
  - intros N.
    assert (N' : Forall (fun e => is_nan (Summary.cr_Attendance_rate e)
                                  = false) l).
    { apply Forall_forall. intros e He. rewrite Forall_forall in N.
      apply N. now apply stable_sort_In. }
    apply (stable_sort_sorted Summary.higher
             (fun e => is_nan (Summary.cr_Attendance_rate e) = false)).
    + intros x y. unfold Summary.higher. apply fltb_asym.
    + intros x y z _ Hy _. unfold Summary.higher. intros H1 H2.
      now apply (fltb_negtrans _ (Summary.cr_Attendance_rate y)).
    + exact N'.
Qed.

Lemma constituency_rates_ranked_witness :
  exists a, Summary.analyze_attendance_data sample_records = Some a /\
            StronglySorted
              (fun e f => fltb (Summary.cr_Attendance_rate e)
                               (Summary.cr_Attendance_rate f) = false)
              (Summary.constituency_rates a).
Proof.
  destruct (Summary.analyze_attendance_data sample_records) as [a|] eqn:E;
    [|vm_compute in E; discriminate].
  exists a. split; [reflexivity|].
  apply (proj2 (proj2 (constituency_rates_ranked sample_records a E))).
  vm_compute in E. injection E as <-. vm_compute. repeat constructor.
Defined.

(** X15.  [main] raises [KeyError], before anything is handed to the sheet
    writer, exactly when the parse succeeds with no record; this is so for
    every text without a header line, whatever its record lines.  When
    [main] gets as far as the writer, the rows it hands over are the
    parsed records, and there is at least one. *)
Theorem main_needs_a_record (raw_data pastor month week year : str) :
  (Summary.main raw_data pastor month week year = Fails KeyError <->
   parse_attendance_data raw_data pastor month week year = Ok []) /\
  (forall rows,
      Summary.main raw_data pastor month week year = Returns rows <->
      parse_attendance_data raw_data pastor month week year = Ok rows /\
      rows <> []) /\
  (forallb (fun l => negb (is_header l)) (clean_lines raw_data) = true ->
   Summary.main raw_data pastor month week year = Fails KeyError).
Proof.
  assert (K : Summary.main raw_data pastor month week year = Fails KeyError
              <-> parse_attendance_data raw_data pastor month week year
                  = Ok []).
  { unfold Summary.main.
    destruct (parse_attendance_data raw_data pastor month week year)
      as [[|r rs]|e]; cbn; split; congruence. }
  split; [exact K|]. split.
  - intros rows. unfold Summary.main.
    destruct (parse_attendance_data raw_data pastor month week year)
      as [[|r rs]|e]; cbn; split.
    + discriminate.
    + intros [H Hn]. injection H as <-. congruence.
    + intros H. injection H as <-. split; [reflexivity|discriminate].
    + intros [H _]. now injection H as <-.
    + discriminate.
    + intros [H _]. discriminate.
  - intros H. apply K. unfold parse_attendance_data.
    now rewrite (scan_no_header pastor month week year _ [] H).
Qed.

Lemma main_needs_a_record_witness :
  Summary.main no_header (of_string "NA") (of_string "July")
               (of_string "5") (of_string "2025") = Fails KeyError.
Proof.
  apply (proj2 (proj2 (main_needs_a_record no_header (of_string "NA")
                         (of_string "July") (of_string "5")
                         (of_string "2025")))).
  vm_compute. reflexivity.
Defined.

(** ** The two tables of branches of the summary *)

Lemma fltb_nan_l (x : float64) : fltb nan x = false.
Proof. now destruct x. Qed.

Lemma by_rate_descending_perm (df : list AttendanceRecord) :
  Permutation (Summary.by_rate_descending df) df.
Proof.
  unfold Summary.by_rate_descending.
  rewrite stable_sort_perm. apply filter_partition.
Qed.

Lemma by_rate_ascending_perm (df : list AttendanceRecord) :
  Permutation (Summary.by_rate_ascending df) df.
Proof.
  unfold Summary.by_rate_ascending.
  rewrite stable_sort_perm. apply filter_partition.
Qed.

Lemma rate_present (df : list AttendanceRecord) (r : AttendanceRecord) :
  In r (filter (fun r => negb (Summary.rate_isnan r)) df) ->
  is_nan (Attendance_rate r) = false.
Proof.
  intros H. apply filter_In in H as [_ H].
  now apply negb_true_iff in H.
Qed.

Lemma rate_absent (df : list AttendanceRecord) (r : AttendanceRecord) :
  In r (filter Summary.rate_isnan df) -> Attendance_rate r = nan.
Proof.
  intros H. apply filter_In in H as [_ H]. unfold Summary.rate_isnan in H.
  now destruct (Attendance_rate r).
Qed.

Lemma by_rate_descending_sorted (df : list AttendanceRecord) :
  StronglySorted
    (fun r q => fltb (Attendance_rate r) (Attendance_rate q) = false)
    (Summary.by_rate_descending df).
Proof.
  unfold Summary.by_rate_descending. apply StronglySorted_app.
  - apply (stable_sort_sorted
             (fun r q => fltb (Attendance_rate q) (Attendance_rate r))
             (fun r => is_nan (Attendance_rate r) = false)).
    + intros a b. apply fltb_asym.
    + intros a b c _ Hb _ H1 H2.
      now apply (fltb_negtrans _ (Attendance_rate b)).
    + apply Forall_forall. apply rate_present.
  - apply (all_may_precede
             (fun r q => fltb (Attendance_rate q) (Attendance_rate r))).
    intros a b Hb. apply rate_absent in Hb. rewrite Hb. apply fltb_nan_r.
  - intros a b _ Hb. apply rate_absent in Hb. rewrite Hb. apply fltb_nan_r.
Qed.

Lemma by_rate_ascending_sorted (df : list AttendanceRecord) :
  StronglySorted
    (fun r q => fltb (Attendance_rate q) (Attendance_rate r) = false)
    (Summary.by_rate_ascending df).
Proof.
  unfold Summary.by_rate_ascending. apply StronglySorted_app.
  - apply (stable_sort_sorted
             (fun r q => fltb (Attendance_rate r) (Attendance_rate q))
             (fun r => is_nan (Attendance_rate r) = false)).
    + intros a b. apply fltb_asym.
    + intros a b c _ Hb _ H1 H2.
      now apply (fltb_negtrans _ (Attendance_rate b)).
    + apply Forall_forall. apply rate_present.
  - apply (all_may_precede
             (fun r q => fltb (Attendance_rate r) (Attendance_rate q))).
    intros a b Hb. apply rate_absent in Hb. rewrite Hb. apply fltb_nan_l.
  - intros a b Ha Hb. apply rate_absent in Hb. rewrite Hb.
    apply fltb_nan_l.
Qed.

(** X16.  In the analysis of a list of records that is not empty, the table
    of the top branches is the first five of the records arranged by
    descending rate, and the table of the lowest branches the first five of
    the records arranged by ascending rate (records without a rate last in
    both): each has five rows, or as many as there are records when these
    are fewer, so with at most five records every branch is in both
    tables. *)
Theorem branch_tables_ranked
        (df : list AttendanceRecord) (a : Summary.Analysis) :
  Summary.analyze_attendance_data df = Some a ->
  exists high low,
    Summary.top_performing_branches a
    = map Summary.ranked (firstn 5 high) /\
    Summary.lowest_performing_branches a
    = map Summary.ranked (firstn 5 low) /\
    Permutation high df /\ Permutation low df /\
    StronglySorted
      (fun r q => fltb (Attendance_rate r) (Attendance_rate q) = false)
      high /\
    StronglySorted
      (fun r q => fltb (Attendance_rate q) (Attendance_rate r) = false)
      low /\
    length (Summary.top_performing_branches a) = Nat.min 5 (length df) /\
    length (Summary.lowest_performing_branches a) = Nat.min 5 (length df).
Proof.
  intros H.
  assert (T : Summary.top_performing_branches a
              = map Summary.ranked
                    (firstn 5 (Summary.by_rate_descending df))).
  { destruct df; [discriminate|]. now injection H as <-. }
  assert (L : Summary.lowest_performing_branches a
              = map Summary.ranked
                    (firstn 5 (Summary.by_rate_ascending df))).
  { destruct df; [discriminate|]. now injection H as <-. }
  exists (Summary.by_rate_descending df), (Summary.by_rate_ascending df).
  split; [exact T|]. split; [exact L|].
  split; [apply by_rate_descending_perm|].
  split; [apply by_rate_ascending_perm|].
  split; [apply by_rate_descending_sorted|].
  split; [apply by_rate_ascending_sorted|].
  rewrite T, L, !length_map, !length_firstn.
  rewrite (Permutation_length (by_rate_descending_perm df)).
  rewrite (Permutation_length (by_rate_ascending_perm df)).
  split; reflexivity.
Qed.

Lemma branch_tables_ranked_witness :
  exists a, Summary.analyze_attendance_data sample_records = Some a /\
            length (Summary.top_performing_branches a) = 3%nat /\
            map Summary.rb_Branch (Summary.top_performing_branches a)
            = [of_string "B2"; of_string "B3"; of_string "B1"].
Proof.
  destruct (Summary.analyze_attendance_data sample_records) as [a|] eqn:E;
    [|vm_compute in E; discriminate].
  exists a. split; [reflexivity|].
  destruct (branch_tables_ranked sample_records a E)
    as (high & low & _ & _ & _ & _ & _ & _ & L & _).
  split; [rewrite L; reflexivity|].
  vm_compute in E. injection E as <-. reflexivity.
Defined.

(** ** The layout of the charts *)

Import Charts.

Lemma each_map {A B : Type} (body : A -> outcome B) (f : A -> B)
      (l : list A) :
  (forall x, In x l -> body x = Returns (f x)) ->
  each body l = Returns (map f l).
Proof.
  induction l as [|x l IH]; intros H; [reflexivity|].
  cbn [each]. rewrite (H x) by now left. cbn [and_then].
  rewrite IH by (intros y Hy; apply H; now right). reflexivity.
Qed.

Lemma place_in (r c idx : nat) :
  (idx < r * c)%nat ->
  place (Array [r; c]) c idx = Returns (cell_at c idx).
Proof.
  intros H. assert (Hc : (c <> 0)%nat) by nia.
  unfold place, item, cell_at. cbn [fst snd].
  assert (H1 : (idx / c < r)%nat)
    by (apply Nat.Div0.div_lt_upper_bound; lia).
  assert (H2 : (idx mod c < c)%nat) by now apply Nat.mod_upper_bound.
  apply Nat.ltb_lt in H1, H2. now rewrite H1, H2.
Qed.

Lemma enumerate_fst {A : Type} (l : list A) :
  map fst (enumerate l) = seq 0 (length l).
Proof.
  unfold enumerate. generalize 0%nat.
  induction l as [|x l IH]; intros a; [reflexivity|].
  cbn [length seq combine map fst]. now rewrite IH.
Qed.

Lemma enumerate_snd {A : Type} (l : list A) : map snd (enumerate l) = l.
Proof.
  unfold enumerate. generalize 0%nat.
  induction l as [|x l IH]; intros a; [reflexivity|].
  cbn [length seq combine map snd]. now rewrite IH.
Qed.

Lemma enumerate_In {A : Type} (l : list A) (i : nat) (x : A) :
  In (i, x) (enumerate l) -> (i < length l)%nat.
Proof.
  intros H. apply (in_map fst) in H. rewrite enumerate_fst in H.
  apply in_seq in H. cbn [fst] in H. lia.
Qed.

Lemma cell_at_inj (c i j : nat) :
  (c <> 0)%nat -> cell_at c i = cell_at c j -> i = j.
Proof.
  intros Hc H. unfold cell_at in H. injection H as H1 H2.
  rewrite (Nat.div_mod_eq i c), (Nat.div_mod_eq j c). now rewrite H1, H2.
Qed.

Lemma NoDup_map_injective {A B : Type} (f : A -> B) (l : list A) :
  (forall a b, f a = f b -> a = b) -> NoDup l -> NoDup (map f l).
Proof.
  intros Hf. induction 1 as [|x l Hx _ IH]; cbn [map]; constructor.
  - intros H. apply in_map_iff in H as [y [E Hy]].
    apply Hf in E. now subst y.
  - exact IH.
Qed.

Lemma cells_tile (r c : nat) :
  (c <> 0)%nat -> tiles r c (map (cell_at c) (seq 0 (r * c))).
Proof.
  intros Hc. split.
  - apply NoDup_map_injective; [|apply seq_NoDup].
    intros i j. now apply cell_at_inj.
  - intros r0 c0. rewrite in_map_iff. split.
    + intros [idx [E H]]. apply in_seq in H. unfold cell_at in E.
      injection E as <- <-. split.
      * apply Nat.Div0.div_lt_upper_bound. lia.
      * now apply Nat.mod_upper_bound.
    + intros [H1 H2]. exists (r0 * c + c0)%nat. split.
      * unfold cell_at. f_equal.
        -- rewrite Nat.div_add_l by exact Hc.
           rewrite Nat.div_small by exact H2. lia.
        -- rewrite Nat.add_comm, Nat.Div0.mod_add.
           now apply Nat.mod_small.
      * apply in_seq. nia.
Qed.

(** The rows needed for [n] subplots in [c] columns hold them all, with
    less than a row to spare. *)
Lemma rows_needed (n c : nat) :
  (c <> 0)%nat ->
  (n <= (n + c - 1) / c * c /\ (n + c - 1) / c * c - n < c)%nat.
Proof.
  intros Hc. pose proof (Nat.div_mod_eq (n + c - 1) c) as E.
  pose proof (Nat.mod_upper_bound (n + c - 1) c Hc) as M. nia.
Qed.

Lemma plot_and_hide_grid (r c : nat) (names : list (option str))
      (pos : nat) :
  (c <> 0)%nat -> r = ((length names + c - 1) / c)%nat ->
  exists f, plot_and_hide (Array [r; c]) r c names pos = Returns f /\
            anchor f = pos /\ laid_out names c f.
Proof.
  intros Hc Hr. destruct (rows_needed (length names) c Hc) as [H1 H2].
  rewrite <- Hr in H1, H2. unfold plot_and_hide.
  rewrite (each_map _ (fun ic => (snd ic, cell_at c (fst ic)))).
  2:{ intros [i x] Hi. apply enumerate_In in Hi. cbn [fst snd].
      rewrite place_in by lia. reflexivity. }
  cbn [and_then].
  rewrite (each_map _ (cell_at c)).
  2:{ intros i Hi. apply in_seq in Hi. apply place_in. lia. }
  cbn [and_then]. eexists. split; [reflexivity|].
  split; [reflexivity|]. exists r. cbn [grid plots hidden].
  assert (S : map snd (map (fun ic : nat * option str =>
                              (snd ic, cell_at c (fst ic)))
                           (enumerate names))
              = map (cell_at c) (seq 0 (length names))).
  { rewrite map_map. cbn [snd]. rewrite <- enumerate_fst.
    now rewrite map_map. }
  split; [reflexivity|]. split.
  { rewrite map_map. cbn [fst]. apply enumerate_snd. }
  split; [exact S|]. split.
  - rewrite S, <- map_app, <- seq_app.
    replace (length names + (r * c - length names))%nat with (r * c)%nat
      by lia.
    now apply cells_tile.
  - now rewrite length_map, length_seq.
Qed.

(** X17.  The picture of the constituencies: a sheet with no row makes
    [plt.subplots] raise [ValueError]; any other sheet gives a grid of two
    columns on which the distinct constituencies are drawn in order of
    first appearance, row by row; every subplot of the grid is drawn on or
    hidden, none twice, and at most one is hidden.  No subplot is looked
    up outside the grid. *)
Theorem constituency_charts_grid (Constituency : list (option str)) :
  (Constituency = [] ->
   create_constituency_charts Constituency = Fails (Raised ValueError)) /\
  (Constituency <> [] ->
   exists f, create_constituency_charts Constituency = Returns f /\
             laid_out (unique_cells Constituency) 2 f).
Proof.
  split; [now intros ->|].
  intros H. unfold create_constituency_charts.
  set (names := unique_cells Constituency).
  assert (Hn : (1 <= length names)%nat).
  { destruct Constituency as [|x l]; [congruence|].
    unfold names. cbn [unique_cells length]. lia. }
  cbn [floordiv and_then].
  set (r := ((length names + 2 - 1) / 2)%nat).
  assert (Hr : (1 <= r)%nat).
  { unfold r. apply Nat.div_le_lower_bound; lia. }
  assert (E : (a <~ subplots r 2 ;;
               (if (r =? 1)%nat then reshape_row a else Returns a))
              = Returns (Array [r; 2%nat])).
  { destruct r as [|[|r']]; [lia|reflexivity|reflexivity]. }
  destruct (subplots r 2) as [a|e]; [|discriminate].
  cbn [and_then] in E |- *. rewrite E. cbn [and_then].
  destruct (plot_and_hide_grid r 2 names 1) as [f [Hf [_ L]]];
    [lia|reflexivity|].
  now exists f.
Qed.

Lemma constituency_charts_grid_witness :
  exists f, Charts.create_constituency_charts chart_names = Returns f /\
            Charts.laid_out (unique_cells chart_names) 2 f.
Proof.
  apply (proj2 (constituency_charts_grid chart_names)). discriminate.
Defined.

Lemma branches_of_some (df : list ChartRow) (c : str) :
  In (Some c) (map ch_Constituency df) ->
  (1 <= length (branches_of df (Some c)))%nat.
Proof.
  intros H. apply in_map_iff in H as [row [Hc Hrow]].
  assert (Hb : In (ch_Branch row) (branches_of df (Some c))).
  { unfold branches_of. apply unique_cells_In, in_map, filter_In.
    split; [exact Hrow|]. rewrite Hc. cbn. apply str_eqb_refl. }
  destruct (branches_of df (Some c)); [destruct Hb|cbn; lia].
Qed.

Lemma branches_of_none (df : list ChartRow) : branches_of df None = [].
Proof.
  unfold branches_of.
  rewrite filter_none; [reflexivity|].
  intros r _. unfold same_text. now destruct (ch_Constituency r).
Qed.

Lemma branch_figure_grid (df : list ChartRow) (pos : nat) (c : str) :
  In (Some c) (map ch_Constituency df) ->
  exists f, branch_figure df pos (Some c) = Returns f /\
            anchor f = pos /\
            laid_out (branches_of df (Some c))
                     (Nat.min 3 (length (branches_of df (Some c)))) f.
Proof.
  intros H. apply branches_of_some in H. unfold branch_figure.
  set (names := branches_of df (Some c)) in *.
  set (n := length names) in *.
  set (k := Nat.min 3 n).
  assert (Hk : (k <> 0)%nat) by (unfold k; lia).
  set (r := ((n + k - 1) / k)%nat).
  assert (F : floordiv (n + k - 1) k = Returns r)
    by (unfold floordiv; destruct k; [lia|reflexivity]).
  rewrite F. cbn [and_then].
  assert (E : (a <~ subplots r k ;;
               (if (n =? 1)%nat then Returns (nested a)
                else if (r =? 1)%nat then reshape_row a
                else if (k =? 1)%nat then reshape_column a
                else Returns a))
              = Returns (Array [r; k])).
  { unfold r, k. destruct n as [|[|[|[|n']]]]; [lia| | | |];
      try reflexivity.
    change (Nat.min 3 (S (S (S (S n'))))) with 3%nat.
    assert (R : (2 <= (S (S (S (S n'))) + 3 - 1) / 3)%nat)
      by (apply Nat.div_le_lower_bound; lia).
    destruct ((S (S (S (S n'))) + 3 - 1) / 3)%nat as [|[|r']];
      [lia|lia|reflexivity]. }
  destruct (subplots r k) as [a|e]; [|discriminate].
  cbn [and_then] in E |- *. rewrite E. cbn [and_then].
  apply plot_and_hide_grid; [exact Hk|reflexivity].
Qed.

Lemma branch_figure_blank (df : list ChartRow) (pos : nat) :
  branch_figure df pos None = Fails (Raised ZeroDivisionError).
Proof. unfold branch_figure. now rewrite branches_of_none. Qed.

Lemma branch_loop_blank (df : list ChartRow) (cs : list (option str))
      (pos : nat) :
  (forall c, In (Some c) cs -> In (Some c) (map ch_Constituency df)) ->
  In None cs ->
  branch_loop df cs pos = Fails (Raised ZeroDivisionError).
Proof.
  revert pos. induction cs as [|[c|] cs IH]; intros pos Hs Hn.
  - destruct Hn.
  - cbn [branch_loop].
    destruct (branch_figure_grid df pos c) as [f [Hf _]];
      [apply Hs; now left|].
    rewrite Hf. cbn [and_then]. rewrite IH; [reflexivity| |].
    + intros c' Hc'. apply Hs. now right.
    + destruct Hn as [Hn|Hn]; [discriminate|exact Hn].
  - cbn [branch_loop]. now rewrite branch_figure_blank.
Qed.

Lemma branch_loop_grid (df : list ChartRow) (cs : list (option str))
      (pos : nat) :
  (forall c, In c cs -> In c (map ch_Constituency df)) ->
  ~ In None cs ->
  exists figs,
    branch_loop df cs pos = Returns figs /\
    map fst figs = cs /\
    forall i c f, nth_error figs i = Some (c, f) ->
                  anchor f = (pos + 40 * i)%nat /\
                  laid_out (branches_of df c)
                           (Nat.min 3 (length (branches_of df c))) f.
Proof.
  revert pos. induction cs as [|[c|] cs IH]; intros pos Hs Hn.
  - exists []. split; [reflexivity|]. split; [reflexivity|].
    intros [|i] c0 f0 H0; discriminate.
  - destruct (branch_figure_grid df pos c) as [f [Hf [Ha L]]];
      [apply Hs; now left|].
    destruct (IH (pos + 40)%nat) as [figs [Hl [Hm Hi]]].
    + intros c' Hc'. apply Hs. now right.
    + intros H. apply Hn. now right.
    + exists ((Some c, f) :: figs). cbn [branch_loop].
      rewrite Hf. cbn [and_then]. rewrite Hl. cbn [and_then].
      split; [reflexivity|]. split; [cbn [map fst]; now rewrite Hm|].
      intros [|i] c' f' H; cbn [nth_error] in H.
      * injection H as <- <-. split; [lia|exact L].
      * destruct (Hi i c' f' H) as [H1 H2]. split; [lia|exact H2].
  - exfalso. apply Hn. now left.
Qed.

(** X18.  The pictures of the branches: a row with a blank constituency
    makes the count of columns 0 and the division for the count of rows
    raise [ZeroDivisionError].  Without such a row there is one picture
    for each constituency, in order of first appearance, anchored at rows
    1, 41, 81, ... of the sheet; its grid has as many columns as the
    constituency has branches, but at most 3, the branches are drawn row by
    row, every subplot is drawn on or hidden, none twice, less than a row
    of subplots is hidden, and no subplot is looked up outside the grid
    (the case [n_cols == 1] with several rows never arises). *)
Theorem branch_charts_grid (df : list ChartRow) :
  (In None (map ch_Constituency df) ->
   create_branch_charts df = Fails (Raised ZeroDivisionError)) /\
  (~ In None (map ch_Constituency df) ->
   exists figs,
     create_branch_charts df = Returns figs /\
     map fst figs = unique_cells (map ch_Constituency df) /\
     forall i c f, nth_error figs i = Some (c, f) ->
                   anchor f = (1 + 40 * i)%nat /\
                   laid_out (branches_of df c)
                            (Nat.min 3 (length (branches_of df c))) f).
Proof.
  unfold create_branch_charts. split; intros H.
  - apply branch_loop_blank.
    + intros c Hc. now apply unique_cells_In.
    + now apply unique_cells_In.
  - apply branch_loop_grid.
    + intros c Hc. now apply unique_cells_In.
    + intros Hn. apply H. now apply unique_cells_In.
Qed.

Lemma branch_charts_grid_witness :
  Charts.create_branch_charts chart_rows_blank
  = Fails (Raised ZeroDivisionError) /\
  exists figs,
    Charts.create_branch_charts chart_rows = Returns figs /\
    map fst figs = [Some (of_string "North"); Some (of_string "South")].
Proof.
  split.
  - apply (proj1 (branch_charts_grid chart_rows_blank)).
    vm_compute. tauto.
  - destruct (proj2 (branch_charts_grid chart_rows)) as [figs [H1 [H2 _]]].
    + vm_compute. intuition discriminate.
    + exists figs. split; [exact H1|]. rewrite H2. reflexivity.
Defined.

(** ** The name of the file of the charts *)

Section Replace.

Variables old new : str.

Hypothesis old_nonempty : (1 <= length old)%nat.

Hypothesis new_longer : (length old < length new)%nat.

Lemma replace_from_length (s : str) (skip : nat) :
  (length s <= length (replace_from old new skip s) + skip)%nat.
Proof.
  revert skip. induction s as [|c s IH]; intros skip; [cbn; lia|].
  cbn [replace_from]. destruct skip as [|k].
  - destruct (startswith old (c :: s)).
    + rewrite length_app. specialize (IH (length old - 1)%nat).
      cbn [length]. lia.
    + specialize (IH 0%nat). cbn [length]. lia.
  - specialize (IH k). cbn [length]. lia.
Qed.

Lemma replace_from_grows (s : str) (skip : nat) :
  occurs old (skipn skip s) = true ->
  (length s < length (replace_from old new skip s) + skip)%nat.
Proof.
  revert skip. induction s as [|c s IH]; intros skip H.
  - rewrite skipn_nil in H. cbn in H. rewrite orb_false_r in H.
    destruct old; [cbn in old_nonempty; lia|discriminate].
  - cbn [replace_from]. destruct skip as [|k].
    + cbn [skipn occurs] in H. destruct (startswith old (c :: s)) eqn:E.
      * rewrite length_app.
        pose proof (replace_from_length s (length old - 1)).
        cbn [length]. lia.
      * cbn [orb] in H. specialize (IH 0%nat H). cbn [length]. lia.
    + cbn [skipn] in H. specialize (IH k H). cbn [length]. lia.
Qed.

Lemma replace_absent (s : str) :
  occurs old s = false -> replace old new s = s.
Proof.
  unfold replace. induction s as [|c s IH]; intros H; [reflexivity|].
  cbn [occurs] in H. apply orb_false_iff in H as [H1 H2].
  cbn [replace_from]. rewrite H1. now rewrite IH.
Qed.

Lemma replace_same (s : str) :
  replace old new s = s <-> occurs old s = false.
Proof.
  split; [|apply replace_absent].
  intros H. destruct (occurs old s) eqn:E; [|reflexivity].
  pose proof (replace_from_grows s 0 E) as G.
  unfold replace in H. rewrite H in G. lia.
Qed.

End Replace.

Lemma startswith_app (p s t : str) :
  startswith p s = true -> startswith p (s ++ t) = true.
Proof.
  revert s. induction p as [|a p IH]; intros [|c s]; cbn; try easy.
  rewrite !andb_true_iff. intros [H1 H2]. split; [exact H1|now apply IH].
Qed.

Lemma startswith_long (p s t : str) :
  (length p <= length s)%nat ->
  startswith p (s ++ t) = startswith p s.
Proof.
  revert s. induction p as [|a p IH]; intros [|c s] H; cbn in *;
    try reflexivity; try lia.
  f_equal. apply IH. lia.
Qed.

(** No occurrence of [.xlsx] begins before the extension of a name whose
    stem has none. *)
Lemma xlsx_not_across (t : str) :
  t <> [] -> startswith xlsx t = false ->
  startswith xlsx (t ++ xlsx) = false.
Proof.
  intros Ht H.
  destruct (Nat.le_gt_cases (length xlsx) (length t)) as [L|L].
  - now rewrite startswith_long.
  - clear H. change (length xlsx) with 5%nat in L.
    destruct t as [|a [|b [|c [|d [|e t]]]]]; cbn [length] in L;
      try lia; try congruence; clear Ht L;
      unfold xlsx; cbn [of_string String.list_ascii_of_string map app
                        startswith];
      vm_compute (N.of_nat _);
      repeat match goal with
             | |- context [N.eqb ?x ?y] =>
                 destruct (N.eqb_spec x y); cbn [andb]; try reflexivity;
                 try discriminate
             end; subst; try discriminate; try reflexivity.
Qed.

Lemma replace_extension (stem : str) :
  occurs xlsx stem = false ->
  replace xlsx with_charts (stem ++ xlsx) = stem ++ with_charts.
Proof.
  unfold replace. induction stem as [|c s IH]; intros H; [reflexivity|].
  cbn [occurs] in H. apply orb_false_iff in H as [H1 H2].
  cbn [app replace_from].
  change (c :: s ++ xlsx) with ((c :: s) ++ xlsx).
  rewrite xlsx_not_across by (congruence || exact H1).
  now rewrite IH.
Qed.

(** X19.  The workbook with the charts is saved under the name of the input
    file itself, that is over the input, exactly when [.xlsx] does not
    occur in that name; for a name that ends in [.xlsx] and has no other
    occurrence, the extension is replaced by [_with_charts.xlsx]. *)
Theorem charts_file_name (excel_file : str)
        (constituency_df : list (option str))
        (branch_df : list Charts.ChartRow) (output_file : str)
        (c : Charts.Figure) (b : list (option str * Charts.Figure)) :
  create_attendance_charts excel_file constituency_df branch_df
  = Returns (output_file, c, b) ->
  (output_file = excel_file <-> occurs xlsx excel_file = false) /\
  (forall stem, excel_file = stem ++ xlsx -> occurs xlsx stem = false ->
                output_file = stem ++ with_charts).
Proof.
  unfold create_attendance_charts.
  destruct (Charts.create_constituency_charts constituency_df);
    [|discriminate].
  destruct (Charts.create_branch_charts branch_df); [|discriminate].
  cbn [and_then]. intros H. injection H as <- _ _. split.
  - apply replace_same; vm_compute; lia.
  - intros stem -> H. now apply replace_extension.
Qed.

Lemma charts_file_name_witness :
  exists c b,
    create_attendance_charts (of_string "results.xlsm") chart_names
                             chart_rows
    = Returns (of_string "results.xlsm", c, b).
Proof.
  destruct (create_attendance_charts (of_string "results.xlsm") chart_names
                                     chart_rows)
    as [[[out c] b]|e] eqn:E; [|vm_compute in E; discriminate].
  exists c, b. f_equal. f_equal. f_equal.
  apply (proj1 (charts_file_name _ _ _ out c b E)). reflexivity.
Defined.
